(** * Stack-trace masking of src/error.js

    A shallow embedding of the error-masking module of the ES-module loader
    (src/error.js): the four regular expressions, [scrubStack],
    [fillStackLines], [maskParserStack], [maskStack], [maskStackLines] and
    the proxy built by [ErrorUtils.maskStackTrace].

    Conventions of the embedding.
    - A JavaScript string is a [string]; the code units are the 8-bit
      characters of [ascii].  The line terminators that [.] refuses are
      therefore LF and CR only.
    - A JavaScript array of lines is a [list (option string)]; [None] is
      the value [undefined].
    - A number is [NaN] or an exact integer ([number]); every number the
      module computes is an index, a count, or the value of a run of
      decimal digits.  An integer stands for the double of that value,
      which is exact up to [Js.MAX_SAFE_INTEGER]; the theorems on a number
      read from a run of digits of any length keep it below that bound.
      The engine's limit on the length of a string is not modelled: the
      theorems on an indicator whose column is read from a text keep the
      column below [Js.maxLength].
    - The two [while] loops of [maskStackLines] take fuel: the inner one
      does not terminate on every input.  A computation is an [outcome]:
      a value, a thrown [TypeError], or [OutOfFuel]. *)

From stdpp Require Import base numbers list strings gmap.
From Stdlib Require Import Ascii DecimalString DecimalZ.

Local Open Scope Z_scope.

(** ** Outcomes *)

Inductive JsError := TypeError.

Inductive outcome (A : Type) :=
| Ok (a : A)
| Throw (e : JsError)
| OutOfFuel.
Arguments Ok {A} a.
Arguments Throw {A} e.
Arguments OutOfFuel {A}.

#[global] Instance outcome_bind : MBind outcome := fun A B f m =>
  match m with
  | Ok a => f a
  | Throw e => Throw e
  | OutOfFuel => OutOfFuel
  end.

#[global] Instance outcome_ret : MRet outcome := fun A a => Ok a.

(** ** JavaScript strings *)

Module Js.

Definition len (s : string) : Z := Z.of_nat (String.length s).

Fixpoint drop (n : nat) (s : string) : string :=
  match n, s with
  | O, _ => s
  | S n', String _ s' => drop n' s'
  | S _, EmptyString => EmptyString
  end.

Fixpoint take (n : nat) (s : string) : string :=
  match n, s with
  | S n', String c s' => String c (take n' s')
  | _, _ => EmptyString
  end.

(** [occurs_at s search k]: [search] occurs in [s] at index [k]. *)
Definition occurs_at (s search : string) (k : nat) : bool :=
  String.prefix search (drop k s).

(** [String.prototype.substr (start, length)] *)
Definition substr (s : string) (start length : Z) : string :=
  let size := len s in
  let start := if start <? 0 then Z.max (size + start) 0 else Z.min start size in
  let length := Z.min (Z.max length 0) (size - start) in
  take (Z.to_nat length) (drop (Z.to_nat start) s).

(** The largest [k <= start] at which [search] occurs, or -1. *)
Fixpoint scan_down (s search : string) (start : nat) : Z :=
  if occurs_at s search start then Z.of_nat start
  else match start with
       | O => -1
       | S k => scan_down s search k
       end.

(** [String.prototype.lastIndexOf (search, position)]: the position is
    clamped to [0 .. length]. *)
Definition lastIndexOf (s search : string) (position : Z) : Z :=
  let start := Z.min (Z.max position 0) (len s) in
  scan_down s search (Z.to_nat start).

(** The smallest [k >= from] at which [search] occurs, or -1. *)
Fixpoint scan_up (s search : string) (from : nat) : Z :=
  if String.prefix search s then Z.of_nat from
  else match s with
       | EmptyString => -1
       | String _ s' => scan_up s' search (S from)
       end.

(** [String.prototype.indexOf (search)] *)
Definition indexOf (s search : string) : Z := scan_up s search 0.

(** [String.prototype.includes (search)] *)
Definition includes (s search : string) : bool := 0 <=? indexOf s search.

(** [String.prototype.startsWith (search)] *)
Definition startsWith (s search : string) : bool := String.prefix search s.

(** [String.prototype.repeat (count)] *)
Fixpoint repeat (s : string) (count : nat) : string :=
  match count with
  | O => EmptyString
  | S n => s +:+ repeat s n
  end.

Definition LF : ascii := Ascii.ascii_of_nat 10.
Definition CR : ascii := Ascii.ascii_of_nat 13.

(** [String.prototype.split ("\n")] *)
Fixpoint split (s : string) : list string :=
  match s with
  | EmptyString => [EmptyString]
  | String c s' =>
      if Ascii.eqb c LF then EmptyString :: split s'
      else match split s' with
           | line :: lines => String c line :: lines
           | [] => [String c EmptyString]
           end
  end.

(** [ToString] of an array element: [undefined] reads "undefined". *)
Definition ToString (v : option string) : string :=
  match v with
  | Some s => s
  | None => "undefined"
  end.

(** [Array.prototype.join ("\n")]: an [undefined] element contributes the
    empty string. *)
Fixpoint join (lines : list (option string)) : string :=
  match lines with
  | [] => EmptyString
  | [line] => default EmptyString line
  | line :: rest => default EmptyString line +:+ String LF (join rest)
  end.

(** *** Numbers *)

Inductive number :=
| NaN
| Int (z : Z).

Definition is_digit (c : ascii) : bool :=
  let n := Ascii.nat_of_ascii c in
  ((48 <=? n) && (n <=? 57))%nat.

Fixpoint digits_value (acc : Z) (s : string) : option Z :=
  match s with
  | EmptyString => Some acc
  | String c s' =>
      if is_digit c
      then digits_value (10 * acc + Z.of_nat (Ascii.nat_of_ascii c - 48)) s'
      else None
  end.

(** [ToNumber] on the values the module converts: [undefined] and a
    capture of decimal digits.  The other numeric literals of JavaScript
    (signs, fractions, exponents, hexadecimal, surrounding blanks) give
    [NaN] here; no capture group of the module produces them. *)
Definition ToNumber (v : option string) : number :=
  match v with
  | None => NaN
  | Some s => match digits_value 0 s with
              | Some z => Int z
              | None => NaN
              end
  end.

(** [Number.MAX_SAFE_INTEGER].  Up to it a double holds every integer
    exactly: unary [+] reads a run of decimal digits as its value, and the
    number is written back in decimal digits.  Beyond it [Int z] stands
    for a double that need not be [z]. *)
Definition MAX_SAFE_INTEGER : Z := 2 ^ 53 - 1.

(** A length that every engine allows for a string.  [repeat] and [+]
    raise a [RangeError] when the result is longer than the engine's
    limit, which is [2 ^ 28 - 16] characters or more; [repeat] below is
    the function within that limit. *)
Definition maxLength : Z := 2 ^ 28 - 16.

(** [x - 1] *)
Definition minus_one (x : number) : number :=
  match x with
  | NaN => NaN
  | Int z => Int (z - 1)
  end.

(** [ToIntegerOrInfinity] as [repeat] uses it: [NaN] counts as 0. *)
Definition ToCount (x : number) : nat :=
  match x with
  | NaN => O
  | Int z => Z.to_nat z
  end.

(** [ToString] of a number. *)
Definition NumberToString (x : number) : string :=
  match x with
  | NaN => "NaN"
  | Int z => NilZero.string_of_int (Z.to_int z)
  end.

(** *** Arrays of lines *)

(** [a[i]] with a natural index; out of range reads [undefined]. *)
Definition get (a : list (option string)) (i : nat) : option string :=
  mjoin (a !! i).

(** [a[x]] with a computed index. *)
Definition index (a : list (option string)) (x : number) : option string :=
  match x with
  | Int z => if z <? 0 then None else get a (Z.to_nat z)
  | NaN => None
  end.

(** [a[i] = v]; past the end the array grows, the gap reading
    [undefined]. *)
Definition set (a : list (option string)) (i : nat) (v : option string)
  : list (option string) :=
  if (i <? length a)%nat then <[i := v]> a
  else a ++ replicate (i - length a) None ++ [v].

(** A method call on [v]: a [TypeError] when [v] is [undefined]. *)
Definition receiver (v : option string) : outcome string :=
  match v with
  | Some s => Ok s
  | None => Throw TypeError
  end.

End Js.

(** ** Regular expressions *)

Module RegExp.

(** The fragment of the regular-expression syntax the module uses.
    Quantifiers apply to one-character atoms, given by a predicate. *)
Inductive regex :=
| Char (c : ascii)
| Seq (r1 r2 : regex)
| Alt (r1 r2 : regex)
| Repeat (greedy : bool) (min : nat) (max : option nat) (atom : ascii → bool)
| Optional (r : regex)
| Group (i : nat) (r : regex)
| Bol
| Eol
| Lookahead (r : regex).

(** [\d] *)
Definition digit : ascii → bool := Js.is_digit.
(** [.] *)
Definition dot (c : ascii) : bool :=
  negb (Ascii.eqb c Js.LF || Ascii.eqb c Js.CR).
(** a literal character as an atom *)
Definition lit (c : ascii) : ascii → bool := Ascii.eqb c.

(** [x+], [x+?], [x*?], [x{n}] *)
Definition plus (atom : ascii → bool) := Repeat true 1 None atom.
Definition plus_lazy (atom : ascii → bool) := Repeat false 1 None atom.
Definition star_lazy (atom : ascii → bool) := Repeat false 0 None atom.
Definition exactly (n : nat) (atom : ascii → bool) := Repeat true n (Some n) atom.

Fixpoint literal (s : string) (r : regex) : regex :=
  match s with
  | EmptyString => r
  | String c s' => Seq (Char c) (literal s' r)
  end.

(** The state of a match: the input still to read, the index reached, the
    captures so far (latest first). *)
Record mstate := MState {
  rest : string;
  pos : nat;
  caps : list (nat * string)
}.

Section Matcher.
Context {A : Type}.

(** A quantified atom, backtracking: greedy tries one more character
    first, lazy tries the continuation first. *)
Fixpoint repeat_atom (greedy : bool) (atom : ascii → bool)
    (min : nat) (max : option nat) (s : string) (p : nat)
    (k : string → nat → option A) : option A :=
  let more (_ : unit) :=
    match max, s with
    | Some O, _ => None
    | _, String c s' =>
        if atom c
        then repeat_atom greedy atom (Nat.pred min) (Nat.pred <$> max) s' (S p) k
        else None
    | _, EmptyString => None
    end in
  let stop (_ : unit) :=
    match min with
    | O => k s p
    | S _ => None
    end in
  if greedy
  then match more () with Some x => Some x | None => stop () end
  else match stop () with Some x => Some x | None => more () end.

End Matcher.

(** The backtracking matcher, in continuation-passing style. *)
Fixpoint rmatch {A : Type} (r : regex) (st : mstate)
    (k : mstate → option A) : option A :=
  match r with
  | Char c =>
      match rest st with
      | String c' s' =>
          if Ascii.eqb c c' then k (MState s' (S (pos st)) (caps st)) else None
      | EmptyString => None
      end
  | Seq r1 r2 => rmatch r1 st (λ st', rmatch r2 st' k)
  | Alt r1 r2 =>
      match rmatch r1 st k with
      | Some x => Some x
      | None => rmatch r2 st k
      end
  | Repeat greedy min max atom =>
      repeat_atom greedy atom min max (rest st) (pos st)
        (λ s' p', k (MState s' p' (caps st)))
  | Optional r' =>
      match rmatch r' st k with
      | Some x => Some x
      | None => k st
      end
  | Group i r' =>
      rmatch r' st (λ st',
        k (MState (rest st') (pos st')
             ((i, Js.take (pos st' - pos st) (rest st)) :: caps st')))
  | Bol => if (pos st =? 0)%nat then k st else None
  | Eol => match rest st with EmptyString => k st | _ => None end
  | Lookahead r' =>
      match rmatch r' st Some with
      | Some st' => k (MState (rest st) (pos st) (caps st'))
      | None => None
      end
  end.

(** The result of [exec]: where the match starts, the matched text
    (element 0) and the captures. *)
Record match_result := MatchResult {
  match_index : nat;
  match_text : string;
  match_caps : list (nat * string)
}.

(** Element [i >= 1] of the result array; [undefined] for a group that
    took no part in the match. *)
Definition group (m : match_result) (i : nat) : option string :=
  snd <$> List.find (λ c, (fst c =? i)%nat) (match_caps m).

(** Try the start positions left to right. *)
Fixpoint exec_from (r : regex) (s : string) (p : nat) : option match_result :=
  match rmatch r (MState s p []) Some with
  | Some st => Some (MatchResult p (Js.take (pos st - p) s) (caps st))
  | None =>
      match s with
      | String _ s' => exec_from r s' (S p)
      | EmptyString => None
      end
  end.

(** [RegExp.prototype.exec] (no [g] flag); [None] is [null]. *)
Definition exec (r : regex) (s : string) : option match_result :=
  exec_from r s 0.

(** [RegExp.prototype.test] *)
Definition test (r : regex) (s : string) : bool :=
  bool_decide (is_Some (exec r s)).

(** [String.prototype.replace (regexp, replacement)] for a replacement
    without [$]: the first match is replaced. *)
Definition replace (r : regex) (s replacement : string) : string :=
  match exec r s with
  | None => s
  | Some m =>
      Js.take (match_index m) s +:+ replacement
        +:+ Js.drop (match_index m + String.length (match_text m)) s
  end.

End RegExp.

Import RegExp.

(** [/^(.+?: .+?) \((\d+):(\d+)\)(?:.*?: (.+))?$/] *)
Definition errorMessageRegExp : regex :=
  Seq Bol
 (Seq (Group 1 (Seq (plus_lazy dot) (literal ": " (plus_lazy dot))))
 (literal " ("
 (Seq (Group 2 (plus digit))
 (Seq (Char ":")
 (Seq (Group 3 (plus digit))
 (Seq (Char ")")
 (Seq (Optional (Seq (star_lazy dot) (literal ": " (Group 4 (plus dot)))))
      Eol))))))).

(** [/:(\d+)/] *)
Definition lineNumRegExp : regex :=
  Seq (Char ":") (Group 1 (plus digit)).

(** [/(\d+)(?=\)|$)/] *)
Definition columnNumRegExp : regex :=
  Seq (Group 1 (plus digit)) (Lookahead (Alt (Char ")") Eol)).

(** [/(?:^ {4}at |\()(.*?)(?=:\d+:\d+\)?$)/] *)
Definition filePathRegExp : regex :=
  Seq (Alt (Seq Bol (Seq (exactly 4 (lit " ")) (literal "at" (Char " "))))
           (Char "("))
 (Seq (Group 1 (star_lazy dot))
      (Lookahead
         (Seq (Char ":") (Seq (plus digit) (Seq (Char ":") (Seq (plus digit)
         (Seq (Optional (Char ")")) Eol))))))).

(** ** The maskers *)

(** A text given line by line. *)
Definition text (lines : list string) : string := Js.join (Some <$> lines).

Section Masker.

(** The file name of the loader's own bundle. *)
Variable __non_webpack_filename__ : string.

Definition scrubStack (stack : string) : string :=
  text (List.filter (λ line, negb (Js.includes line __non_webpack_filename__))
          (Js.split stack)).

Definition fillStackLines (stackLines : list (option string))
    (sourceCode compiledCode : string) : outcome (list (option string)) :=
  let stackFrame := Js.ToString (Js.get stackLines 1) in
  match exec lineNumRegExp stackFrame with
  | None => Ok stackLines
  | Some locMatch =>
      columnMatch ← match exec columnNumRegExp stackFrame with
                    | Some m => Ok m
                    | None => Throw TypeError
                    end;
      let column := Js.ToNumber (group columnMatch 1) in
      filePathMatch ← match exec filePathRegExp stackFrame with
                      | Some m => Ok m
                      | None => Throw TypeError
                      end;
      let filePath := Js.ToString (group filePathMatch 1) in
      let lineNum := Js.ToNumber (group locMatch 1) in
      Ok ([ Some (filePath +:+ ":" +:+ Js.NumberToString lineNum);
            Js.index (Some <$> Js.split compiledCode) (Js.minus_one lineNum);
            Some (Js.repeat " " (Js.ToCount column) +:+ "^");
            Some EmptyString ] ++ stackLines)
  end.

Definition maskParserStack (stack sourceCode : string) : string :=
  let stack := scrubStack stack in
  let stackLines := Some <$> Js.split stack in
  let parts := exec errorMessageRegExp (Js.ToString (Js.get stackLines 0)) in
  let desc := parts ≫= λ m, group m 1 in
  let lineNum := parts ≫= λ m, group m 2 in
  let column := parts ≫= λ m, group m 3 in
  let filePath := parts ≫= λ m, group m 4 in
  let spliceArgs :=
    match filePath with
    | Some path => [Some (path +:+ ":" +:+ Js.ToString lineNum)]
    | None => []
    end ++
    [ Js.index (Some <$> Js.split sourceCode) (Js.minus_one (Js.ToNumber lineNum));
      Some (Js.repeat " " (Js.ToCount (Js.ToNumber column)) +:+ "^");
      Some EmptyString;
      desc ] in
  Js.join (spliceArgs ++ List.skipn 1 stackLines).

(** The inner loop of [maskStackLines]:
    [while ((index = sourceLineOfCode.lastIndexOf(clip, index - 1)) > -1)
       newColumn = index]. *)
Fixpoint whileLastIndexOf (fuel : nat) (sourceLineOfCode clip : string)
    (index newColumn : Z) : outcome Z :=
  match fuel with
  | O => OutOfFuel
  | S fuel' =>
      let index := Js.lastIndexOf sourceLineOfCode clip (index - 1) in
      if index >? -1
      then whileLastIndexOf fuel' sourceLineOfCode clip index index
      else Ok newColumn
  end.

(** The outer loop: [while (clipLength-- > 1 && newColumn < 0) ...]. *)
Fixpoint whileClip (fuel : nat) (stackLineOfCode sourceLineOfCode : option string)
    (column clipLength newColumn : Z) : outcome Z :=
  match fuel with
  | O => OutOfFuel
  | S fuel' =>
      if (clipLength >? 1) && (newColumn <? 0) then
        let clipLength := clipLength - 1 in
        generated ← Js.receiver stackLineOfCode;
        let clip := Js.substr generated column clipLength in
        let clipLength := Z.min clipLength (Js.len clip) in
        original ← Js.receiver sourceLineOfCode;
        newColumn ← whileLastIndexOf fuel' original clip (column + 1) newColumn;
        whileClip fuel' stackLineOfCode sourceLineOfCode column clipLength newColumn
      else Ok newColumn
  end.

Definition maskStackLines (fuel : nat) (stackLines : list (option string))
    (sourceCode : string) : outcome (list (option string)) :=
  match exec lineNumRegExp (Js.ToString (Js.get stackLines 0)) with
  | None => Ok stackLines
  | Some locMatch =>
      let lineNum := Js.ToNumber (group locMatch 1) in
      indicator ← Js.receiver (Js.get stackLines 2);
      let column := Js.indexOf indicator "^" in
      let lines := Some <$> Js.split sourceCode in
      let sourceLineOfCode := Js.index lines (Js.minus_one lineNum) in
      let stackLineOfCode := Js.get stackLines 1 in
      let stackLines := Js.set stackLines 1 sourceLineOfCode in
      newColumn ← whileClip fuel stackLineOfCode sourceLineOfCode column 6 (-1);
      stackLines ←
        (if newColumn <? 0 then
           Ok (delete 2%nat stackLines)
         else if newColumn <? column then
           let stackLines :=
             Js.set stackLines 2
               (Some (Js.repeat " " (Z.to_nat newColumn) +:+ "^")) in
           restated ← Js.receiver (Js.get stackLines 5);
           Ok (Js.set stackLines 5
                 (Some (replace columnNumRegExp restated
                          (Js.NumberToString (Js.Int newColumn)))))
         else Ok stackLines);
      header ← Js.receiver (Js.get stackLines 0);
      if Js.startsWith header "repl:"
      then Ok (List.skipn 1 stackLines)
      else Ok stackLines
  end.

Definition maskStack (fuel : nat) (stack sourceCode : string)
    (compiledCode : option string) : outcome string :=
  let stack := scrubStack stack in
  let stackLines := Some <$> Js.split stack in
  stackLines ←
    match compiledCode with
    | Some compiled =>
        if negb (test lineNumRegExp (Js.ToString (Js.get stackLines 0)))
        then fillStackLines stackLines sourceCode compiled
        else Ok stackLines
    | None => Ok stackLines
    end;
  stackLines ← maskStackLines fuel stackLines sourceCode;
  Ok (Js.join stackLines).

(** The lines as [maskStack] hands them to [maskStackLines]: the scrubbed
    lines, after [fillStackLines] when the compiled code is there and the
    first line has no location. *)
Definition filledStackLines (stack sourceCode : string)
    (compiledCode : option string) : outcome (list (option string)) :=
  let stack := scrubStack stack in
  let stackLines := Some <$> Js.split stack in
  match compiledCode with
  | Some compiled =>
      if negb (test lineNumRegExp (Js.ToString (Js.get stackLines 0)))
      then fillStackLines stackLines sourceCode compiled
      else Ok stackLines
  | None => Ok stackLines
  end.

End Masker.

(** ** The proxy of [ErrorUtils.maskStackTrace] *)

(** The error object: its [stack] and [message] properties, the kind that
    [utils.isParseError] reads, the two hidden values the host keeps for
    it, and its other properties by key. *)
Record Failure := {
  stack : string;
  message : string;
  isParseError : bool;
  arrowMessage : option string;
  decorated : bool;
  others : string → option string
}.

(** [error[key]] *)
Definition property (error : Failure) (key : string) : option string :=
  if String.eqb key "stack" then Some (stack error)
  else if String.eqb key "message" then Some (message error)
  else others error key.

(** The [sourceCode] argument: the text, or a function that produces it.
    The call of the function may raise, or not return. *)
Inductive SourceCode :=
| Buffer (code : string)
| Producer (produce : unit → outcome string).

(** [typeof sourceCode === "function" ? sourceCode() : sourceCode] *)
Definition supplied (source : SourceCode) : outcome string :=
  match source with
  | Buffer code => Ok code
  | Producer produce => produce ()
  end.

(** The variables the [get] trap closes over, and the reference to the
    wrapped error. *)
Record Proxy := {
  target : nat;
  sourceCode : SourceCode;
  compiledCode : option string;
  trapSet : bool
}.

(** The store of error objects, shared by the proxy and by whoever holds
    the error itself, with two counters that record the calls of the
    producer and of the maskers. *)
Record World := {
  heap : gmap nat Failure;
  producerCalls : nat;
  maskRuns : nat
}.

Section Wrapper.

Variable __non_webpack_filename__ : string.

(** The host binding [process.binding("util")]: whether [setHiddenValue]
    is a function, and [decorateErrorStack] when it is one. *)
Variable useInternalSetHiddenValue : bool.
Variable internalDecorateErrorStack : option (Failure → Failure).

(** The hidden values go by private symbols or, in older hosts, by
    string keys inside [try]; either way the arrow message is emptied and
    the error is marked as decorated. *)
Definition decorateStackTrace (error : Failure) : Failure :=
  let error :=
    if useInternalSetHiddenValue
    then {| stack := stack error; message := message error;
            isParseError := isParseError error;
            arrowMessage := Some EmptyString; decorated := true;
            others := others error |}
    else error in
  match internalDecorateErrorStack with
  | Some decorate => decorate error
  | None => error
  end.

Definition set_stack (error : Failure) (text : string) : Failure :=
  {| stack := text; message := message error;
     isParseError := isParseError error;
     arrowMessage := arrowMessage error; decorated := decorated error;
     others := others error |}.

(** [new Proxy(error, { get ... })] *)
Definition maskStackTrace (error : nat) (sourceCode : SourceCode)
    (compiledCode : option string) : Proxy :=
  {| target := error; sourceCode := sourceCode;
     compiledCode := compiledCode; trapSet := false |}.

(** The [get] trap.  It returns the value read, the closure and the world
    as the call leaves them.  The source is evaluated before the flag is
    set: when the call of the producer raises, the read raises with the
    flag still unset and nothing else done.  A proxy is made of an error
    that exists; for a target missing from the store the read is an
    error. *)
Definition get (fuel : nat) (proxy : Proxy) (key : string) (w : World)
  : outcome (option string) * Proxy * World :=
  match heap w !! target proxy with
  | None => (Throw TypeError, proxy, w)
  | Some error =>
      if String.eqb key "stack" && negb (trapSet proxy) then
        let calls :=
          match sourceCode proxy with
          | Producer _ => S (producerCalls w)
          | Buffer _ => producerCalls w
          end in
        match supplied (sourceCode proxy) with
        | Throw e =>
            (Throw e, proxy,
             {| heap := heap w; producerCalls := calls; maskRuns := maskRuns w |})
        | OutOfFuel =>
            (OutOfFuel, proxy,
             {| heap := heap w; producerCalls := calls; maskRuns := maskRuns w |})
        | Ok code =>
            let proxy :=
              {| target := target proxy; sourceCode := Buffer code;
                 compiledCode := compiledCode proxy; trapSet := true |} in
            let error := decorateStackTrace error in
            let masked :=
              if isParseError error
              then Ok (maskParserStack __non_webpack_filename__ (stack error) code)
              else maskStack __non_webpack_filename__ fuel (stack error) code
                     (compiledCode proxy) in
            match masked with
            | Ok text =>
                (Ok (Some text), proxy,
                 {| heap := <[target proxy := set_stack error text]> (heap w);
                    producerCalls := calls; maskRuns := S (maskRuns w) |})
            | Throw e =>
                (Throw e, proxy,
                 {| heap := <[target proxy := error]> (heap w);
                    producerCalls := calls; maskRuns := S (maskRuns w) |})
            | OutOfFuel =>
                (OutOfFuel, proxy,
                 {| heap := <[target proxy := error]> (heap w);
                    producerCalls := calls; maskRuns := S (maskRuns w) |})
            end
        end
      else (Ok (property error key), proxy, w)
  end.

(** [n] reads of [proxy.stack] one after the other.  A read that throws
    leaves the caller free to read again; one that does not return ends
    the sequence. *)
Fixpoint reads (fuel : nat) (n : nat) (proxy : Proxy) (w : World)
  : list (outcome (option string)) * Proxy * World :=
  match n with
  | O => ([], proxy, w)
  | S n' =>
      let '(r, proxy', w') := get fuel proxy "stack" w in
      match r with
      | OutOfFuel => ([r], proxy', w')
      | _ =>
          let '(rs, proxy'', w'') := reads fuel n' proxy' w' in
          (r :: rs, proxy'', w'')
      end
  end.

End Wrapper.

(** ** Column recovery, in words *)

(** A recovered column, or none: the loops leave -1 in [newColumn] when no
    clip matches. *)
Definition recovered (newColumn : Z) : option Z :=
  if newColumn <? 0 then None else Some newColumn.

(** Column recovery as [maskStackLines] runs it. *)
Definition recoverColumn (fuel : nat) (generated : string) (column : Z)
    (original : string) : outcome Z :=
  whileClip fuel (Some generated) (Some original) column 6 (-1).

(** Column recovery as the specification words it. *)
Module Spec.

(** The last occurrence of [clip] in [original] at or before [position]. *)
Definition last_occurrence (original clip : string) (position : Z) : option Z :=
  recovered (Js.lastIndexOf original clip position).

(** The clip lengths in turn, largest first; the first that matches wins. *)
Fixpoint by_length (generated original : string) (column : Z)
    (lengths : list Z) : option Z :=
  match lengths with
  | [] => None
  | n :: lengths' =>
      match last_occurrence original (Js.substr generated column n) (column + 1) with
      | Some k => Some k
      | None => by_length generated original column lengths'
      end
  end.

(** Lengths 6 down to 2, the last occurrence at or before the reported
    column plus one. *)
Definition columnRecovery (generated : string) (column : Z) (original : string)
  : option Z :=
  by_length generated original column [6; 5; 4; 3; 2].

End Spec.

(** Column recovery as the two loops are found to compute it. *)
Module Leftmost.

(** The leftmost occurrence of [clip] in [original], when it starts at or
    before [column]. *)
Definition leftmost_occurrence (original clip : string) (column : Z) : option Z :=
  let k := Js.indexOf original clip in
  if (0 <=? k) && (k <=? Z.max column 0) then Some k else None.

Fixpoint by_length (generated original : string) (column : Z)
    (lengths : list Z) : option Z :=
  match lengths with
  | [] => None
  | n :: lengths' =>
      match leftmost_occurrence original (Js.substr generated column n) column with
      | Some k => Some k
      | None => by_length generated original column lengths'
      end
  end.

(** The lengths [n], [n - 1], ..., 1. *)
Fixpoint countdown (n : nat) : list Z :=
  match n with
  | O => []
  | S n' => Z.of_nat n :: countdown n'
  end.

(** Lengths 5 down to 1, the leftmost occurrence at or before the
    reported column. *)
Definition columnRecovery (generated : string) (column : Z) (original : string)
  : option Z :=
  by_length generated original column [5; 4; 3; 2; 1].

End Leftmost.

(** ** Example data *)

(** A parse failure at address 7 of the store, wrapped with a producer
    of a source of five lines. *)
Definition parse_failure_world : World :=
  {| heap :=
       {[ 7%nat :=
          {| stack := "SyntaxError: Unexpected token (3:10) while processing file: /x/y.js";
             message := "Unexpected token (3:10) while processing file: /x/y.js";
             isParseError := true;
             arrowMessage := None;
             decorated := false;
             others := λ _, None |} ]};
     producerCalls := 0;
     maskRuns := 0 |}.

Definition parse_failure_proxy : Proxy :=
  maskStackTrace 7 (Producer (λ _, Ok (text ["a"; "b"; "c"; "d"; "e"]))) None.

(** The parse failure of [parse_failure_world]. *)
Definition parse_failure : Failure :=
  {| stack := "SyntaxError: Unexpected token (3:10) while processing file: /x/y.js";
     message := "Unexpected token (3:10) while processing file: /x/y.js";
     isParseError := true;
     arrowMessage := None;
     decorated := false;
     others := λ _, None |}.

(** A runtime failure with a context block, at address 7 of the store,
    wrapped with the source as a buffer. *)
Definition bar_failure : Failure :=
  {| stack := text [ "/x/y.js:1"; "const x = foo(bar);"; "              ^"; EmptyString;
                     "ReferenceError: bar is not defined";
                     "    at Object.<anonymous> (/x/y.js:1:15)" ];
     message := "bar is not defined";
     isParseError := false;
     arrowMessage := None;
     decorated := false;
     others := λ _, None |}.

Definition bar_world : World :=
  {| heap := {[ 7%nat := bar_failure ]}; producerCalls := 0; maskRuns := 0 |}.

Definition bar_proxy : Proxy :=
  maskStackTrace 7 (Buffer "let x = foo(bar)") None.

(** A runtime failure whose message holds a port number. *)
Definition listen_failure : Failure :=
  {| stack :=
       text [ "Error: listen EADDRINUSE :::3000";
              "    at Server.setupListenHandle [as _listen2] (net.js:1360:14)";
              "    at listenInCluster (net.js:1401:12)" ];
     message := "listen EADDRINUSE :::3000";
     isParseError := false;
     arrowMessage := None;
     decorated := false;
     others := λ _, None |}.

(** ** Runs of characters *)

(** Every character of [s] satisfies [p]. *)
Fixpoint every (p : ascii → bool) (s : string) : bool :=
  match s with
  | EmptyString => true
  | String c s' => p c && every p s'
  end.

(** The length of the longest run of [p]-characters that [s] starts
    with. *)
Fixpoint run (p : ascii → bool) (s : string) : nat :=
  match s with
  | EmptyString => O
  | String c s' => if p c then S (run p s') else O
  end.

(** The digits that follow the first colon with a digit after it. *)
Fixpoint location_digits (s : string) : option string :=
  match s with
  | EmptyString => None
  | String c s' =>
      if Ascii.eqb c ":" && (0 <? run digit s')%nat
      then Some (Js.take (run digit s') s')
      else location_digits s'
  end.

(** [s] is empty or starts with a closing parenthesis. *)
Definition closes (s : string) : bool :=
  match s with
  | EmptyString => true
  | String c _ => Ascii.eqb c ")"
  end.

(** The first run of digits, taken whole, that the end of the string or
    a closing parenthesis follows, with the index where it starts; [p]
    is the index of the start of [s]. *)
Fixpoint column_digits (s : string) (p : nat) : option (nat * string) :=
  if (0 <? run digit s)%nat && closes (Js.drop (run digit s) s)
  then Some (p, Js.take (run digit s) s)
  else match s with
       | EmptyString => None
       | String _ s' => column_digits s' (S p)
       end.

(** A character of the text of a frame before its location: no colon,
    no closing parenthesis, no line terminator. *)
Definition plain (c : ascii) : bool :=
  dot c && negb (Ascii.eqb c ":") && negb (Ascii.eqb c ")").

(** A frame line: the text [body] after "    at ", then the line and the
    column, then [tail], a closing parenthesis or nothing. *)
Definition frame_line (body line column tail : string) : string :=
  "    at " +:+ body +:+ ":" +:+ line +:+ ":" +:+ column +:+ tail.


(** A line: a string without a line feed. *)
Fixpoint single_line (s : string) : bool :=
  match s with
  | EmptyString => true
  | String c s' => negb (Ascii.eqb c Js.LF) && single_line s'
  end.

(** An element of an array of lines that is a line, not [undefined]. *)
Definition defined_line (x : option string) : bool :=
  match x with
  | Some s => single_line s
  | None => false
  end.

(** The first line of a text, as [stackLines[0]] reads it. *)
Definition first_line (stack : string) : string :=
  Js.ToString (Js.get (Some <$> Js.split stack) 0).

(** The second line, as [stackLines[1]] reads it. *)
Definition second_line (stack : string) : string :=
  Js.ToString (Js.get (Some <$> Js.split stack) 1).

(** ** Lines and texts *)

Lemma split_nonempty s : Js.split s ≠ [].
Proof.
  destruct s as [|c s]; simpl; [done|].
  destruct (Ascii.eqb c Js.LF); [done|].
  destruct (Js.split s); done.
Qed.

Lemma text_split s : text (Js.split s) = s.
Proof.
  unfold text. induction s as [|c s IH]; simpl; [done|].
  destruct (Ascii.eqb_spec c Js.LF) as [->|Hc].
  - pose proof (split_nonempty s) as Hne.
    destruct (Js.split s) as [|l ls]; [done|].
    simpl in *. by rewrite IH.
  - pose proof (split_nonempty s) as Hne.
    destruct (Js.split s) as [|l ls]; [done|].
    simpl in *. destruct ls as [|l' ls]; simpl in *; by rewrite <- IH.
Qed.

Lemma split_single_lines s : Forall (λ l, single_line l = true) (Js.split s).
Proof.
  induction s as [|c s IH]; simpl.
  - by constructor.
  - destruct (Ascii.eqb c Js.LF) eqn:Hc.
    + by constructor.
    + pose proof (split_nonempty s) as Hne.
      destruct (Js.split s) as [|l ls]; [done|].
      inversion IH; subst. constructor; [|done].
      simpl. by rewrite Hc.
Qed.

Lemma split_line l : single_line l = true → Js.split l = [l].
Proof.
  induction l as [|c l IH]; simpl; [done|].
  intros [Hc Hl]%andb_prop. apply negb_true_iff in Hc.
  rewrite Hc, IH; done.
Qed.

Lemma split_line_cons l s :
  single_line l = true → Js.split (l +:+ String Js.LF s) = l :: Js.split s.
Proof.
  induction l as [|c l IH]; simpl; [done|].
  intros [Hc Hl]%andb_prop. apply negb_true_iff in Hc.
  rewrite Hc, IH; done.
Qed.

Lemma split_text lines :
  lines ≠ [] → Forall (λ l, single_line l = true) lines →
  Js.split (text lines) = lines.
Proof.
  unfold text. induction lines as [|l ls IH]; [done|].
  intros _ Hall. inversion Hall as [|? ? Hl Hls]; subst.
  destruct ls as [|l' ls].
  - simpl. by apply split_line.
  - change (Js.join (Some <$> l :: l' :: ls))
      with (l +:+ String Js.LF (Js.join (Some <$> l' :: ls))).
    rewrite split_line_cons by done. f_equal. by apply IH.
Qed.

Lemma filter_single_lines (keep : string → bool) lines :
  Forall (λ l, single_line l = true) lines →
  Forall (λ l, single_line l = true) (List.filter keep lines).
Proof.
  induction 1 as [|l ls Hl Hls IH]; simpl; [constructor|].
  destruct (keep l); [by constructor|done].
Qed.

Lemma filter_filter (keep : string → bool) lines :
  List.filter keep (List.filter keep lines) = List.filter keep lines.
Proof.
  induction lines as [|l ls IH]; simpl; [done|].
  destruct (keep l) eqn:Hk; simpl; [|done].
  by rewrite Hk, IH.
Qed.

(** Scrubbing a text made of lines filters the lines. *)
Lemma scrubStack_text f lines :
  lines ≠ [] → Forall (λ l, single_line l = true) lines →
  scrubStack f (text lines)
  = text (List.filter (λ line, negb (Js.includes line f)) lines).
Proof. intros Hne Hall. unfold scrubStack. by rewrite split_text. Qed.

(** Scrubbing twice is scrubbing once. *)
Lemma scrubStack_idempotent f stack :
  scrubStack f (scrubStack f stack) = scrubStack f stack.
Proof.
  unfold scrubStack.
  set (keep := λ line, negb (Js.includes line f)).
  pose proof (filter_single_lines keep _ (split_single_lines stack)) as Hall.
  destruct (List.filter keep (Js.split stack)) as [|l ls] eqn:Hf.
  - change (text []) with EmptyString. simpl.
    destruct (keep EmptyString); done.
  - rewrite split_text by done. rewrite <- Hf. by rewrite filter_filter.
Qed.

(** ** Occurrences of a clip *)

Lemma occurs_at_cons a s c j :
  Js.occurs_at (String a s) c (S j) = Js.occurs_at s c j.
Proof. done. Qed.

Lemma drop_all s k : (String.length s ≤ k)%nat → Js.drop k s = EmptyString.
Proof.
  revert k. induction s as [|a s IH]; intros [|k] Hk; simpl in *; try done; try lia.
  apply IH. lia.
Qed.

Lemma prefix_of_empty c : String.prefix c EmptyString = true → c = EmptyString.
Proof. by destruct c. Qed.

Lemma occurs_at_empty s k : Js.occurs_at s EmptyString k = true.
Proof. unfold Js.occurs_at. by destruct (Js.drop k s). Qed.

(** An occurrence of a non-empty clip starts inside the string. *)
Lemma occurs_at_inside s c k :
  Js.occurs_at s c k = true → c ≠ EmptyString → (k ≤ String.length s)%nat.
Proof.
  intros Hocc Hc. destruct (decide (k ≤ String.length s)%nat) as [|Hk]; [done|].
  unfold Js.occurs_at in Hocc. rewrite drop_all in Hocc by lia.
  by apply prefix_of_empty in Hocc.
Qed.

Lemma occurs_at_0 s c : Js.occurs_at s c 0 = String.prefix c s.
Proof. done. Qed.

Lemma scan_up_eq s c from :
  Js.scan_up s c from
  = if String.prefix c s then Z.of_nat from
    else match s with
         | EmptyString => -1
         | String _ s' => Js.scan_up s' c (S from)
         end.
Proof. by destruct s. Qed.

Lemma scan_down_eq s c n :
  Js.scan_down s c n
  = if Js.occurs_at s c n then Z.of_nat n
    else match n with
         | O => -1
         | S k => Js.scan_down s c k
         end.
Proof. by destruct n. Qed.

Lemma scan_up_cases s c from :
  (Js.scan_up s c from = -1 ∧ ∀ j, Js.occurs_at s c j = false)
  ∨ (∃ k, Js.scan_up s c from = Z.of_nat (from + k)
          ∧ Js.occurs_at s c k = true
          ∧ ∀ j, (j < k)%nat → Js.occurs_at s c j = false).
Proof.
  revert from. induction s as [|a s IH]; intros from; rewrite scan_up_eq.
  - destruct (String.prefix c EmptyString) eqn:Hp.
    + right. exists O. rewrite Nat.add_0_r. split_and!; [done|done|lia].
    + left. split; [done|]. intros [|j]; done.
  - destruct (String.prefix c (String a s)) eqn:Hp.
    + right. exists O. rewrite Nat.add_0_r. split_and!; [done|done|lia].
    + destruct (IH (S from)) as [[-> Hno]|(k & -> & Hk & Hmin)].
      * left. split; [done|]. intros [|j]; [done|]. rewrite occurs_at_cons. apply Hno.
      * right. exists (S k). split_and!.
        -- f_equal. lia.
        -- by rewrite occurs_at_cons.
        -- intros [|j] Hj; [done|]. rewrite occurs_at_cons. apply Hmin. lia.
Qed.

Lemma scan_down_cases s c n :
  (Js.scan_down s c n = -1 ∧ ∀ j, (j ≤ n)%nat → Js.occurs_at s c j = false)
  ∨ (∃ k, Js.scan_down s c n = Z.of_nat k ∧ (k ≤ n)%nat
          ∧ Js.occurs_at s c k = true
          ∧ ∀ j, (k < j ≤ n)%nat → Js.occurs_at s c j = false).
Proof.
  induction n as [|n IH]; rewrite scan_down_eq.
  - destruct (Js.occurs_at s c 0) eqn:H0.
    + right. exists O. split_and!; [done|done|done|lia].
    + left. split; [done|]. intros j Hj. by replace j with O by lia.
  - destruct (Js.occurs_at s c (S n)) eqn:Hn.
    + right. exists (S n). split_and!; [done|done|done|lia].
    + destruct IH as [[-> Hno]|(k & -> & Hk & Hocc & Hmax)].
      * left. split; [done|]. intros j Hj.
        destruct (decide (j = S n)) as [->|]; [done|]. apply Hno. lia.
      * right. exists k. split_and!; [done|lia|done|].
        intros j Hj. destruct (decide (j = S n)) as [->|]; [done|]. apply Hmax. lia.
Qed.

(** [indexOf] is -1 or the least occurrence. *)
Lemma indexOf_cases s c :
  (Js.indexOf s c = -1 ∧ ∀ j, Js.occurs_at s c j = false)
  ∨ (∃ k, Js.indexOf s c = Z.of_nat k
          ∧ Js.occurs_at s c k = true
          ∧ ∀ j, (j < k)%nat → Js.occurs_at s c j = false).
Proof. apply (scan_up_cases s c 0). Qed.

Lemma leftmost_occurrence_0 s c column :
  Js.occurs_at s c 0 = true → Leftmost.leftmost_occurrence s c column = Some 0.
Proof.
  intros H0. unfold Leftmost.leftmost_occurrence.
  destruct (indexOf_cases s c) as [[_ Hno]|(k & -> & _ & Hmin)].
  - by rewrite Hno in H0.
  - destruct k as [|k]; [|by rewrite (Hmin O) in H0 by lia].
    change (Z.of_nat 0) with 0.
    by rewrite (proj2 (Z.leb_le 0 (Z.max column 0))) by lia.
Qed.

Lemma leftmost_occurrence_nonneg s c column k :
  Leftmost.leftmost_occurrence s c column = Some k → 0 ≤ k.
Proof.
  unfold Leftmost.leftmost_occurrence.
  destruct (Z.leb_spec 0 (Js.indexOf s c)); simpl; [|done].
  destruct (_ <=? _); [|done]. intros [= <-]. done.
Qed.

(** ** The two loops *)

(** One turn of the inner loop, for a clip that does not occur at index
    0: either nothing is found at or before [index - 1], or an
    occurrence at [S k] is, and the search goes on below it towards the
    same leftmost occurrence. *)
Lemma lastIndexOf_step s c index :
  Js.occurs_at s c 0 = false →
  (Js.lastIndexOf s c (index - 1) = -1
   ∧ Leftmost.leftmost_occurrence s c (index - 1) = None)
  ∨ (∃ k k',
        Js.lastIndexOf s c (index - 1) = Z.of_nat (S k)
        ∧ Z.of_nat (S k) ≤ Z.max (index - 1) 0
        ∧ Leftmost.leftmost_occurrence s c (index - 1) = Some k'
        ∧ default (Z.of_nat (S k))
            (Leftmost.leftmost_occurrence s c (Z.of_nat (S k) - 1)) = k').
Proof.
  intros H0.
  assert (c ≠ EmptyString) as Hc.
  { intros ->. by rewrite occurs_at_empty in H0. }
  unfold Js.lastIndexOf.
  set (start := Z.to_nat (Z.min (Z.max (index - 1) 0) (Js.len s))).
  destruct (scan_down_cases s c start) as [[-> Hno]|(k & -> & Hk & Hocc & Hmax)].
  - left. split; [done|]. unfold Leftmost.leftmost_occurrence.
    destruct (indexOf_cases s c) as [[-> _]|(k' & -> & Hocc' & _)]; [done|].
    pose proof (occurs_at_inside _ _ _ Hocc' Hc).
    destruct (Z.leb_spec (Z.of_nat k') (Z.max (index - 1) 0));
      [|by rewrite andb_false_r].
    rewrite Hno in Hocc'; [done|]. unfold start, Js.len. lia.
  - right. destruct k as [|k]; [by rewrite H0 in Hocc|].
    unfold Leftmost.leftmost_occurrence.
    destruct (indexOf_cases s c) as [[_ Hnone]|(k' & -> & Hocc' & Hmin)];
      [by rewrite Hnone in Hocc|].
    assert (k' ≤ S k)%nat.
    { destruct (decide (k' ≤ S k)%nat); [done|]. rewrite Hmin in Hocc; [done|lia]. }
    exists k, (Z.of_nat k'). split; [done|].
    split; [unfold start in Hk; lia|].
    rewrite (proj2 (Z.leb_le 0 (Z.of_nat k'))) by lia.
    rewrite (proj2 (Z.leb_le (Z.of_nat k') (Z.max (index - 1) 0)))
      by (unfold start in Hk; lia).
    split; [done|].
    destruct (Z.leb_spec (Z.of_nat k') (Z.max (Z.of_nat (S k) - 1) 0)); simpl; lia.
Qed.

(** The inner loop stops when the clip does not occur at index 0, with the
    leftmost occurrence at or before [index - 1]. *)
Lemma whileLastIndexOf_stops s c :
  Js.occurs_at s c 0 = false →
  ∀ n index newColumn fuel,
    Z.max (index - 1) 0 ≤ Z.of_nat n → (n + 2 ≤ fuel)%nat →
    whileLastIndexOf fuel s c index newColumn
    = Ok (default newColumn (Leftmost.leftmost_occurrence s c (index - 1))).
Proof.
  intros H0.
  induction n as [|n IH]; intros index newColumn [|fuel] Hn Hfuel; try lia;
    cbn [whileLastIndexOf];
    (destruct (lastIndexOf_step s c index H0)
       as [[-> ->]|(k & k' & -> & Hk & -> & Hleft)]; [done|]).
  - lia.
  - rewrite (proj2 (Z.gtb_lt (Z.of_nat (S k)) (-1))) by lia.
    rewrite IH by lia. by rewrite Hleft.
Qed.

(** With any fuel it runs out of fuel or returns that column. *)
Lemma whileLastIndexOf_result s c :
  Js.occurs_at s c 0 = false →
  ∀ fuel index newColumn,
    whileLastIndexOf fuel s c index newColumn = OutOfFuel
    ∨ whileLastIndexOf fuel s c index newColumn
      = Ok (default newColumn (Leftmost.leftmost_occurrence s c (index - 1))).
Proof.
  intros H0. induction fuel as [|fuel IH]; intros index newColumn;
    cbn [whileLastIndexOf]; [by left|].
  destruct (lastIndexOf_step s c index H0)
    as [[-> ->]|(k & k' & -> & Hk & -> & Hleft)]; [by right|].
  rewrite (proj2 (Z.gtb_lt (Z.of_nat (S k)) (-1))) by lia.
  destruct (IH (Z.of_nat (S k)) (Z.of_nat (S k))) as [->| ->]; [by left|].
  right. by rewrite Hleft.
Qed.

(** It never stops when the clip occurs at index 0: from there
    [lastIndexOf (clip, -1)] is 0 again. *)
Lemma whileLastIndexOf_loops s c :
  Js.occurs_at s c 0 = true →
  ∀ fuel index newColumn, whileLastIndexOf fuel s c index newColumn = OutOfFuel.
Proof.
  intros H0. induction fuel as [|fuel IH]; intros index newColumn;
    cbn [whileLastIndexOf]; [done|].
  unfold Js.lastIndexOf.
  destruct (scan_down_cases s c (Z.to_nat (Z.min (Z.max (index - 1) 0) (Js.len s))))
    as [[_ Hno]|(k & -> & _)].
  - rewrite Hno in H0; [done|lia].
  - replace (Z.of_nat k >? -1) with true by (symmetry; apply Z.gtb_lt; lia).
    apply IH.
Qed.

Lemma take_length n a : String.length (Js.take n a) = Nat.min n (String.length a).
Proof.
  revert a. induction n as [|n IH]; intros [|c a]; simpl; try done.
  by rewrite IH.
Qed.

Lemma take_all n a : (String.length a ≤ n)%nat → Js.take n a = a.
Proof.
  revert a. induction n as [|n IH]; intros [|c a] Hn; simpl in *; try done; try lia.
  rewrite IH; [done|lia].
Qed.

Lemma drop_length k s : String.length (Js.drop k s) = (String.length s - k)%nat.
Proof.
  revert s. induction k as [|k IH]; intros [|c s]; simpl; try done.
Qed.

(** The clips at one column are the prefixes of one string. *)
Lemma substr_take generated column :
  ∃ a, ∀ n, 0 ≤ n → Js.substr generated column n = Js.take (Z.to_nat n) a.
Proof.
  unfold Js.substr.
  set (size := Js.len generated).
  set (start := if column <? 0 then Z.max (size + column) 0 else Z.min column size).
  exists (Js.drop (Z.to_nat start) generated). intros n Hn.
  assert (0 ≤ start ≤ size) as Hstart.
  { unfold start, size, Js.len. destruct (column <? 0) eqn:Hc; lia. }
  destruct (decide (n ≤ size - start)) as [Hle|Hgt].
  - f_equal. lia.
  - rewrite !take_all; [done| |]; rewrite drop_length; unfold size, Js.len in *; lia.
Qed.

Lemma by_length_skip generated original column (a b : nat) :
  (b ≤ a)%nat →
  (∀ n, (b < n ≤ a)%nat →
     Leftmost.leftmost_occurrence original
       (Js.substr generated column (Z.of_nat n)) column = None) →
  Leftmost.by_length generated original column (Leftmost.countdown a)
  = Leftmost.by_length generated original column (Leftmost.countdown b).
Proof.
  induction a as [|a IH]; intros Hb Hnone.
  - by replace b with O by lia.
  - destruct (decide (b = S a)) as [->|Hne]; [done|].
    cbn [Leftmost.countdown Leftmost.by_length].
    rewrite Hnone by lia. apply IH; [lia|]. intros n Hn. apply Hnone. lia.
Qed.

Lemma leftmost_occurrence_miss s c column :
  Leftmost.leftmost_occurrence s c column ≠ Some 0 → Js.occurs_at s c 0 = false.
Proof.
  intros Hleft. destruct (Js.occurs_at s c 0) eqn:H0; [|done].
  by rewrite (leftmost_occurrence_0 _ _ column H0) in Hleft.
Qed.

(** After a clip that is not found, the loop goes on with the length of
    that clip: the lengths in between give the same clip again. *)
Lemma by_length_after_miss generated original column p :
  Leftmost.leftmost_occurrence original
    (Js.substr generated column (Z.of_nat (S p))) column = None →
  Leftmost.by_length generated original column (Leftmost.countdown p)
  = Leftmost.by_length generated original column
      (Leftmost.countdown
         (Nat.min (S p)
            (String.length (Js.substr generated column (Z.of_nat (S p)))) - 1)).
Proof.
  destruct (substr_take generated column) as [a Ha].
  set (clip := Js.substr generated column (Z.of_nat (S p))). intros Hleft.
  assert (Js.occurs_at original clip 0 = false) as H0
    by (apply (leftmost_occurrence_miss _ _ column); by rewrite Hleft).
  assert (clip ≠ EmptyString) as Hclip.
  { intros Heq. rewrite Heq, occurs_at_empty in H0. done. }
  assert (String.length clip ≠ O) as Hlen by (by destruct clip).
  assert (String.length clip = Nat.min (S p) (String.length a)) as Hl.
  { unfold clip. rewrite Ha by lia. rewrite Nat2Z.id. apply take_length. }
  apply by_length_skip; [lia|]. intros n Hn.
  replace (Js.substr generated column (Z.of_nat n)) with clip; [done|].
  unfold clip. rewrite !Ha by lia. rewrite !Nat2Z.id.
  rewrite !take_all; [done| |]; lia.
Qed.

(** The outer loop, started with no column found, tries the lengths
    below [clipLength] in turn; it stops unless the leftmost occurrence
    it reaches is at column 0. *)
Lemma whileClip_stops generated original column :
  ∀ m fuel,
    (m + Z.to_nat (Z.max column 0) + 3 ≤ fuel)%nat →
    Leftmost.by_length generated original column (Leftmost.countdown (m - 1)) ≠ Some 0 →
    whileClip fuel (Some generated) (Some original) column (Z.of_nat m) (-1)
    = Ok (default (-1)
            (Leftmost.by_length generated original column (Leftmost.countdown (m - 1)))).
Proof.
  induction m as [m IH] using lt_wf_ind. intros [|fuel] Hfuel Hr; [lia|].
  cbn [whileClip].
  destruct (Z.gtb_spec (Z.of_nat m) 1) as [Hm|Hm]; cbn [andb].
  2:{ replace (m - 1)%nat with O by lia. done. }
  change (-1 <? 0) with true. cbn [Js.receiver mbind outcome_bind].
  destruct m as [|[|p]]; try lia.
  replace (S (S p) - 1)%nat with (S p) in * by lia.
  replace (Z.of_nat (S (S p)) - 1) with (Z.of_nat (S p)) by lia.
  pose proof (by_length_after_miss generated original column p) as Hmiss.
  cbn [Leftmost.countdown Leftmost.by_length] in *.
  set (clip := Js.substr generated column (Z.of_nat (S p))) in *.
  assert (Js.occurs_at original clip 0 = false) as H0.
  { apply (leftmost_occurrence_miss _ _ column).
    by destruct (Leftmost.leftmost_occurrence original clip column). }
  rewrite (whileLastIndexOf_stops _ _ H0 (Z.to_nat (Z.max column 0))) by lia.
  replace (column + 1 - 1) with column by lia.
  destruct (Leftmost.leftmost_occurrence original clip column) as [k|] eqn:Hleft;
    cbn [default id mbind outcome_bind].
  - pose proof (leftmost_occurrence_nonneg _ _ _ _ Hleft).
    destruct fuel as [|fuel]; [lia|]. cbn [whileClip].
    rewrite (proj2 (Z.ltb_ge k 0)) by lia.
    by rewrite andb_false_r.
  - replace (Z.min (Z.of_nat (S p)) (Js.len clip))
      with (Z.of_nat (Nat.min (S p) (String.length clip)))
      by (unfold Js.len; lia).
    rewrite Hmiss in * by done. apply IH; [lia|lia|done].
Qed.

(** It does not stop when that occurrence is at column 0. *)
Lemma whileClip_never_stops generated original column :
  ∀ m,
    Leftmost.by_length generated original column (Leftmost.countdown (m - 1)) = Some 0 →
    ∀ fuel,
      whileClip fuel (Some generated) (Some original) column (Z.of_nat m) (-1)
      = OutOfFuel.
Proof.
  induction m as [m IH] using lt_wf_ind. intros Hr [|fuel]; [done|].
  cbn [whileClip].
  destruct (Z.gtb_spec (Z.of_nat m) 1) as [Hm|Hm]; cbn [andb].
  2:{ replace (m - 1)%nat with O in Hr by lia. done. }
  change (-1 <? 0) with true. cbn [Js.receiver mbind outcome_bind].
  destruct m as [|[|p]]; try lia.
  replace (S (S p) - 1)%nat with (S p) in * by lia.
  replace (Z.of_nat (S (S p)) - 1) with (Z.of_nat (S p)) by lia.
  pose proof (by_length_after_miss generated original column p) as Hmiss.
  cbn [Leftmost.countdown Leftmost.by_length] in *.
  set (clip := Js.substr generated column (Z.of_nat (S p))) in *.
  destruct (Js.occurs_at original clip 0) eqn:H0.
  { by rewrite whileLastIndexOf_loops. }
  destruct (whileLastIndexOf_result _ _ H0 fuel (column + 1) (-1)) as [->| ->];
    [done|].
  replace (column + 1 - 1) with column by lia.
  destruct (Leftmost.leftmost_occurrence original clip column) as [k|] eqn:Hleft;
    cbn [default id mbind outcome_bind].
  - injection Hr as ->.
    destruct (indexOf_cases original clip) as [[Hi _]|(k' & Hi & Hocc & _)];
      unfold Leftmost.leftmost_occurrence in Hleft; rewrite Hi in Hleft.
    + done.
    + destruct k' as [|k']; [by rewrite H0 in Hocc|].
      destruct (_ && _); [|done]. injection Hleft. lia.
  - replace (Z.min (Z.of_nat (S p)) (Js.len clip))
      with (Z.of_nat (Nat.min (S p) (String.length clip)))
      by (unfold Js.len; lia).
    rewrite Hmiss in * by done. apply IH; [lia|done].
Qed.

(** Column recovery returns what the amended description computes,
    whenever that is not column 0. *)
Lemma recoverColumn_stops generated column original fuel :
  Leftmost.columnRecovery generated column original ≠ Some 0 →
  (Z.to_nat column + 9 ≤ fuel)%nat →
  recoverColumn fuel generated column original
  = Ok (default (-1) (Leftmost.columnRecovery generated column original)).
Proof.
  intros Hr Hfuel. unfold recoverColumn.
  apply (whileClip_stops generated original column 6); [lia|done].
Qed.

(** Column recovery does not return when the amended description gives
    column 0. *)
Lemma recoverColumn_loops generated column original :
  Leftmost.columnRecovery generated column original = Some 0 →
  ∀ fuel, recoverColumn fuel generated column original = OutOfFuel.
Proof.
  intros Hr fuel. unfold recoverColumn.
  by apply (whileClip_never_stops generated original column 6).
Qed.

(** ** [maskStackLines] on a located header *)

Lemma get_0 a l : Js.get (a :: l) 0 = a.
Proof. done. Qed.

Lemma get_S a l i : Js.get (a :: l) (S i) = Js.get l i.
Proof. done. Qed.

Section Located.

Variables (fuel : nat) (header indicator : string).
Variables (generated : option string) (rest : list (option string)).
Variable sourceCode : string.
Variable locMatch : match_result.

Hypothesis header_located : exec lineNumRegExp header = Some locMatch.

(** What the loops of [maskStackLines] compute for these lines. *)
Variable newColumn : Z.
Hypothesis recovery :
  whileClip fuel generated
    (Js.index (Some <$> Js.split sourceCode)
       (Js.minus_one (Js.ToNumber (group locMatch 1))))
    (Js.indexOf indicator "^") 6 (-1)
  = Ok newColumn.

Lemma maskStackLines_located :
  maskStackLines fuel (Some header :: generated :: Some indicator :: rest) sourceCode
  = (let sourceLineOfCode :=
       Js.index (Some <$> Js.split sourceCode)
         (Js.minus_one (Js.ToNumber (group locMatch 1))) in
     let stackLines := Some header :: sourceLineOfCode :: Some indicator :: rest in
     stackLines ←
       (if newColumn <? 0 then
          Ok (delete 2%nat stackLines)
        else if newColumn <? Js.indexOf indicator "^" then
          let stackLines :=
            Js.set stackLines 2
              (Some (Js.repeat " " (Z.to_nat newColumn) +:+ "^")) in
          restated ← Js.receiver (Js.get stackLines 5);
          Ok (Js.set stackLines 5
                (Some (replace columnNumRegExp restated
                         (Js.NumberToString (Js.Int newColumn)))))
        else Ok stackLines);
     header ← Js.receiver (Js.get stackLines 0);
     if Js.startsWith header "repl:"
     then Ok (List.skipn 1 stackLines)
     else Ok stackLines).
Proof.
  unfold maskStackLines.
  rewrite get_0. cbn [Js.ToString]. rewrite header_located.
  rewrite !get_S, !get_0. cbn [Js.receiver mbind outcome_bind].
  rewrite recovery. done.
Qed.

(** No column recovered: the indicator line is removed. *)
Lemma maskStackLines_deleted :
  newColumn < 0 →
  maskStackLines fuel (Some header :: generated :: Some indicator :: rest) sourceCode
  = let sourceLineOfCode :=
      Js.index (Some <$> Js.split sourceCode)
        (Js.minus_one (Js.ToNumber (group locMatch 1))) in
    if Js.startsWith header "repl:"
    then Ok (sourceLineOfCode :: rest)
    else Ok (Some header :: sourceLineOfCode :: rest).
Proof.
  intros Hneg. rewrite maskStackLines_located. cbv zeta.
  rewrite (proj2 (Z.ltb_lt newColumn 0)) by done.
  done.
Qed.

(** A column recovered that is not smaller: nothing but the code line
    changes. *)
Lemma maskStackLines_kept :
  0 ≤ newColumn → Js.indexOf indicator "^" ≤ newColumn →
  maskStackLines fuel (Some header :: generated :: Some indicator :: rest) sourceCode
  = let sourceLineOfCode :=
      Js.index (Some <$> Js.split sourceCode)
        (Js.minus_one (Js.ToNumber (group locMatch 1))) in
    if Js.startsWith header "repl:"
    then Ok (sourceLineOfCode :: Some indicator :: rest)
    else Ok (Some header :: sourceLineOfCode :: Some indicator :: rest).
Proof.
  intros Hpos Hge. rewrite maskStackLines_located. cbv zeta.
  rewrite (proj2 (Z.ltb_ge newColumn 0)) by done.
  rewrite (proj2 (Z.ltb_ge newColumn _)) by done.
  done.
Qed.

(** A smaller column recovered: the indicator line and the number of the
    line at index 5 are rewritten. *)
Lemma maskStackLines_moved l3 l4 restated rest' :
  rest = l3 :: l4 :: Some restated :: rest' →
  0 ≤ newColumn → newColumn < Js.indexOf indicator "^" →
  maskStackLines fuel (Some header :: generated :: Some indicator :: rest) sourceCode
  = let rewritten :=
      [ Js.index (Some <$> Js.split sourceCode)
          (Js.minus_one (Js.ToNumber (group locMatch 1)));
        Some (Js.repeat " " (Z.to_nat newColumn) +:+ "^");
        l3; l4;
        Some (replace columnNumRegExp restated
                (Js.NumberToString (Js.Int newColumn))) ] ++ rest' in
    if Js.startsWith header "repl:"
    then Ok rewritten
    else Ok (Some header :: rewritten).
Proof.
  intros Hrest Hpos Hlt. rewrite maskStackLines_located. subst rest. cbv zeta.
  rewrite (proj2 (Z.ltb_ge newColumn 0)) by done.
  rewrite (proj2 (Z.ltb_lt newColumn _)) by done.
  done.
Qed.

End Located.

Lemma by_length_nonneg generated original column lengths k :
  Leftmost.by_length generated original column lengths = Some k → 0 ≤ k.
Proof.
  induction lengths as [|n lengths IH]; cbn [Leftmost.by_length]; [done|].
  destruct (Leftmost.leftmost_occurrence _ _ _) as [k'|] eqn:Hleft; [|done].
  intros [= <-]. by eapply leftmost_occurrence_nonneg.
Qed.

Lemma recovered_default r :
  (∀ k, r = Some k → 0 ≤ k) → recovered (default (-1) r) = r.
Proof.
  intros Hr. destruct r as [k|]; [|done]. cbn [default id]. unfold recovered.
  by rewrite (proj2 (Z.ltb_ge k 0)) by (by apply Hr).
Qed.

(** ** Loops that do not stop, texts without a location *)

(** With no compiled code [fillStackLines] is not called: the lines of the
    scrubbed text go to [maskStackLines] as they are. *)
Lemma maskStack_without_fill f fuel stack sourceCode :
  maskStack f fuel stack sourceCode None
  = (stackLines ← maskStackLines fuel (Some <$> Js.split (scrubStack f stack))
                    sourceCode;
     Ok (Js.join stackLines)).
Proof. done. Qed.

(** The outer loop does not stop when the first clip, of length 5,
    occurs at index 0 of the original line. *)
Lemma whileClip_loops generated original column :
  Js.occurs_at original (Js.substr generated column 5) 0 = true →
  ∀ fuel,
    whileClip fuel (Some generated) (Some original) column 6 (-1) = OutOfFuel.
Proof.
  intros H0 [|fuel]; [done|]. cbn [whileClip].
  change (6 >? 1) with true. change (-1 <? 0) with true.
  cbn [andb Js.receiver mbind outcome_bind]. change (6 - 1) with 5.
  by rewrite whileLastIndexOf_loops.
Qed.

Lemma maskStackLines_loops fuel header indicator generated rest sourceCode locMatch :
  exec lineNumRegExp header = Some locMatch →
  whileClip fuel generated
    (Js.index (Some <$> Js.split sourceCode)
       (Js.minus_one (Js.ToNumber (group locMatch 1))))
    (Js.indexOf indicator "^") 6 (-1) = OutOfFuel →
  maskStackLines fuel (Some header :: generated :: Some indicator :: rest) sourceCode
  = OutOfFuel.
Proof.
  intros Hheader Hloop. unfold maskStackLines.
  rewrite get_0. cbn [Js.ToString]. rewrite Hheader.
  rewrite !get_S, !get_0. cbn [Js.receiver mbind outcome_bind].
  by rewrite Hloop.
Qed.

(** A text without a location to remap comes back scrubbed and no more. *)
Lemma maskStack_unlocated f fuel stack sourceCode compiledCode :
  exec lineNumRegExp (first_line (scrubStack f stack)) = None →
  compiledCode = None
  ∨ exec lineNumRegExp (second_line (scrubStack f stack)) = None →
  maskStack f fuel stack sourceCode compiledCode = Ok (scrubStack f stack).
Proof.
  unfold first_line, second_line. intros Hfirst Hsecond. unfold maskStack.
  assert (maskStackLines fuel (Some <$> Js.split (scrubStack f stack)) sourceCode
          = Ok (Some <$> Js.split (scrubStack f stack))) as Hlines.
  { unfold maskStackLines. by rewrite Hfirst. }
  destruct compiledCode as [compiled|].
  - destruct Hsecond as [|Hsecond]; [done|].
    unfold test. rewrite Hfirst.
    rewrite bool_decide_eq_false_2 by (intros [? ?]; done). cbn [negb].
    unfold fillStackLines. rewrite Hsecond. cbn [mbind outcome_bind].
    rewrite Hlines. cbn [mbind outcome_bind]. f_equal. apply text_split.
  - cbn [mbind outcome_bind]. rewrite Hlines. cbn [mbind outcome_bind].
    f_equal. apply text_split.
Qed.

(** ** Examples of matches *)

Lemma indexOf_lower_bound s c : -1 ≤ Js.indexOf s c.
Proof. destruct (indexOf_cases s c) as [[-> _]|(k & -> & _)]; lia. Qed.

(** No clip of "aaaaaa" occurs in "bbbbbb", at any column inside the
    line. *)
Lemma no_clip_of_a_in_b column :
  -1 ≤ column < 6 → Leftmost.columnRecovery "aaaaaa" column "bbbbbb" = None.
Proof.
  intros Hc.
  assert (column = -1 ∨ column = 0 ∨ column = 1 ∨ column = 2 ∨ column = 3
          ∨ column = 4 ∨ column = 5) as Hcases by lia.
  repeat destruct Hcases as [->|Hcases]; try subst column; reflexivity.
Qed.

Lemma errorMessageRegExp_example :
  exec errorMessageRegExp
    "SyntaxError: Unexpected token (3:10) while processing file: /x/y.js"
  = Some (MatchResult 0
            "SyntaxError: Unexpected token (3:10) while processing file: /x/y.js"
            [ (4%nat, "/x/y.js"); (3%nat, "10"); (2%nat, "3");
              (1%nat, "SyntaxError: Unexpected token") ]).
Proof. vm_compute. reflexivity. Qed.

(** ** Reads through the proxy *)

Section WrapperFacts.

Variable f : string.
Variable useSet : bool.
Variable decorate : option (Failure → Failure).

(** Once the trap is set, a read of [stack] returns the stack of the
    error and changes nothing. *)
Lemma get_cached fuel proxy w error :
  trapSet proxy = true → heap w !! target proxy = Some error →
  get f useSet decorate fuel proxy "stack" w
  = (Ok (Some (stack error)), proxy, w).
Proof.
  intros Hset Herror. unfold get. rewrite Herror, Hset. done.
Qed.

Lemma reads_cached fuel n proxy w error :
  trapSet proxy = true → heap w !! target proxy = Some error →
  reads f useSet decorate fuel n proxy w
  = (replicate n (Ok (Some (stack error))), proxy, w).
Proof.
  intros Hset Herror. induction n as [|n IH]; [done|].
  cbn [reads]. rewrite (get_cached _ _ _ error) by done.
  by rewrite IH.
Qed.

(** The first read, with the source at hand: the trap is set, the masker
    has run once, and the error holds the text returned, if one is, and
    else what decoration left. *)
Lemma get_first fuel proxy w error code r proxy' w' :
  trapSet proxy = false → heap w !! target proxy = Some error →
  supplied (sourceCode proxy) = Ok code →
  get f useSet decorate fuel proxy "stack" w = (r, proxy', w') →
  trapSet proxy' = true
  ∧ target proxy' = target proxy
  ∧ producerCalls w'
    = match sourceCode proxy with
      | Producer _ => S (producerCalls w)
      | Buffer _ => producerCalls w
      end
  ∧ maskRuns w' = S (maskRuns w)
  ∧ ∃ error', heap w' !! target proxy = Some error'
              ∧ (∀ text, r = Ok (Some text) →
                   error' = set_stack (decorateStackTrace useSet decorate error) text)
              ∧ (∀ e, r = Throw e →
                   error' = decorateStackTrace useSet decorate error).
Proof.
  intros Hset Herror Hcode. unfold get. rewrite Herror, Hset, Hcode.
  cbn [String.eqb Ascii.eqb Bool.eqb andb negb].
  destruct (if isParseError (decorateStackTrace useSet decorate error)
            then _ else _)
    as [text|e|] eqn:Hmask;
    intros [= <- <- <-]; cbn [trapSet target producerCalls maskRuns heap];
    split_and!; try done;
    eexists; (split; [apply lookup_insert_eq|]);
    (split; intros ? ?; by simplify_eq).
Qed.

(** The first read when the call of the producer raises: the read
    raises, the call is counted, and nothing else has changed; the trap
    is not set. *)
Lemma get_producer_raises fuel proxy w error produce e :
  trapSet proxy = false → heap w !! target proxy = Some error →
  sourceCode proxy = Producer produce → produce () = Throw e →
  get f useSet decorate fuel proxy "stack" w
  = (Throw e, proxy,
     {| heap := heap w; producerCalls := S (producerCalls w);
        maskRuns := maskRuns w |}).
Proof.
  intros Hset Herror Hsource Hraise. unfold get.
  rewrite Herror, Hset, Hsource. cbn [supplied]. by rewrite Hraise.
Qed.

End WrapperFacts.

(** * The claims *)

(** ** Column recovery *)

(** C1, as amended ([Leftmost.columnRecovery]).  Column recovery tries
    the clip lengths 5 down to 1, largest first; each clip is the
    substring of the generated line that starts at the reported column;
    the original line is searched leftward from the reported column,
    through every occurrence that starts at or before it.  The first
    length with an occurrence decides, and the recovered column is the
    leftmost such occurrence.  Stated for the searches whose leftmost
    occurrence is not at column 0. *)
Theorem column_recovery_algorithm generated column original fuel :
  Leftmost.columnRecovery generated column original ≠ Some 0 →
  (Z.to_nat column + 9 ≤ fuel)%nat →
  ∃ newColumn,
    recoverColumn fuel generated column original = Ok newColumn
    ∧ recovered newColumn = Leftmost.columnRecovery generated column original.
Proof.
  intros Hr Hfuel. eexists. split; [by apply recoverColumn_stops|].
  apply recovered_default. intros k Hk. by eapply by_length_nonneg.
Qed.

Lemma column_recovery_algorithm_witness :
  ∃ newColumn,
    recoverColumn 23 "const x = foo(bar);" 14 "let x = foo(bar)" = Ok newColumn
    ∧ recovered newColumn
      = Leftmost.columnRecovery "const x = foo(bar);" 14 "let x = foo(bar)".
Proof.
  apply column_recovery_algorithm; [vm_compute; discriminate|simpl; lia].
Defined.

(** C1, as stated ([Spec.columnRecovery]), fails: a clip of length 1 is
    tried and decides; the leftmost and not the last occurrence is kept;
    an occurrence that starts one past the reported column is not
    found. *)
Lemma column_recovery_not_as_claimed :
  (recoverColumn 20 "abcdefgh" 3 "xdx" = Ok 1
   ∧ Spec.columnRecovery "abcdefgh" 3 "xdx" = None
   ∧ recovered 1 ≠ Spec.columnRecovery "abcdefgh" 3 "xdx")
  ∧ (recoverColumn 20 "xxxxxfoo" 5 "xfooxfoo" = Ok 1
     ∧ Spec.columnRecovery "xxxxxfoo" 5 "xfooxfoo" = Some 5
     ∧ recovered 1 ≠ Spec.columnRecovery "xxxxxfoo" 5 "xfooxfoo")
  ∧ (recoverColumn 20 "xxfoo" 2 "xxxfoo" = Ok (-1)
     ∧ Spec.columnRecovery "xxfoo" 2 "xxxfoo" = Some 3
     ∧ recovered (-1) ≠ Spec.columnRecovery "xxfoo" 2 "xxxfoo").
Proof. vm_compute. split_and!; done. Qed.

(** C2, as amended.  For the generated line "const x = foo(bar);" with
    the indicator at column 14 and the original line "let x = foo(bar)",
    column recovery in [maskStackLines] finds column 12, which is smaller
    than 14; the indicator line becomes 12 blanks and a caret, and the
    number of the line at index 5 becomes 12. *)
Theorem column_recovery_example fuel header l3 l4 restated rest sourceCode locMatch :
  exec lineNumRegExp header = Some locMatch →
  Js.index (Some <$> Js.split sourceCode)
    (Js.minus_one (Js.ToNumber (group locMatch 1))) = Some "let x = foo(bar)" →
  (23 ≤ fuel)%nat →
  recoverColumn fuel "const x = foo(bar);" 14 "let x = foo(bar)" = Ok 12
  ∧ 12 < 14
  ∧ maskStackLines fuel
      (Some header :: Some "const x = foo(bar);" :: Some "              ^"
         :: l3 :: l4 :: Some restated :: rest) sourceCode
    = let rewritten :=
        [ Some "let x = foo(bar)"; Some "            ^"; l3; l4;
          Some (replace columnNumRegExp restated "12") ] ++ rest in
      if Js.startsWith header "repl:"
      then Ok rewritten
      else Ok (Some header :: rewritten).
Proof.
  intros Hheader Hline Hfuel.
  assert (recoverColumn fuel "const x = foo(bar);" 14 "let x = foo(bar)" = Ok 12)
    as Hrec.
  { rewrite recoverColumn_stops; [done|vm_compute; discriminate|simpl; lia]. }
  split_and!; [done|lia|].
  assert (whileClip fuel (Some "const x = foo(bar);")
            (Js.index (Some <$> Js.split sourceCode)
               (Js.minus_one (Js.ToNumber (group locMatch 1))))
            (Js.indexOf "              ^" "^") 6 (-1) = Ok 12) as Hloop
    by (by rewrite Hline).
  rewrite (maskStackLines_moved fuel header "              ^" _ _ sourceCode locMatch
             Hheader 12 Hloop l3 l4 restated rest eq_refl); [|lia|reflexivity].
  rewrite Hline. reflexivity.
Qed.

Lemma column_recovery_example_witness :
  recoverColumn 23 "const x = foo(bar);" 14 "let x = foo(bar)" = Ok 12
  ∧ 12 < 14
  ∧ maskStackLines 23
      [ Some "/x/y.js:1"; Some "const x = foo(bar);"; Some "              ^";
        Some EmptyString; Some "ReferenceError: bar is not defined";
        Some "    at Object.<anonymous> (/x/y.js:1:15)" ] "let x = foo(bar)"
    = Ok [ Some "/x/y.js:1"; Some "let x = foo(bar)"; Some "            ^";
           Some EmptyString; Some "ReferenceError: bar is not defined";
           Some "    at Object.<anonymous> (/x/y.js:1:12)" ].
Proof.
  apply (column_recovery_example 23 "/x/y.js:1" (Some EmptyString)
           (Some "ReferenceError: bar is not defined")
           "    at Object.<anonymous> (/x/y.js:1:15)" [] "let x = foo(bar)"
           (MatchResult 7 ":1" [(1%nat, "1")])).
  - vm_compute. reflexivity.
  - vm_compute. reflexivity.
  - lia.
Defined.

(** C2, as stated, fails: the recovered column is 12 and not 8, and the
    indicator line has 12 leading blanks. *)
Lemma recovered_column_is_not_8 :
  recoverColumn 23 "const x = foo(bar);" 14 "let x = foo(bar)" ≠ Ok 8
  ∧ maskStack "/esm/index.js" 23
      (text [ "/x/y.js:1"; "const x = foo(bar);"; "              ^"; EmptyString;
              "ReferenceError: bar is not defined";
              "    at Object.<anonymous> (/x/y.js:1:15)" ])
      "let x = foo(bar)" None
    = Ok (text [ "/x/y.js:1"; "let x = foo(bar)"; "            ^"; EmptyString;
                 "ReferenceError: bar is not defined";
                 "    at Object.<anonymous> (/x/y.js:1:12)" ]).
Proof. vm_compute. split; [discriminate|reflexivity]. Qed.

(** C7, as amended.  When no clip of length 5 down to 1 occurs in the
    original line at or before the reported column, [maskStackLines]
    removes the indicator line; so it does for the generated line
    "aaaaaa" and the original line "bbbbbb" at every column inside the
    generated line. *)
Theorem indicator_deleted_without_match
    fuel header indicator generated original rest sourceCode locMatch :
  exec lineNumRegExp header = Some locMatch →
  Js.index (Some <$> Js.split sourceCode)
    (Js.minus_one (Js.ToNumber (group locMatch 1))) = Some original →
  (Z.to_nat (Js.indexOf indicator "^") + 9 ≤ fuel)%nat →
  let column := Js.indexOf indicator "^" in
  let masked :=
    maskStackLines fuel
      (Some header :: Some generated :: Some indicator :: rest) sourceCode in
  let deleted :=
    if Js.startsWith header "repl:"
    then Ok (Some original :: rest)
    else Ok (Some header :: Some original :: rest) in
  (Leftmost.columnRecovery generated column original = None → masked = deleted)
  ∧ (generated = "aaaaaa" → original = "bbbbbb" → column < 6 → masked = deleted).
Proof.
  intros Hheader Hline Hfuel column masked deleted.
  assert (Leftmost.columnRecovery generated column original = None → masked = deleted)
    as Hgeneral.
  { intros Hnone. unfold masked, deleted.
    assert (whileClip fuel (Some generated)
              (Js.index (Some <$> Js.split sourceCode)
                 (Js.minus_one (Js.ToNumber (group locMatch 1))))
              (Js.indexOf indicator "^") 6 (-1) = Ok (-1)) as Hloop.
    { rewrite Hline. fold column.
      change (whileClip fuel (Some generated) (Some original) column 6 (-1))
        with (recoverColumn fuel generated column original).
      rewrite recoverColumn_stops; [by rewrite Hnone|by rewrite Hnone|done]. }
    rewrite (maskStackLines_deleted fuel header indicator _ rest sourceCode locMatch
               Hheader (-1) Hloop); [by rewrite Hline|lia]. }
  split; [done|]. intros -> -> Hcolumn. apply Hgeneral.
  apply no_clip_of_a_in_b. pose proof (indexOf_lower_bound indicator "^"). lia.
Qed.

Lemma indicator_deleted_without_match_witness :
  let masked :=
    maskStackLines 11
      [ Some "/x/y.js:1"; Some "aaaaaa"; Some "  ^"; Some EmptyString;
        Some "Error: x"; Some "    at f (/x/y.js:1:3)" ] "bbbbbb" in
  let deleted :=
    Ok [ Some "/x/y.js:1"; Some "bbbbbb"; Some EmptyString;
         Some "Error: x"; Some "    at f (/x/y.js:1:3)" ] in
  (Leftmost.columnRecovery "aaaaaa" 2 "bbbbbb" = None → masked = deleted)
  ∧ ("aaaaaa" = "aaaaaa" → "bbbbbb" = "bbbbbb" → 2 < 6 → masked = deleted).
Proof.
  apply (indicator_deleted_without_match 11 "/x/y.js:1" "  ^" "aaaaaa" "bbbbbb"
           [ Some EmptyString; Some "Error: x"; Some "    at f (/x/y.js:1:3)" ] "bbbbbb"
           (MatchResult 7 ":1" [(1%nat, "1")])).
  - vm_compute. reflexivity.
  - vm_compute. reflexivity.
  - vm_compute. lia.
Defined.

(** C7, as stated, fails: no clip of length 6 down to 2 occurs anywhere
    in the original line, yet the indicator line stays, moved to the
    column where the clip of length 1 occurs.  And with the indicator
    past the end of "aaaaaa" the masker does not return at all. *)
Lemma indicator_kept_on_one_character_match :
  (Forall (λ n, Js.indexOf "xdx" (Js.substr "abcdefgh" 3 n) = -1) [6; 5; 4; 3; 2]
   ∧ maskStack "/esm/index.js" 20
       (text [ "f.js:1"; "abcdefgh"; "   ^"; EmptyString; "Error: x";
               "    at f (f.js:1:4)" ])
       "xdx" None
     = Ok (text [ "f.js:1"; "xdx"; " ^"; EmptyString; "Error: x";
                  "    at f (f.js:1:1)" ])
   ∧ maskStack "/esm/index.js" 20
       (text [ "f.js:1"; "abcdefgh"; "   ^"; EmptyString; "Error: x";
               "    at f (f.js:1:4)" ])
       "xdx" None
     ≠ Ok (text [ "f.js:1"; "xdx"; EmptyString; "Error: x";
                  "    at f (f.js:1:4)" ]))
  ∧ ∀ fuel,
      maskStackLines fuel
        [ Some "f.js:1"; Some "aaaaaa"; Some "      ^"; Some EmptyString;
          Some "Error: x"; Some "    at f (f.js:1:7)" ] "bbbbbb"
      = OutOfFuel.
Proof.
  split; [split_and!|].
  - repeat (constructor; [vm_compute; reflexivity|]). constructor.
  - vm_compute. reflexivity.
  - vm_compute. discriminate.
  - intros fuel.
    rewrite (maskStackLines_loops fuel "f.js:1" "      ^" (Some "aaaaaa") _ "bbbbbb"
               (MatchResult 4 ":1" [(1%nat, "1")])); [done|vm_compute; reflexivity|].
    apply (whileClip_loops "aaaaaa" "bbbbbb" 6). vm_compute. reflexivity.
Qed.

(** C8.  [maskStackLines] rewrites the indicator line and the number of
    the line at index 5 only when the recovered column is smaller than
    the reported one; with a recovered column equal or greater, both
    lines stay as they are. *)
Theorem indicator_rewritten_only_when_smaller
    fuel header indicator generated original rest sourceCode locMatch newColumn :
  exec lineNumRegExp header = Some locMatch →
  Js.index (Some <$> Js.split sourceCode)
    (Js.minus_one (Js.ToNumber (group locMatch 1))) = Some original →
  recoverColumn fuel generated (Js.indexOf indicator "^") original = Ok newColumn →
  0 ≤ newColumn →
  let column := Js.indexOf indicator "^" in
  let masked :=
    maskStackLines fuel
      (Some header :: Some generated :: Some indicator :: rest) sourceCode in
  (column ≤ newColumn →
   masked = if Js.startsWith header "repl:"
            then Ok (Some original :: Some indicator :: rest)
            else Ok (Some header :: Some original :: Some indicator :: rest))
  ∧ (newColumn < column →
     ∀ l3 l4 restated rest',
       rest = l3 :: l4 :: Some restated :: rest' →
       let rewritten :=
         [ Some original;
           Some (Js.repeat " " (Z.to_nat newColumn) +:+ "^");
           l3; l4;
           Some (replace columnNumRegExp restated
                   (Js.NumberToString (Js.Int newColumn))) ] ++ rest' in
       masked = if Js.startsWith header "repl:"
                then Ok rewritten
                else Ok (Some header :: rewritten)).
Proof.
  intros Hheader Hline Hrec Hpos column masked. unfold masked.
  assert (whileClip fuel (Some generated)
            (Js.index (Some <$> Js.split sourceCode)
               (Js.minus_one (Js.ToNumber (group locMatch 1))))
            (Js.indexOf indicator "^") 6 (-1) = Ok newColumn) as Hloop
    by (by rewrite Hline).
  split.
  - intros Hge.
    rewrite (maskStackLines_kept fuel header indicator _ rest sourceCode locMatch
               Hheader newColumn Hloop); [by rewrite Hline|done|done].
  - intros Hlt l3 l4 restated rest' Hrest.
    rewrite (maskStackLines_moved fuel header indicator _ rest sourceCode locMatch
               Hheader newColumn Hloop l3 l4 restated rest' Hrest);
      [by rewrite Hline|done|done].
Qed.

Lemma indicator_rewritten_only_when_smaller_witness :
  let masked :=
    maskStackLines 20
      [ Some "/x/y.js:1"; Some "  foo()"; Some "  ^"; Some EmptyString;
        Some "ReferenceError: foo is not defined";
        Some "    at Object.<anonymous> (/x/y.js:1:3)" ] "  foo()" in
  (2 ≤ 2 →
   masked = Ok [ Some "/x/y.js:1"; Some "  foo()"; Some "  ^"; Some EmptyString;
                 Some "ReferenceError: foo is not defined";
                 Some "    at Object.<anonymous> (/x/y.js:1:3)" ])
  ∧ (2 < 2 →
     ∀ l3 l4 restated rest',
       [ Some EmptyString; Some "ReferenceError: foo is not defined";
         Some "    at Object.<anonymous> (/x/y.js:1:3)" ]
       = l3 :: l4 :: Some restated :: rest' →
       masked = Ok (Some "/x/y.js:1"
                    :: [ Some "  foo()"; Some "  ^"; l3; l4;
                         Some (replace columnNumRegExp restated "2") ] ++ rest')).
Proof.
  apply (indicator_rewritten_only_when_smaller 20 "/x/y.js:1" "  ^" "  foo()" "  foo()"
           [ Some EmptyString; Some "ReferenceError: foo is not defined";
             Some "    at Object.<anonymous> (/x/y.js:1:3)" ] "  foo()"
           (MatchResult 7 ":1" [(1%nat, "1")]) 2).
  - vm_compute. reflexivity.
  - vm_compute. reflexivity.
  - vm_compute. reflexivity.
  - lia.
Defined.

(** ** Failures of the runtime masker *)

(** C3.  The runtime masker raises, and it may not return.  A header
    that holds ":3000" sends [maskStackLines] to line 3000 of the source,
    which is [undefined]; a second line that holds ":80" and no column
    makes [fillStackLines] index [null]; an indicator at column 0 over a
    line that the transformation left unchanged keeps the inner loop of
    [maskStackLines] at index 0. *)
Theorem maskStack_raises :
  (∀ fuel,
     maskStack "/esm/index.js" (S fuel)
       (text [ "Error: listen EADDRINUSE :::3000";
               "    at Server.setupListenHandle [as _listen2] (net.js:1360:14)";
               "    at listenInCluster (net.js:1401:12)" ])
       "export default 1" None
     = Throw TypeError)
  ∧ (∀ fuel,
       maskStack "/esm/index.js" fuel
         (text [ "Error: Invalid config";
                 "server :80 unreachable";
                 "    at Object.<anonymous> (/x/y.js:1:7)" ])
         "export default 1" (Some "exports.default = 1")
       = Throw TypeError)
  ∧ (∀ fuel,
       maskStack "/esm/index.js" fuel
         (text [ "/x/y.js:1"; "foo()"; "^"; EmptyString;
                 "ReferenceError: foo is not defined";
                 "    at Object.<anonymous> (/x/y.js:1:1)" ])
         "foo()" None
       = OutOfFuel).
Proof.
  split_and!.
  - intros fuel. vm_compute. reflexivity.
  - intros fuel. vm_compute. reflexivity.
  - intros fuel. rewrite maskStack_without_fill.
    replace (Js.split (scrubStack _ _))
      with [ "/x/y.js:1"; "foo()"; "^"; EmptyString;
             "ReferenceError: foo is not defined";
             "    at Object.<anonymous> (/x/y.js:1:1)" ]%string
      by (vm_compute; reflexivity).
    cbn [fmap list_fmap].
    rewrite (maskStackLines_loops fuel "/x/y.js:1" "^" (Some "foo()") _ "foo()"
               (MatchResult 7 ":1" [(1%nat, "1")])); [done|vm_compute; reflexivity|].
    apply (whileClip_loops "foo()" "foo()" 0). vm_compute. reflexivity.
Qed.

(** ** Masking twice *)

(** C4, as stated, fails for both maskers: the parser masker splices a
    new block in front of its own output, and the runtime masker, which
    removed the indicator line in the first pass, removes the blank line
    in the second. *)
Lemma masking_twice_differs :
  (let source := text [ "a"; "b"; "c"; "d"; "e" ] in
   let once :=
     maskParserStack "/esm/index.js"
       "SyntaxError: Unexpected token (3:10) while processing file: /x/y.js"
       source in
   once = text [ "/x/y.js:3"; "c"; "          ^"; EmptyString;
                 "SyntaxError: Unexpected token" ]
   ∧ maskParserStack "/esm/index.js" once source
     = text [ EmptyString; "^"; EmptyString; EmptyString; "c";
              "          ^"; EmptyString; "SyntaxError: Unexpected token" ]
   ∧ maskParserStack "/esm/index.js" once source ≠ once)
  ∧ (let once :=
       text [ "f.js:1"; "bcd"; EmptyString; "Error: x"; "    at f (f.js:1:1)" ] in
     maskStack "/esm/index.js" 20
       (text [ "f.js:1"; "aaaaaa"; "^"; EmptyString; "Error: x";
               "    at f (f.js:1:1)" ])
       "bcd" None = Ok once
     ∧ maskStack "/esm/index.js" 20 once "bcd" None
       = Ok (text [ "f.js:1"; "bcd"; "Error: x"; "    at f (f.js:1:1)" ])
     ∧ maskStack "/esm/index.js" 20 once "bcd" None ≠ Ok once).
Proof. vm_compute. split_and!; done. Qed.

(** C5, as amended.  With the compiled code absent the runtime masker
    does no header synthesis, whatever the text: the scrubbed lines go to
    [maskStackLines] as they are, and [fillStackLines] has no part in the
    result.  When in addition the first line of the scrubbed text holds
    no ":<digits>", it does not fail and returns the text changed by
    scrubbing only. *)
Theorem maskStack_without_compiled f fuel stack sourceCode :
  maskStack f fuel stack sourceCode None
  = (stackLines ← maskStackLines fuel (Some <$> Js.split (scrubStack f stack))
                    sourceCode;
     Ok (Js.join stackLines))
  ∧ (exec lineNumRegExp (first_line (scrubStack f stack)) = None →
     maskStack f fuel stack sourceCode None = Ok (scrubStack f stack)).
Proof.
  split; [apply maskStack_without_fill|].
  intros Hfirst. apply maskStack_unlocated; [done|by left].
Qed.

Lemma maskStack_without_compiled_witness :
  let stack :=
    text [ "TypeError: x is not a function";
           "    at load (/esm/index.js:10:3)";
           "    at Object.<anonymous> (/x/y.js:1:7)" ] in
  maskStack "/esm/index.js" 0 stack "x()" None
  = (stackLines ← maskStackLines 0
                    (Some <$> Js.split (scrubStack "/esm/index.js" stack)) "x()";
     Ok (Js.join stackLines))
  ∧ maskStack "/esm/index.js" 0 stack "x()" None
    = Ok (text [ "TypeError: x is not a function";
                 "    at Object.<anonymous> (/x/y.js:1:7)" ]).
Proof.
  destruct (maskStack_without_compiled "/esm/index.js" 0
              (text [ "TypeError: x is not a function";
                      "    at load (/esm/index.js:10:3)";
                      "    at Object.<anonymous> (/x/y.js:1:7)" ]) "x()")
    as [Hlines Hscrubbed].
  split; [exact Hlines|]. apply Hscrubbed. vm_compute. reflexivity.
Defined.

(** C5, as stated, fails: with the compiled code absent a header that
    holds a location is remapped all the same, and the remapping may
    raise. *)
Lemma remapping_without_compiled :
  (let stack :=
     text [ "/x/y.js:1"; "const x = foo(bar);"; "              ^"; EmptyString;
            "ReferenceError: bar is not defined";
            "    at Object.<anonymous> (/x/y.js:1:15)" ] in
   scrubStack "/esm/index.js" stack = stack
   ∧ maskStack "/esm/index.js" 23 stack "let x = foo(bar)" None
     = Ok (text [ "/x/y.js:1"; "let x = foo(bar)"; "            ^"; EmptyString;
                  "ReferenceError: bar is not defined";
                  "    at Object.<anonymous> (/x/y.js:1:12)" ])
   ∧ maskStack "/esm/index.js" 23 stack "let x = foo(bar)" None
     ≠ Ok (scrubStack "/esm/index.js" stack))
  ∧ maskStack "/esm/index.js" 23
      (text [ "Error: listen EADDRINUSE :::3000";
              "    at Server.setupListenHandle [as _listen2] (net.js:1360:14)";
              "    at listenInCluster (net.js:1401:12)" ])
      "export default 1" None
    = Throw TypeError.
Proof. vm_compute. split_and!; done. Qed.

(** ** The parser masker *)

(** C6.  For a text whose header line is
    "SyntaxError: Unexpected token (3:10) while processing file: /x/y.js"
    and a source of five lines, the parser masker returns, in this order,
    the line "/x/y.js:3", the third line of the source, an indicator line
    of 10 blanks and a caret, an empty line and the line
    "SyntaxError: Unexpected token", followed by the frames that
    scrubbing keeps.  The header line is taken not to hold the loader's
    own file name. *)
Theorem parser_masker_example f l1 l2 l3 l4 l5 frames :
  Js.includes
    "SyntaxError: Unexpected token (3:10) while processing file: /x/y.js" f
  = false →
  Forall (λ l, single_line l = true) [l1; l2; l3; l4; l5] →
  Forall (λ l, single_line l = true) frames →
  maskParserStack f
    (text ("SyntaxError: Unexpected token (3:10) while processing file: /x/y.js"
             :: frames))
    (text [l1; l2; l3; l4; l5])
  = text ([ "/x/y.js:3"; l3; "          ^"; EmptyString; "SyntaxError: Unexpected token" ]
            ++ List.filter (λ line, negb (Js.includes line f)) frames).
Proof.
  intros Hheader Hsource Hframes. unfold maskParserStack.
  assert (single_line
            "SyntaxError: Unexpected token (3:10) while processing file: /x/y.js"
          = true) as Hline by reflexivity.
  rewrite scrubStack_text; [|done|by constructor].
  cbn [List.filter]. rewrite Hheader. cbn [negb].
  rewrite split_text;
    [|done|constructor; [done|by apply filter_single_lines]].
  rewrite (split_text [l1; l2; l3; l4; l5]) by done.
  cbn [fmap list_fmap]. rewrite get_0. cbn [Js.ToString].
  rewrite errorMessageRegExp_example.
  reflexivity.
Qed.

Lemma parser_masker_example_witness :
  maskParserStack "/esm/index.js"
    (text [ "SyntaxError: Unexpected token (3:10) while processing file: /x/y.js";
            "    at parse (/esm/index.js:20:5)";
            "    at Module._compile (module.js:569:30)" ])
    (text [ "import a from 'a'"; EmptyString; "export let = 1"; EmptyString; "a()" ])
  = text [ "/x/y.js:3"; "export let = 1"; "          ^"; EmptyString;
           "SyntaxError: Unexpected token";
           "    at Module._compile (module.js:569:30)" ].
Proof.
  apply (parser_masker_example "/esm/index.js"
           "import a from 'a'" EmptyString "export let = 1" EmptyString "a()"
           [ "    at parse (/esm/index.js:20:5)";
             "    at Module._compile (module.js:569:30)" ]).
  - vm_compute. reflexivity.
  - repeat constructor.
  - repeat constructor.
Defined.

(** ** The proxy *)

(** C9, as amended.  Over any sequence of one or more reads of [stack]
    through the proxy of an error wrapped with a producer whose call
    returns a source, the producer is called once and a masker runs once,
    on the first read.  When that read returns a text, every later read
    returns the same text, which is the [stack] of the error; when it
    raises, the masker having raised, every later read returns the text of
    the error as decoration left it, unmasked. *)
Theorem producer_invoked_once f useSet decorate fuel n proxy w produce code :
  sourceCode proxy = Producer produce →
  produce () = Ok code →
  trapSet proxy = false →
  is_Some (heap w !! target proxy) →
  let '(results, _, w') := reads f useSet decorate fuel (S n) proxy w in
  producerCalls w' = S (producerCalls w)
  ∧ maskRuns w' = S (maskRuns w)
  ∧ (∀ text,
       head results = Some (Ok (Some text)) →
       results = replicate (S n) (Ok (Some text))
       ∧ stack <$> heap w' !! target proxy = Some text)
  ∧ (∀ e,
       head results = Some (Throw e) →
       ∃ error,
         heap w !! target proxy = Some error
         ∧ results
           = Throw e
               :: replicate n
                    (Ok (Some (stack (decorateStackTrace useSet decorate error))))).
Proof.
  intros Hsource Hcode Hset [error Herror]. cbn [reads].
  assert (supplied (sourceCode proxy) = Ok code) as Hsupplied
    by (by rewrite Hsource).
  destruct (get f useSet decorate fuel proxy "stack" w) as [[r proxy1] w1] eqn:Hget.
  destruct (get_first _ _ _ _ _ _ _ _ _ _ _ Hset Herror Hsupplied Hget)
    as (Hset1 & Htarget & Hcalls & Hruns & error1 & Herror1 & Htext & Hraise).
  rewrite Hsource in Hcalls. rewrite <- Htarget in Herror1.
  rewrite (reads_cached _ _ _ _ _ _ _ error1 Hset1 Herror1).
  destruct r as [v|e|]; (split_and!; [done|done| |]).
  - intros text [= Hv]. subst v. rewrite (Htext text eq_refl).
    rewrite Htarget in Herror1. rewrite Herror1, (Htext text eq_refl). done.
  - intros e Hhead. by simplify_eq.
  - intros text Hhead. by simplify_eq.
  - intros e' Hhead. cbn [head] in Hhead.
    assert (e' = e) as -> by congruence.
    exists error. split; [done|]. by rewrite (Hraise e eq_refl).
  - intros text Hhead. by simplify_eq.
  - intros e Hhead. by simplify_eq.
Qed.

Lemma producer_invoked_once_witness :
  let '(results, _, w') :=
    reads "/esm/index.js" true None 0 3 parse_failure_proxy parse_failure_world in
  producerCalls w' = S (producerCalls parse_failure_world)
  ∧ maskRuns w' = S (maskRuns parse_failure_world)
  ∧ (∀ text,
       head results = Some (Ok (Some text)) →
       results = replicate 3 (Ok (Some text))
       ∧ stack <$> heap w' !! target parse_failure_proxy = Some text)
  ∧ (∀ e,
       head results = Some (Throw e) →
       ∃ error,
         heap parse_failure_world !! target parse_failure_proxy = Some error
         ∧ results
           = Throw e
               :: replicate 2
                    (Ok (Some (stack (decorateStackTrace true None error))))).
Proof.
  apply (producer_invoked_once "/esm/index.js" true None 0 2
           parse_failure_proxy parse_failure_world
           (λ _, Ok (text ["a"; "b"; "c"; "d"; "e"]))
           (text ["a"; "b"; "c"; "d"; "e"])).
  - reflexivity.
  - reflexivity.
  - reflexivity.
  - vm_compute. eauto.
Defined.

(** C9, as stated, fails.  The flag is set after the call of the
    producer: a producer that raises is called again on every read, and
    no masker runs.  And after a first read on which the masker raised,
    the later reads return the text of the error, which is not a masked
    text. *)
Lemma producer_called_on_every_read :
  (let proxy := maskStackTrace 7 (Producer (λ _, Throw TypeError)) None in
   let '(results, proxy', w') :=
     reads "/esm/index.js" true None 0 3 proxy parse_failure_world in
   results = [Throw TypeError; Throw TypeError; Throw TypeError]
   ∧ producerCalls w' = 3%nat
   ∧ maskRuns w' = 0%nat
   ∧ trapSet proxy' = false)
  ∧ (let proxy :=
       maskStackTrace 7 (Producer (λ _, Ok "export default 1")) None in
     let w := {| heap := {[ 7%nat := listen_failure ]};
                 producerCalls := 0; maskRuns := 0 |} in
     let '(results, _, w') := reads "/esm/index.js" true None 5 3 proxy w in
     results = [ Throw TypeError; Ok (Some (stack listen_failure));
                 Ok (Some (stack listen_failure)) ]
     ∧ producerCalls w' = 1%nat
     ∧ maskRuns w' = 1%nat).
Proof. vm_compute. split_and!; done. Qed.

(** C10, as amended.  A first read of [stack] through the proxy that
    returns a text assigns that text to the [stack] property of the
    wrapped error itself: the error in the store, read without the proxy,
    now gives the masked text.  A first read that raises or does not
    return assigns nothing: the error in the store is the error as it
    was, or as decoration left it. *)
Theorem first_read_mutates_error
    f useSet decorate fuel proxy w error r proxy' w' :
  trapSet proxy = false →
  heap w !! target proxy = Some error →
  get f useSet decorate fuel proxy "stack" w = (r, proxy', w') →
  ∃ error',
    heap w' !! target proxy = Some error'
    ∧ match r with
      | Ok v =>
          ∃ text,
            v = Some text
            ∧ error' = set_stack (decorateStackTrace useSet decorate error) text
            ∧ property error' "stack" = Some text
      | Throw _ | OutOfFuel =>
          error' = error ∨ error' = decorateStackTrace useSet decorate error
      end.
Proof.
  intros Hset Herror. unfold get. rewrite Herror, Hset.
  cbn [String.eqb Ascii.eqb Bool.eqb andb negb].
  destruct (supplied (sourceCode proxy)) as [code|e|].
  - destruct (if isParseError (decorateStackTrace useSet decorate error)
              then _ else _)
      as [text|e|] eqn:Hmask;
      intros [= <- <- <-]; cbn [heap target]; eexists;
      (split; [apply lookup_insert_eq|]); [|by right..].
    exists text. done.
  - intros [= <- <- <-]. cbn [heap]. exists error. split; [done|by left].
  - intros [= <- <- <-]. cbn [heap]. exists error. split; [done|by left].
Qed.

Lemma first_read_mutates_error_witness :
  let masked :=
    text [ "/x/y.js:1"; "let x = foo(bar)"; "            ^"; EmptyString;
           "ReferenceError: bar is not defined";
           "    at Object.<anonymous> (/x/y.js:1:12)" ] in
  ∃ error',
    heap (get "/esm/index.js" true None 23 bar_proxy "stack" bar_world).2
      !! target bar_proxy
    = Some error'
    ∧ ∃ text,
        Some masked = Some text
        ∧ error' = set_stack (decorateStackTrace true None bar_failure) text
        ∧ property error' "stack" = Some text.
Proof.
  cbv zeta.
  apply (first_read_mutates_error "/esm/index.js" true None 23
           bar_proxy bar_world bar_failure
           (Ok (Some (text [ "/x/y.js:1"; "let x = foo(bar)"; "            ^";
                             EmptyString; "ReferenceError: bar is not defined";
                             "    at Object.<anonymous> (/x/y.js:1:12)" ])))
           (get "/esm/index.js" true None 23 bar_proxy "stack" bar_world).1.2
           (get "/esm/index.js" true None 23 bar_proxy "stack" bar_world).2).
  - reflexivity.
  - reflexivity.
  - vm_compute. reflexivity.
Defined.

(** C10, as stated without the condition, fails: on a first read that
    raises, here because the header sends the masker to line 3000 of a
    source of one line, nothing is assigned, and the error read without
    the proxy still gives the text it had. *)
Lemma raising_read_assigns_nothing :
  let w := {| heap := {[ 7%nat := listen_failure ]};
              producerCalls := 0; maskRuns := 0 |} in
  let proxy := maskStackTrace 7 (Buffer "export default 1") None in
  let '(r, _, w') := get "/esm/index.js" true None 5 proxy "stack" w in
  r = Throw TypeError
  ∧ (heap w' !! 7%nat) ≫= (λ error, property error "stack")
    = Some (stack listen_failure).
Proof. vm_compute. done. Qed.

(** * Further properties *)

(** ** Scrubbing *)

Lemma includes_empty_line f : f ≠ EmptyString → Js.includes EmptyString f = false.
Proof. by destruct f. Qed.

Lemma filter_all_kept (keep : string → bool) lines :
  Forall (λ l, keep l = true) lines → List.filter keep lines = lines.
Proof.
  induction 1 as [|l ls Hl Hls IH]; simpl; [done|]. by rewrite Hl, IH.
Qed.

Lemma filter_kept (keep : string → bool) lines :
  Forall (λ l, keep l = true) (List.filter keep lines).
Proof.
  induction lines as [|l ls IH]; simpl; [constructor|].
  destruct (keep l) eqn:Hk; [by constructor|done].
Qed.

(** X1.  Scrubbing a scrubbed text changes nothing. *)
Theorem scrubbing_twice f stack :
  scrubStack f (scrubStack f stack) = scrubStack f stack.
Proof. apply scrubStack_idempotent. Qed.

(** X2.  Of a text given by its lines, scrubbing keeps the lines that do
    not hold the loader's file name, unchanged and in their order, and
    drops the others. *)
Theorem scrubbing_keeps_other_lines f lines :
  lines ≠ [] → Forall (λ l, single_line l = true) lines →
  scrubStack f (text lines)
  = text (List.filter (λ line, negb (Js.includes line f)) lines).
Proof. apply scrubStack_text. Qed.

Lemma scrubbing_keeps_other_lines_witness :
  scrubStack "/esm/index.js"
    (text [ "Error: x"; "    at load (/esm/index.js:10:3)";
            "    at Object.<anonymous> (/x/y.js:1:7)";
            "    at run (/esm/index.js:20:1)" ])
  = text (List.filter (λ line, negb (Js.includes line "/esm/index.js"))
            [ "Error: x"; "    at load (/esm/index.js:10:3)";
              "    at Object.<anonymous> (/x/y.js:1:7)";
              "    at run (/esm/index.js:20:1)" ]).
Proof.
  apply scrubbing_keeps_other_lines; [done|repeat constructor].
Defined.

(** X3.  A text none of whose lines holds the loader's file name is left
    as it is. *)
Theorem scrubbing_without_own_frames f stack :
  Forall (λ l, Js.includes l f = false) (Js.split stack) →
  scrubStack f stack = stack.
Proof.
  intros Hnone. unfold scrubStack. rewrite filter_all_kept; [apply text_split|].
  eapply Forall_impl; [exact Hnone|]. intros l Hl. simpl. by rewrite Hl.
Qed.

Lemma scrubbing_without_own_frames_witness :
  scrubStack "/esm/index.js"
    (text [ "Error: x"; "    at Object.<anonymous> (/x/y.js:1:7)" ])
  = text [ "Error: x"; "    at Object.<anonymous> (/x/y.js:1:7)" ].
Proof.
  apply scrubbing_without_own_frames. vm_compute. repeat constructor.
Defined.

(** X4.  When the loader's file name is not empty, no line of a scrubbed
    text holds it. *)
Theorem scrubbed_text_has_no_own_frame f stack :
  f ≠ EmptyString →
  Forall (λ l, Js.includes l f = false) (Js.split (scrubStack f stack)).
Proof.
  intros Hf. unfold scrubStack.
  set (keep := λ line, negb (Js.includes line f)).
  pose proof (filter_single_lines keep _ (split_single_lines stack)) as Hlines.
  pose proof (filter_kept keep (Js.split stack)) as Hkept.
  destruct (List.filter keep (Js.split stack)) as [|l ls] eqn:Hfilter.
  - change (text []) with EmptyString. constructor; [|constructor].
    by apply includes_empty_line.
  - rewrite split_text by done.
    eapply Forall_impl; [exact Hkept|]. intros l' Hl'. unfold keep in Hl'.
    by apply negb_true_iff in Hl'.
Qed.

Lemma scrubbed_text_has_no_own_frame_witness :
  Forall (λ l, Js.includes l "/esm/index.js" = false)
    (Js.split
       (scrubStack "/esm/index.js"
          (text [ "Error: x"; "    at load (/esm/index.js:10:3)";
                  "    at Object.<anonymous> (/x/y.js:1:7)" ]))).
Proof. apply scrubbed_text_has_no_own_frame. discriminate. Defined.

(** ** Column recovery with any fuel *)

(** With any fuel the outer loop runs out of fuel or returns the column
    of the description by lengths. *)
Lemma whileClip_result generated original column :
  ∀ m fuel,
    Leftmost.by_length generated original column (Leftmost.countdown (m - 1)) ≠ Some 0 →
    whileClip fuel (Some generated) (Some original) column (Z.of_nat m) (-1)
    = OutOfFuel
    ∨ whileClip fuel (Some generated) (Some original) column (Z.of_nat m) (-1)
      = Ok (default (-1)
              (Leftmost.by_length generated original column
                 (Leftmost.countdown (m - 1)))).
Proof.
  induction m as [m IH] using lt_wf_ind. intros [|fuel] Hr; [by left|].
  cbn [whileClip].
  destruct (Z.gtb_spec (Z.of_nat m) 1) as [Hm|Hm]; cbn [andb].
  2:{ replace (m - 1)%nat with O by lia. by right. }
  change (-1 <? 0) with true. cbn [Js.receiver mbind outcome_bind].
  destruct m as [|[|p]]; try lia.
  replace (S (S p) - 1)%nat with (S p) in * by lia.
  replace (Z.of_nat (S (S p)) - 1) with (Z.of_nat (S p)) by lia.
  pose proof (by_length_after_miss generated original column p) as Hmiss.
  cbn [Leftmost.countdown Leftmost.by_length] in *.
  set (clip := Js.substr generated column (Z.of_nat (S p))) in *.
  assert (Js.occurs_at original clip 0 = false) as H0.
  { apply (leftmost_occurrence_miss _ _ column).
    by destruct (Leftmost.leftmost_occurrence original clip column). }
  destruct (whileLastIndexOf_result _ _ H0 fuel (column + 1) (-1)) as [->| ->];
    [by left|].
  replace (column + 1 - 1) with column by lia.
  destruct (Leftmost.leftmost_occurrence original clip column) as [k|] eqn:Hleft;
    cbn [default id mbind outcome_bind].
  - pose proof (leftmost_occurrence_nonneg _ _ _ _ Hleft).
    destruct fuel as [|fuel]; [by left|]. right. cbn [whileClip].
    rewrite (proj2 (Z.ltb_ge k 0)) by lia.
    by rewrite andb_false_r.
  - replace (Z.min (Z.of_nat (S p)) (Js.len clip))
      with (Z.of_nat (Nat.min (S p) (String.length clip)))
      by (unfold Js.len; lia).
    rewrite Hmiss in * by done. apply IH; [lia|done].
Qed.

Lemma recoverColumn_result fuel generated column original :
  Leftmost.columnRecovery generated column original ≠ Some 0 →
  recoverColumn fuel generated column original = OutOfFuel
  ∨ recoverColumn fuel generated column original
    = Ok (default (-1) (Leftmost.columnRecovery generated column original)).
Proof. intros H0. exact (whileClip_result generated original column 6 fuel H0). Qed.

(** Whatever the fuel, a column that recovery returns is the one of
    [Leftmost.columnRecovery], and that one is not 0. *)
Lemma recoverColumn_returns fuel generated column original newColumn :
  recoverColumn fuel generated column original = Ok newColumn →
  Leftmost.columnRecovery generated column original ≠ Some 0
  ∧ recovered newColumn = Leftmost.columnRecovery generated column original.
Proof.
  intros Hrec.
  destruct (decide (Leftmost.columnRecovery generated column original = Some 0))
    as [H0|H0].
  { by rewrite (recoverColumn_loops _ _ _ H0) in Hrec. }
  split; [done|].
  destruct (recoverColumn_result fuel generated column original H0) as [Hf|Hf];
    rewrite Hf in Hrec; [done|].
  injection Hrec as <-. apply recovered_default.
  intros k Hk. by eapply by_length_nonneg.
Qed.

(** What a found occurrence is. *)
Lemma leftmost_occurrence_found s c column k :
  Leftmost.leftmost_occurrence s c column = Some k →
  0 ≤ k ≤ Z.max column 0
  ∧ Js.occurs_at s c (Z.to_nat k) = true
  ∧ ∀ j, (j < Z.to_nat k)%nat → Js.occurs_at s c j = false.
Proof.
  unfold Leftmost.leftmost_occurrence.
  destruct (indexOf_cases s c) as [[-> _]|(k' & -> & Hocc & Hmin)]; [done|].
  destruct (Z.leb_spec 0 (Z.of_nat k')); [|done].
  destruct (Z.leb_spec (Z.of_nat k') (Z.max column 0)); [|done].
  intros [= <-]. rewrite Nat2Z.id. done.
Qed.

(** What a missing occurrence is. *)
Lemma leftmost_occurrence_missing s c column :
  Leftmost.leftmost_occurrence s c column = None →
  ∀ j, Z.of_nat j ≤ Z.max column 0 → Js.occurs_at s c j = false.
Proof.
  unfold Leftmost.leftmost_occurrence.
  destruct (indexOf_cases s c) as [[_ Hno]|(k' & -> & Hocc & Hmin)]; [done|].
  rewrite (proj2 (Z.leb_le 0 (Z.of_nat k'))) by lia.
  destruct (Z.leb_spec (Z.of_nat k') (Z.max column 0)); [done|].
  intros _ j Hj. apply Hmin. lia.
Qed.

Lemma by_length_found generated original column lengths k :
  Leftmost.by_length generated original column lengths = Some k →
  ∃ n, n ∈ lengths
       ∧ Leftmost.leftmost_occurrence original
           (Js.substr generated column n) column = Some k.
Proof.
  induction lengths as [|n lengths IH]; cbn [Leftmost.by_length]; [done|].
  destruct (Leftmost.leftmost_occurrence _ _ _) as [k'|] eqn:Hleft.
  - intros [= <-]. exists n. split; [left|done].
  - intros Hk. destruct (IH Hk) as (n' & Hn' & Hleft').
    exists n'. split; [by right|done].
Qed.

Lemma by_length_missing generated original column lengths :
  Leftmost.by_length generated original column lengths = None →
  ∀ n, n ∈ lengths →
    Leftmost.leftmost_occurrence original
      (Js.substr generated column n) column = None.
Proof.
  induction lengths as [|n lengths IH]; cbn [Leftmost.by_length];
    [intros _ n Hn; by apply elem_of_nil in Hn|].
  destruct (Leftmost.leftmost_occurrence _ _ _) as [k'|] eqn:Hleft; [done|].
  intros Hnone n' [->|Hn']%elem_of_cons; [done|by apply IH].
Qed.

(** X5.  A column that recovery returns, with whatever fuel, lies to the
    left of the reported column or on it and is not column 0; a clip of
    the generated line, of length 1 to 5, occurs in the original line at
    that column and nowhere to its left. *)
Theorem recovered_column_is_leftmost_occurrence
    fuel generated column original newColumn :
  recoverColumn fuel generated column original = Ok newColumn →
  0 ≤ newColumn →
  0 < newColumn ≤ column
  ∧ ∃ n, 1 ≤ n ≤ 5
         ∧ Js.occurs_at original (Js.substr generated column n)
             (Z.to_nat newColumn) = true
         ∧ ∀ j, (j < Z.to_nat newColumn)%nat →
             Js.occurs_at original (Js.substr generated column n) j = false.
Proof.
  intros Hrec Hpos.
  destruct (recoverColumn_returns _ _ _ _ _ Hrec) as [H0 Hr].
  unfold recovered in Hr. rewrite (proj2 (Z.ltb_ge newColumn 0)) in Hr by done.
  symmetry in Hr. rewrite Hr in H0.
  destruct (by_length_found _ _ _ _ _ Hr) as (n & Hn & Hleft).
  destruct (leftmost_occurrence_found _ _ _ _ Hleft) as (Hk & Hocc & Hmin).
  assert (newColumn ≠ 0) as Hne by (by intros ->).
  split; [lia|].
  exists n. split; [|done].
    repeat (apply elem_of_cons in Hn as [->|Hn]; [lia|]).
    by apply elem_of_nil in Hn.
Qed.

Lemma recovered_column_is_leftmost_occurrence_witness :
  0 < 12 ≤ 14
  ∧ ∃ n, 1 ≤ n ≤ 5
         ∧ Js.occurs_at "let x = foo(bar)" (Js.substr "const x = foo(bar);" 14 n)
             (Z.to_nat 12) = true
         ∧ ∀ j, (j < Z.to_nat 12)%nat →
             Js.occurs_at "let x = foo(bar)"
               (Js.substr "const x = foo(bar);" 14 n) j = false.
Proof.
  apply (recovered_column_is_leftmost_occurrence 23);
    [vm_compute; reflexivity|lia].
Defined.

(** X6.  When recovery returns without a column, no clip of length 1 to
    5 occurs in the original line at or before the reported column. *)
Theorem no_column_means_no_occurrence fuel generated column original newColumn :
  recoverColumn fuel generated column original = Ok newColumn →
  newColumn < 0 →
  newColumn = -1
  ∧ ∀ n j, 1 ≤ n ≤ 5 → Z.of_nat j ≤ Z.max column 0 →
      Js.occurs_at original (Js.substr generated column n) j = false.
Proof.
  intros Hrec Hneg.
  assert (newColumn = -1) as ->.
  { destruct (recoverColumn_returns _ _ _ _ _ Hrec) as [H0 _].
    destruct (recoverColumn_result fuel generated column original H0) as [Hf|Hf];
      rewrite Hf in Hrec; [done|].
    injection Hrec as <-. unfold Leftmost.columnRecovery in *.
    destruct (Leftmost.by_length _ _ _ _) as [k|] eqn:Hk; [|done].
    apply by_length_nonneg in Hk. cbn [default id] in Hneg. lia. }
  split; [done|]. intros n j Hn Hj.
  destruct (recoverColumn_returns _ _ _ _ _ Hrec) as [_ Hr].
  symmetry in Hr. change (recovered (-1)) with (@None Z) in Hr.
  eapply leftmost_occurrence_missing; [|done].
  apply (by_length_missing _ _ _ _ Hr).
  rewrite !elem_of_cons. lia.
Qed.

Lemma no_column_means_no_occurrence_witness :
  -1 = -1
  ∧ ∀ n j, 1 ≤ n ≤ 5 → Z.of_nat j ≤ Z.max 2 0 →
      Js.occurs_at "bbbbbb" (Js.substr "aaaaaa" 2 n) j = false.
Proof.
  apply (no_column_means_no_occurrence 11 "aaaaaa" 2 "bbbbbb" (-1));
    [vm_compute; reflexivity|lia].
Defined.

(** X7.  Column recovery returns, with some fuel, exactly when the
    column of [Leftmost.columnRecovery] is not 0: the first clip that
    occurs at or before the reported column must not occur at index 0 of
    the original line. *)
Theorem column_recovery_returns_iff generated column original :
  (∃ fuel newColumn, recoverColumn fuel generated column original = Ok newColumn)
  ↔ Leftmost.columnRecovery generated column original ≠ Some 0.
Proof.
  split.
  - intros (fuel & newColumn & Hrec). by destruct (recoverColumn_returns _ _ _ _ _ Hrec).
  - intros H0. exists (Z.to_nat column + 9)%nat. eexists.
    by apply recoverColumn_stops.
Qed.

Lemma prefix_take n s : String.prefix (Js.take n s) s = true.
Proof.
  revert s. induction n as [|n IH]; intros [|c s]; try done.
  cbn [Js.take String.prefix]. destruct (Ascii.ascii_dec c c); [apply IH|done].
Qed.

Lemma substr_from_0 s n : ∃ k, Js.substr s 0 n = Js.take k s.
Proof.
  unfold Js.substr. change (0 <? 0) with false. cbv iota.
  replace (Z.min 0 (Js.len s)) with 0 by (unfold Js.len; lia).
  eexists. reflexivity.
Qed.

Lemma substr_past_end s column n :
  Js.len s ≤ column → Js.substr s column n = EmptyString.
Proof.
  intros Hc. unfold Js.substr.
  rewrite (proj2 (Z.ltb_ge column 0)) by (unfold Js.len in Hc; lia).
  replace (Z.min column (Js.len s)) with (Js.len s) by lia.
  replace (Z.to_nat (Z.min (Z.max n 0) (Js.len s - Js.len s))) with O by lia.
  by destruct (Js.drop _ s).
Qed.

(** X8.  With the indicator at column 0 over a line that the original
    source holds unchanged, [maskStackLines] does not return: the clip is
    found at index 0 again and again. *)
Theorem unchanged_line_at_column_0_never_returns
    fuel header indicator line rest sourceCode locMatch :
  exec lineNumRegExp header = Some locMatch →
  Js.index (Some <$> Js.split sourceCode)
    (Js.minus_one (Js.ToNumber (group locMatch 1))) = Some line →
  Js.indexOf indicator "^" = 0 →
  maskStackLines fuel (Some header :: Some line :: Some indicator :: rest) sourceCode
  = OutOfFuel.
Proof.
  intros Hheader Hline Hcolumn.
  apply (maskStackLines_loops _ _ _ _ _ _ _ Hheader).
  rewrite Hline, Hcolumn. apply whileClip_loops.
  destruct (substr_from_0 line 5) as [k ->]. rewrite occurs_at_0. apply prefix_take.
Qed.

Lemma unchanged_line_at_column_0_never_returns_witness :
  maskStackLines 1000
    [ Some "/x/y.js:2"; Some "foo()"; Some "^"; Some EmptyString;
      Some "ReferenceError: foo is not defined";
      Some "    at Object.<anonymous> (/x/y.js:2:1)" ]
    (text [ "import a from 'a'"; "foo()" ])
  = OutOfFuel.
Proof.
  apply (unchanged_line_at_column_0_never_returns 1000 "/x/y.js:2" "^" "foo()" _ _
           (MatchResult 7 ":2" [(1%nat, "2")]));
    vm_compute; reflexivity.
Defined.

(** X9.  With the indicator at or past the end of the generated line the
    clip is empty, and [maskStackLines] does not return either, whatever
    the original line. *)
Theorem indicator_past_the_end_never_returns
    fuel header indicator generated original rest sourceCode locMatch :
  exec lineNumRegExp header = Some locMatch →
  Js.index (Some <$> Js.split sourceCode)
    (Js.minus_one (Js.ToNumber (group locMatch 1))) = Some original →
  Js.len generated ≤ Js.indexOf indicator "^" →
  maskStackLines fuel
    (Some header :: Some generated :: Some indicator :: rest) sourceCode
  = OutOfFuel.
Proof.
  intros Hheader Hline Hcolumn.
  apply (maskStackLines_loops _ _ _ _ _ _ _ Hheader).
  rewrite Hline. apply whileClip_loops.
  rewrite substr_past_end by done. apply occurs_at_empty.
Qed.

Lemma indicator_past_the_end_never_returns_witness :
  maskStackLines 1000
    [ Some "/x/y.js:1"; Some "foo("; Some "    ^"; Some EmptyString;
      Some "SyntaxError: Unexpected end of input";
      Some "    at Object.<anonymous> (/x/y.js:1:5)" ]
    "bar("
  = OutOfFuel.
Proof.
  apply (indicator_past_the_end_never_returns 1000 "/x/y.js:1" "    ^" "foo(" "bar(" _ _
           (MatchResult 7 ":1" [(1%nat, "1")]));
    vm_compute; try reflexivity. discriminate.
Defined.

(** ** Where the runtime masker raises *)

Lemma get_beyond (a : list (option string)) i :
  (length a ≤ i)%nat → Js.get a i = None.
Proof. intros Hi. unfold Js.get. by rewrite lookup_ge_None_2. Qed.

(** X10.  A text that, once scrubbed, has a first line with a location
    and fewer than three lines makes the runtime masker raise: there is
    no indicator line to read the column from. *)
Theorem located_text_without_indicator_raises
    f fuel stack sourceCode compiledCode locMatch :
  exec lineNumRegExp (first_line (scrubStack f stack)) = Some locMatch →
  (length (Js.split (scrubStack f stack)) ≤ 2)%nat →
  maskStack f fuel stack sourceCode compiledCode = Throw TypeError.
Proof.
  unfold first_line. intros Hfirst Hshort. unfold maskStack.
  assert (maskStackLines fuel (Some <$> Js.split (scrubStack f stack)) sourceCode
          = Throw TypeError) as Hlines.
  { unfold maskStackLines. rewrite Hfirst.
    rewrite (get_beyond _ 2) by (rewrite length_fmap; lia).
    done. }
  unfold test. rewrite Hfirst. rewrite bool_decide_eq_true_2 by eauto.
  destruct compiledCode; cbn [negb mbind outcome_bind]; by rewrite Hlines.
Qed.

Lemma located_text_without_indicator_raises_witness :
  maskStack "/esm/index.js" 10
    (text [ "Error: connect ECONNREFUSED 127.0.0.1:80";
            "    at connect (/esm/index.js:5:5)" ])
    "export default 1" (Some "exports.default = 1")
  = Throw TypeError.
Proof.
  apply (located_text_without_indicator_raises _ _ _ _ _
           (MatchResult 37 ":80" [(1%nat, "80")])).
  - vm_compute. reflexivity.
  - vm_compute. lia.
Defined.

(** X11.  With a located header and an indicator line, [maskStackLines]
    raises as soon as the loop runs when the code line of the stack is
    [undefined] or the source has no line of the header's number. *)
Theorem missing_code_line_raises
    fuel header indicator generated rest sourceCode locMatch :
  exec lineNumRegExp header = Some locMatch →
  generated = None
  ∨ Js.index (Some <$> Js.split sourceCode)
      (Js.minus_one (Js.ToNumber (group locMatch 1))) = None →
  maskStackLines (S fuel)
    (Some header :: generated :: Some indicator :: rest) sourceCode
  = Throw TypeError.
Proof.
  intros Hheader Hmissing. unfold maskStackLines.
  rewrite get_0. cbn [Js.ToString]. rewrite Hheader.
  rewrite !get_S, !get_0. cbn [Js.receiver mbind outcome_bind whileClip].
  change (6 >? 1) with true. change (-1 <? 0) with true. cbn [andb].
  destruct generated as [g|]; [|done].
  destruct Hmissing as [?| ->]; done.
Qed.

Lemma missing_code_line_raises_witness :
  maskStackLines 1
    [ Some "Error: listen EADDRINUSE :::3000";
      Some "    at Server.setupListenHandle [as _listen2] (net.js:1360:14)";
      Some "    at listenInCluster (net.js:1401:12)" ]
    "export default 1"
  = Throw TypeError.
Proof.
  apply (missing_code_line_raises 0 _ _ _ _ _
           (MatchResult 27 ":3000" [(1%nat, "3000")])).
  - vm_compute. reflexivity.
  - right. vm_compute. reflexivity.
Defined.

(** ** The indicator line *)

Lemma scan_up_indicator n from :
  Js.scan_up (Js.repeat " " n +:+ "^") "^" from = Z.of_nat (from + n).
Proof.
  revert from. induction n as [|n IH]; intros from.
  - rewrite Nat.add_0_r. reflexivity.
  - change (Js.repeat " " (S n) +:+ "^")
      with (String " " (Js.repeat " " n +:+ "^")).
    rewrite scan_up_eq. change (String.prefix "^" (String " " _)) with false.
    cbv iota. rewrite IH. f_equal. lia.
Qed.

(** X12.  The indicator line that [fillStackLines] and [maskStackLines]
    write for a column, that many blanks and a caret, gives the column
    back where [maskStackLines] reads it. *)
Theorem indicator_round_trip n :
  Js.indexOf (Js.repeat " " n +:+ "^") "^" = Z.of_nat n.
Proof. exact (scan_up_indicator n 0). Qed.

(** ** The parser masker on a header it cannot read *)

Lemma join_undefined lines :
  Js.join (None :: lines) = Js.join (Some EmptyString :: lines).
Proof. by destruct lines. Qed.

(** X13.  When the first line of the scrubbed text does not fit the
    message grammar, the parser masker still splices: the first line is
    replaced by an empty line, a line with the caret alone and two empty
    lines, and the lines after it are kept. *)
Theorem parser_masker_on_unread_header f stack sourceCode :
  exec errorMessageRegExp (first_line (scrubStack f stack)) = None →
  maskParserStack f stack sourceCode
  = text ([ EmptyString; "^"; EmptyString; EmptyString ]
            ++ List.skipn 1 (Js.split (scrubStack f stack))).
Proof.
  unfold first_line. intros Hheader. unfold maskParserStack.
  rewrite Hheader. cbn [mbind option_bind app].
  change (Js.index _ (Js.minus_one (Js.ToNumber None))) with (@None string).
  change (Js.repeat " " (Js.ToCount (Js.ToNumber None)) +:+ "^") with "^"%string.
  unfold text. rewrite join_undefined.
  destruct (Js.split (scrubStack f stack)) as [|l ls]; [done|].
  cbn [List.skipn fmap list_fmap app].
  destruct ls; reflexivity.
Qed.

Lemma parser_masker_on_unread_header_witness :
  maskParserStack "/esm/index.js"
    (text [ "SyntaxError: Unexpected token"; "    at parse (/x/p.js:1:1)" ])
    "let = 1"
  = text [ EmptyString; "^"; EmptyString; EmptyString;
           "    at parse (/x/p.js:1:1)" ].
Proof.
  apply (parser_masker_on_unread_header "/esm/index.js"
           (text [ "SyntaxError: Unexpected token"; "    at parse (/x/p.js:1:1)" ])).
  vm_compute. reflexivity.
Defined.

(** ** The frames below the context block *)

(** X14.  Whatever [maskStackLines] returns, the lines from index 6 on
    are at its end, untouched and in their order. *)
Theorem frames_below_are_kept fuel stackLines sourceCode stackLines' :
  maskStackLines fuel stackLines sourceCode = Ok stackLines' →
  suffix (drop 6 stackLines) stackLines'.
Proof.
  unfold maskStackLines.
  destruct (exec lineNumRegExp _) as [locMatch|].
  2:{ intros [= <-]. apply suffix_drop. }
  destruct stackLines as [|h [|g [|i rest]]]; try done.
  rewrite !get_S, !get_0.
  destruct i as [indicator|]; [|done]. cbn [Js.receiver mbind outcome_bind].
  change (Js.set (h :: g :: Some indicator :: rest) 1 ?v)
    with (h :: v :: Some indicator :: rest).
  destruct (whileClip _ _ _ _ _ _) as [newColumn| |]; try done.
  cbn [mbind outcome_bind].
  assert (∀ lines : list (option string),
            suffix (drop 3 rest) lines →
            suffix (drop 3 rest) (h :: lines)) as Hcons
    by (intros lines; apply suffix_cons_r).
  destruct (newColumn <? 0).
  { change (delete 2%nat (h :: ?s :: Some indicator :: rest)) with (h :: s :: rest).
    cbn [mbind outcome_bind]. rewrite get_0.
    destruct h as [header|]; [|done]. cbn [Js.receiver mbind outcome_bind].
    destruct (Js.startsWith header "repl:"); intros [= <-]; cbn [List.skipn drop];
      repeat apply suffix_cons_r; apply suffix_drop. }
  destruct (newColumn <? _).
  2:{ cbn [mbind outcome_bind]. rewrite get_0.
      destruct h as [header|]; [|done]. cbn [Js.receiver mbind outcome_bind].
      destruct (Js.startsWith header "repl:"); intros [= <-]; cbn [List.skipn drop];
        repeat apply suffix_cons_r; apply suffix_drop. }
  change (Js.set (h :: ?s :: Some indicator :: rest) 2 ?v) with (h :: s :: v :: rest).
  rewrite !get_S.
  destruct rest as [|l3 [|l4 [|[restated|] rest']]]; try done.
  rewrite !get_S, get_0. cbn [Js.receiver mbind outcome_bind].
  change (Js.set (h :: ?s :: ?v :: l3 :: l4 :: Some restated :: rest') 5 ?x)
    with (h :: s :: v :: l3 :: l4 :: x :: rest').
  rewrite get_0.
  destruct h as [header|]; [|done]. cbn [Js.receiver mbind outcome_bind].
  destruct (Js.startsWith header "repl:"); intros [= <-]; cbn [List.skipn drop];
    repeat apply suffix_cons_r; done.
Qed.

Lemma frames_below_are_kept_witness :
  suffix
    (drop 6 [ Some "/x/y.js:1"; Some "const x = foo(bar);"; Some "              ^";
              Some EmptyString; Some "ReferenceError: bar is not defined";
              Some "    at Object.<anonymous> (/x/y.js:1:15)";
              Some "    at Module._compile (module.js:569:30)" ])
    [ Some "/x/y.js:1"; Some "let x = foo(bar)"; Some "            ^";
      Some EmptyString; Some "ReferenceError: bar is not defined";
      Some "    at Object.<anonymous> (/x/y.js:1:12)";
      Some "    at Module._compile (module.js:569:30)" ].
Proof.
  apply (frames_below_are_kept 23 _ "let x = foo(bar)").
  vm_compute. reflexivity.
Defined.

(** ** More on the proxy *)

(** A first read that raises with the source at hand leaves the decorated
    error in the store and the trap set. *)
Lemma get_first_raise f useSet decorate fuel proxy w error code e proxy' w' :
  trapSet proxy = false → heap w !! target proxy = Some error →
  supplied (sourceCode proxy) = Ok code →
  get f useSet decorate fuel proxy "stack" w = (Throw e, proxy', w') →
  trapSet proxy' = true
  ∧ target proxy' = target proxy
  ∧ heap w' !! target proxy = Some (decorateStackTrace useSet decorate error)
  ∧ maskRuns w' = S (maskRuns w).
Proof.
  intros Hset Herror Hcode Hget.
  destruct (get_first _ _ _ _ _ _ _ _ _ _ _ Hset Herror Hcode Hget)
    as (Hset' & Htarget & _ & Hruns & error' & Herror' & _ & Hraise).
  rewrite (Hraise e eq_refl) in Herror'. done.
Qed.

(** X15.  When the source is at hand, a buffer or a producer whose call
    returned, and the first read of [stack] raises, it is the masker that
    raised, and the trap stays set: every later read returns the stack of
    the error as decoration left it, unmasked, and no masker runs
    again. *)
Theorem reads_after_a_raise
    f useSet decorate fuel n proxy w error code e proxy' w' :
  trapSet proxy = false → heap w !! target proxy = Some error →
  supplied (sourceCode proxy) = Ok code →
  get f useSet decorate fuel proxy "stack" w = (Throw e, proxy', w') →
  reads f useSet decorate fuel n proxy' w'
  = (replicate n (Ok (Some (stack (decorateStackTrace useSet decorate error)))),
     proxy', w').
Proof.
  intros Hset Herror Hcode Hget.
  destruct (get_first_raise _ _ _ _ _ _ _ _ _ _ _ Hset Herror Hcode Hget)
    as (Hset' & Htarget & Herror' & _).
  apply reads_cached; [done|]. by rewrite Htarget.
Qed.

Lemma reads_after_a_raise_witness :
  reads "/esm/index.js" false None 5 3
    {| target := 7; sourceCode := Buffer "export default 1";
       compiledCode := None; trapSet := true |}
    {| heap := {[ 7%nat := listen_failure ]}; producerCalls := 0; maskRuns := 1 |}
  = (replicate 3 (Ok (Some (stack (decorateStackTrace false None listen_failure)))),
     {| target := 7; sourceCode := Buffer "export default 1";
        compiledCode := None; trapSet := true |},
     {| heap := {[ 7%nat := listen_failure ]}; producerCalls := 0; maskRuns := 1 |}).
Proof.
  apply (reads_after_a_raise "/esm/index.js" false None 5 3
           (maskStackTrace 7 (Buffer "export default 1") None)
           {| heap := {[ 7%nat := listen_failure ]};
              producerCalls := 0; maskRuns := 0 |}
           listen_failure "export default 1" TypeError).
  - reflexivity.
  - vm_compute. reflexivity.
  - reflexivity.
  - vm_compute. reflexivity.
Defined.

(** What a first read returns, with the source at hand. *)
Lemma get_first_value f useSet decorate fuel proxy w error code :
  trapSet proxy = false → heap w !! target proxy = Some error →
  supplied (sourceCode proxy) = Ok code →
  (get f useSet decorate fuel proxy "stack" w).1.1
  = let error' := decorateStackTrace useSet decorate error in
    match (if isParseError error'
           then Ok (maskParserStack f (stack error') code)
           else maskStack f fuel (stack error') code (compiledCode proxy)) with
    | Ok text => Ok (Some text)
    | Throw e => Throw e
    | OutOfFuel => OutOfFuel
    end.
Proof.
  intros Hset Herror Hcode. unfold get. rewrite Herror, Hset, Hcode.
  cbn [String.eqb Ascii.eqb Bool.eqb andb negb]. cbv zeta.
  cbn [compiledCode].
  destruct (if isParseError (decorateStackTrace useSet decorate error)
            then _ else _); done.
Qed.

(** X16.  The trap is set per proxy and not per error: a second proxy
    over the same error, read after the first, runs a masker again, and
    on the text that the first read left in the error.  The sources of
    both proxies are at hand: buffers, or producers whose calls return. *)
Theorem second_proxy_masks_again
    f useSet decorate fuel proxy1 proxy2 w error code1 code2 :
  trapSet proxy1 = false → trapSet proxy2 = false →
  target proxy2 = target proxy1 →
  heap w !! target proxy1 = Some error →
  supplied (sourceCode proxy1) = Ok code1 →
  supplied (sourceCode proxy2) = Ok code2 →
  let '(r1, _, w1) := get f useSet decorate fuel proxy1 "stack" w in
  let '(r2, _, w2) := get f useSet decorate fuel proxy2 "stack" w1 in
  maskRuns w2 = S (S (maskRuns w))
  ∧ ∀ text1,
      r1 = Ok (Some text1) →
      let error2 :=
        decorateStackTrace useSet decorate
          (set_stack (decorateStackTrace useSet decorate error) text1) in
      r2 = match (if isParseError error2
                  then Ok (maskParserStack f (stack error2) code2)
                  else maskStack f fuel (stack error2) code2 (compiledCode proxy2)) with
           | Ok text => Ok (Some text)
           | Throw e => Throw e
           | OutOfFuel => OutOfFuel
           end.
Proof.
  intros Hset1 Hset2 Htarget Herror Hcode1 Hcode2.
  destruct (get f useSet decorate fuel proxy1 "stack" w) as [[r1 proxy1'] w1] eqn:Hget1.
  destruct (get_first _ _ _ _ _ _ _ _ _ _ _ Hset1 Herror Hcode1 Hget1)
    as (_ & _ & _ & Hruns1 & error1 & Herror1 & Htext1 & _).
  rewrite <- Htarget in Herror1.
  pose proof (get_first_value f useSet decorate fuel proxy2 w1 error1 code2
                Hset2 Herror1 Hcode2)
    as Hvalue.
  destruct (get f useSet decorate fuel proxy2 "stack" w1) as [[r2 proxy2'] w2] eqn:Hget2.
  destruct (get_first _ _ _ _ _ _ _ _ _ _ _ Hset2 Herror1 Hcode2 Hget2)
    as (_ & _ & _ & Hruns2 & _).
  split; [by rewrite Hruns2, Hruns1|].
  intros text1 Hr1. rewrite (Htext1 text1 Hr1) in Hvalue. exact Hvalue.
Qed.

Lemma second_proxy_masks_again_witness :
  let '(r1, _, w1) :=
    get "/esm/index.js" true None 0 parse_failure_proxy "stack" parse_failure_world in
  let '(r2, _, w2) :=
    get "/esm/index.js" true None 0 parse_failure_proxy "stack" w1 in
  maskRuns w2 = S (S (maskRuns parse_failure_world))
  ∧ ∀ text1,
      r1 = Ok (Some text1) →
      let error2 :=
        decorateStackTrace true None
          (set_stack (decorateStackTrace true None parse_failure) text1) in
      r2 = match (if isParseError error2
                  then Ok (maskParserStack "/esm/index.js" (stack error2)
                             (text ["a"; "b"; "c"; "d"; "e"]))
                  else maskStack "/esm/index.js" 0 (stack error2)
                         (text ["a"; "b"; "c"; "d"; "e"])
                         (compiledCode parse_failure_proxy)) with
           | Ok text => Ok (Some text)
           | Throw e => Throw e
           | OutOfFuel => OutOfFuel
           end.
Proof.
  apply (second_proxy_masks_again "/esm/index.js" true None 0
           parse_failure_proxy parse_failure_proxy parse_failure_world
           parse_failure
           (text ["a"; "b"; "c"; "d"; "e"]) (text ["a"; "b"; "c"; "d"; "e"]));
    reflexivity.
Defined.

(** ** The matcher on runs of characters *)

Lemma repeat_atom_eq {A} greedy atom min s p (k : string → nat → option A) :
  repeat_atom greedy atom min None s p k
  = let more :=
      match s with
      | String c s' =>
          if atom c then repeat_atom greedy atom (Nat.pred min) None s' (S p) k
          else None
      | EmptyString => None
      end in
    let stop := match min with O => k s p | S _ => None end in
    if greedy
    then match more with Some x => Some x | None => stop end
    else match stop with Some x => Some x | None => more end.
Proof. destruct s, greedy, min; reflexivity. Qed.

(** A greedy quantifier takes the whole run when the continuation
    accepts after it. *)
Lemma repeat_greedy_whole {A} atom s (k : string → nat → option A) x :
  ∀ min p,
    (min ≤ run atom s)%nat →
    k (Js.drop (run atom s) s) (p + run atom s)%nat = Some x →
    repeat_atom true atom min None s p k = Some x.
Proof.
  induction s as [|c s IH]; intros min p Hmin Hk; rewrite repeat_atom_eq; cbv zeta.
  - cbn [run] in *. destruct min; [|lia]. by rewrite Nat.add_0_r in Hk.
  - cbn [run] in *. destruct (atom c).
    + rewrite (IH (Nat.pred min) (S p)); [done|lia|].
      cbn [Js.drop] in Hk. by replace (S p + run atom s)%nat with (p + S (run atom s))%nat by lia.
    + destruct min; [|lia]. by rewrite Nat.add_0_r in Hk.
Qed.

(** It fails when the continuation refuses after every part of the run
    that is long enough. *)
Lemma repeat_greedy_none {A} atom s (k : string → nat → option A) :
  ∀ min p,
    (∀ j, (min ≤ j ≤ run atom s)%nat → k (Js.drop j s) (p + j)%nat = None) →
    repeat_atom true atom min None s p k = None.
Proof.
  induction s as [|c s IH]; intros min p Hk; rewrite repeat_atom_eq; cbv zeta.
  - destruct min; [|done]. specialize (Hk O). cbn [run Js.drop] in Hk.
    rewrite Nat.add_0_r in Hk. apply Hk. lia.
  - cbn [run] in Hk. destruct (atom c).
    + rewrite (IH (Nat.pred min) (S p)).
      * destruct min; [|done]. specialize (Hk O). cbn [Js.drop] in Hk.
        rewrite Nat.add_0_r in Hk. apply Hk. lia.
      * intros j Hj. specialize (Hk (S j)). cbn [Js.drop] in Hk.
        replace (S p + j)%nat with (p + S j)%nat by lia. apply Hk. lia.
    + destruct min; [|done]. specialize (Hk O). cbn [Js.drop] in Hk.
      rewrite Nat.add_0_r in Hk. apply Hk. lia.
Qed.

(** A lazy quantifier stops where the continuation first accepts. *)
Lemma repeat_lazy_stop {A} atom s p (k : string → nat → option A) x :
  k s p = Some x → repeat_atom false atom 0 None s p k = Some x.
Proof. intros Hk. rewrite repeat_atom_eq. cbv zeta. by rewrite Hk. Qed.

(** It moves over the characters after which the continuation refuses. *)
Lemma repeat_lazy_skip {A} atom a r (k : string → nat → option A) :
  ∀ p,
    every atom a = true →
    (∀ j, (j < String.length a)%nat → k (Js.drop j (a +:+ r)) (p + j)%nat = None) →
    repeat_atom false atom 0 None (a +:+ r) p k
    = repeat_atom false atom 0 None r (p + String.length a)%nat k.
Proof.
  induction a as [|c a IH]; intros p Hall Hk.
  - cbn [String.append String.length]. by rewrite Nat.add_0_r.
  - cbn [every] in Hall. apply andb_prop in Hall as [Hc Hall].
    change (String c a +:+ r) with (String c (a +:+ r)).
    rewrite repeat_atom_eq. cbv zeta.
    pose proof (Hk O) as H0. cbn [Js.drop] in H0. rewrite Nat.add_0_r in H0.
    change (String c a +:+ r) with (String c (a +:+ r)) in H0.
    rewrite H0 by (cbn [String.length]; lia). rewrite Hc.
    cbn [Nat.pred]. rewrite IH; [|done|].
    + f_equal. cbn [String.length]. lia.
    + intros j Hj. specialize (Hk (S j)). cbn [Js.drop String.length] in Hk.
      replace (S p + j)%nat with (p + S j)%nat by lia. apply Hk. lia.
Qed.

(** [exec] moves over the start positions where the match fails. *)
Lemma exec_from_skip r a s :
  ∀ p,
    (∀ j, (j < String.length a)%nat →
       rmatch r (MState (Js.drop j (a +:+ s)) (p + j) []) Some = None) →
    exec_from r (a +:+ s) p = exec_from r s (p + String.length a).
Proof.
  induction a as [|c a IH]; intros p Hfail.
  - cbn [String.append String.length]. by rewrite Nat.add_0_r.
  - change (String c a +:+ s) with (String c (a +:+ s)) in *.
    cbn [exec_from]. pose proof (Hfail O) as H0. cbn [Js.drop] in H0.
    rewrite Nat.add_0_r in H0. rewrite H0 by (cbn [String.length]; lia).
    rewrite IH.
    + f_equal. cbn [String.length]. lia.
    + intros j Hj. specialize (Hfail (S j)). cbn [Js.drop String.length] in Hfail.
      replace (S p + j)%nat with (p + S j)%nat by lia. apply Hfail. lia.
Qed.

Lemma run_drop p s j :
  (j < run p s)%nat → ∃ c r, Js.drop j s = String c r ∧ p c = true.
Proof.
  revert j. induction s as [|c s IH]; intros j Hj; cbn [run] in Hj; [lia|].
  destruct (p c) eqn:Hc; [|lia].
  destruct j as [|j]; [by exists c, s|]. cbn [Js.drop]. apply IH. lia.
Qed.

Lemma take_run_every p s : every p (Js.take (run p s) s) = true.
Proof.
  induction s as [|c s IH]; [done|]. cbn [run].
  destruct (p c) eqn:Hc; [|done]. cbn [Js.take every]. by rewrite Hc, IH.
Qed.

Lemma take_run_length p s : String.length (Js.take (run p s) s) = run p s.
Proof.
  induction s as [|c s IH]; [done|]. cbn [run].
  destruct (p c); [|done]. cbn [Js.take String.length]. by rewrite IH.
Qed.

(** *** [lineNumRegExp] *)

(** The match of [/:(\d+)/] at one start position. *)
Lemma lineNumRegExp_at s p :
  rmatch lineNumRegExp (MState s p []) Some
  = match s with
    | String c s' =>
        if Ascii.eqb c ":" && (0 <? run digit s')%nat
        then Some (MState (Js.drop (run digit s') s') (S p + run digit s')
                     [(1%nat, Js.take (run digit s') s')])
        else None
    | EmptyString => None
    end.
Proof.
  unfold lineNumRegExp, plus. cbn [rmatch rest pos caps].
  destruct s as [|c s]; [done|].
  rewrite (Ascii.eqb_sym ":" c). destruct (Ascii.eqb c ":"); [|done].
  cbn [andb]. destruct (Nat.ltb_spec 0 (run digit s)) as [Hrun|Hrun].
  - erewrite repeat_greedy_whole; [reflexivity|lia|].
    by replace (S p + run digit s - S p)%nat with (run digit s) by lia.
  - apply repeat_greedy_none. intros j Hj. lia.
Qed.

Lemma exec_from_lineNumRegExp s :
  ∀ p,
    match exec_from lineNumRegExp s p with
    | Some m => group m 1 = location_digits s ∧ is_Some (location_digits s)
    | None => location_digits s = None
    end.
Proof.
  induction s as [|c s IH]; intros p; cbn [exec_from]; rewrite lineNumRegExp_at.
  - done.
  - cbn [location_digits].
    destruct (Ascii.eqb c ":" && (0 <? run digit s)%nat); [|apply IH].
    cbn [caps]. split; [done|eauto].
Qed.

Lemma digits_value_every s :
  ∀ acc, every digit s = true → 0 ≤ acc →
    ∃ z, Js.digits_value acc s = Some z ∧ 0 ≤ z.
Proof.
  induction s as [|c s IH]; intros acc Hall Hacc; cbn [Js.digits_value].
  - eauto.
  - cbn [every] in Hall. apply andb_prop in Hall as [Hc Hs].
    unfold digit in Hc. rewrite Hc. apply IH; [done|lia].
Qed.

Lemma location_digits_every s d :
  location_digits s = Some d → every digit d = true ∧ d ≠ EmptyString.
Proof.
  induction s as [|c s IH]; cbn [location_digits]; [done|].
  destruct (Ascii.eqb c ":"); cbn [andb]; [|done].
  destruct (Nat.ltb_spec 0 (run digit s)) as [Hrun|Hrun]; [|done].
  intros [= <-]. split; [apply take_run_every|].
  intros Hempty. pose proof (take_run_length digit s) as Hlen.
  rewrite Hempty in Hlen. cbn in Hlen. lia.
Qed.

(** *** [columnNumRegExp] *)

(** The match of [/(\d+)(?=\)|$)/] at one start position. *)
Lemma columnNumRegExp_at s p :
  rmatch columnNumRegExp (MState s p []) Some
  = if (0 <? run digit s)%nat && closes (Js.drop (run digit s) s)
    then Some (MState (Js.drop (run digit s) s) (p + run digit s)
                 [(1%nat, Js.take (run digit s) s)])
    else None.
Proof.
  unfold columnNumRegExp, plus. cbn [rmatch rest pos caps].
  set (k := λ (s' : string) (p' : nat), _).
  assert (∀ s' p',
            k s' p' = if closes s'
                      then Some (MState s' p' [(1%nat, Js.take (p' - p) s)])
                      else None) as Hk.
  { intros s' p'. unfold k. cbn [rest pos caps]. destruct s' as [|c s']; [done|].
    cbn [closes]. rewrite (Ascii.eqb_sym ")" c). by destruct (Ascii.eqb c ")"). }
  clearbody k.
  destruct (Nat.ltb_spec 0 (run digit s)) as [Hrun|Hrun]; cbn [andb].
  - destruct (closes (Js.drop (run digit s) s)) eqn:Hcloses.
    + erewrite repeat_greedy_whole; [reflexivity|lia|].
      rewrite Hk, Hcloses.
      by replace (p + run digit s - p)%nat with (run digit s) by lia.
    + apply repeat_greedy_none. intros j Hj. rewrite Hk.
      destruct (decide (j = run digit s)) as [->|Hne]; [by rewrite Hcloses|].
      destruct (run_drop digit s j) as (c & r & -> & Hc); [lia|].
      cbn [closes]. destruct (Ascii.eqb_spec c ")") as [->|]; [done|done].
  - apply repeat_greedy_none. intros j Hj. lia.
Qed.

Lemma exec_from_columnNumRegExp s :
  ∀ p,
    exec_from columnNumRegExp s p
    = (λ '(i, d), MatchResult i d [(1%nat, d)]) <$> column_digits s p.
Proof.
  induction s as [|c s IH]; intros p; cbn [exec_from]; rewrite columnNumRegExp_at.
  - reflexivity.
  - cbn [column_digits].
    destruct ((0 <? run digit (String c s))%nat && _); [|apply IH].
    cbn [pos caps fmap option_fmap option_map].
    by replace (p + run digit (String c s) - p)%nat
      with (run digit (String c s)) by lia.
Qed.

(** ** Strings put together *)

Lemma append_cons x (a b : string) : String x a +:+ b = String x (a +:+ b).
Proof. done. Qed.

Lemma append_empty (b : string) : EmptyString +:+ b = b.
Proof. done. Qed.

Lemma append_assoc (a b c : string) : (a +:+ b) +:+ c = a +:+ (b +:+ c).
Proof. induction a as [|x a IH]; [done|]. rewrite !append_cons. by rewrite IH. Qed.

Lemma every_append p a b : every p (a +:+ b) = every p a && every p b.
Proof.
  induction a as [|x a IH]; [done|]. rewrite append_cons. cbn [every].
  by rewrite IH, andb_assoc.
Qed.

Lemma every_impl (p q : ascii → bool) s :
  (∀ c, p c = true → q c = true) → every p s = true → every q s = true.
Proof.
  intros Hpq. induction s as [|c s IH]; [done|]. cbn [every].
  intros [Hc Hs]%andb_prop. by rewrite (Hpq c Hc), IH.
Qed.

Lemma drop_append_char p a r j :
  every p a = true → (j < String.length a)%nat →
  ∃ c t, Js.drop j (a +:+ r) = String c t ∧ p c = true.
Proof.
  revert j. induction a as [|x a IH]; intros j Hall Hj; cbn [String.length] in Hj;
    [lia|].
  cbn [every] in Hall. apply andb_prop in Hall as [Hx Ha].
  destruct j as [|j]; [by exists x, (a +:+ r)|].
  rewrite append_cons. cbn [Js.drop]. apply IH; [done|lia].
Qed.

Lemma drop_append a r : Js.drop (String.length a) (a +:+ r) = r.
Proof. induction a as [|x a IH]; [done|]. exact IH. Qed.

Lemma take_append a r : Js.take (String.length a) (a +:+ r) = a.
Proof.
  induction a as [|x a IH]; [by destruct r|].
  rewrite append_cons. cbn [String.length Js.take]. by rewrite IH.
Qed.

Lemma run_append p a r :
  every p a = true → run p (a +:+ r) = (String.length a + run p r)%nat.
Proof.
  induction a as [|x a IH]; [done|]. rewrite append_cons.
  cbn [every run String.length].
  intros [Hx Ha]%andb_prop. by rewrite Hx, IH.
Qed.

Lemma digit_is_plain_but_colon c :
  digit c = true → Ascii.eqb c ":" = false ∧ Ascii.eqb c ")" = false.
Proof.
  intros Hc. split.
  - destruct (Ascii.eqb_spec c ":") as [->|]; [done|done].
  - destruct (Ascii.eqb_spec c ")") as [->|]; [done|done].
Qed.

(** *** The three expressions on a frame line *)

Lemma location_digits_skip a r :
  every (λ c, negb (Ascii.eqb c ":")) a = true →
  location_digits (a +:+ r) = location_digits r.
Proof.
  induction a as [|x a IH]; [done|]. rewrite append_cons.
  cbn [every location_digits].
  intros [Hx Ha]%andb_prop. apply negb_true_iff in Hx. rewrite Hx. by apply IH.
Qed.

Lemma location_digits_here line r :
  every digit line = true → line ≠ EmptyString → run digit r = O →
  location_digits (":" +:+ line +:+ r) = Some line.
Proof.
  intros Hline Hne Hr.
  change (":" +:+ line +:+ r) with (String ":" (line +:+ r)).
  cbn [location_digits]. rewrite run_append by done. rewrite Hr, Nat.add_0_r.
  change (Ascii.eqb ":" ":") with true. cbn [andb].
  destruct line as [|c line]; [done|]. cbn [String.length Nat.ltb Nat.leb].
  change (S (String.length line)) with (String.length (String c line)).
  by rewrite take_append.
Qed.

(** No column is found inside a text without a closing parenthesis that
    a character other than a digit or such a parenthesis ends. *)
Lemma closes_after_run a c0 r0 :
  every (λ c, negb (Ascii.eqb c ")")) a = true →
  digit c0 = false → Ascii.eqb c0 ")" = false →
  closes (Js.drop (run digit (a +:+ String c0 r0)) (a +:+ String c0 r0)) = false.
Proof.
  intros Ha Hd Hc. induction a as [|x a IH].
  - rewrite append_empty. cbn [run]. by rewrite Hd.
  - cbn [every] in Ha. apply andb_prop in Ha as [Hx Ha].
    apply negb_true_iff in Hx. rewrite append_cons. cbn [run].
    destruct (digit x); [cbn [Js.drop]; by apply IH|done].
Qed.

Lemma column_digits_skip a c0 r0 :
  ∀ p,
    every (λ c, negb (Ascii.eqb c ")")) a = true →
    digit c0 = false → Ascii.eqb c0 ")" = false →
    column_digits (a +:+ String c0 r0) p
    = column_digits r0 (S (p + String.length a)).
Proof.
  induction a as [|x a IH]; intros p Ha Hd Hc.
  - rewrite append_empty. cbn [String.length column_digits run]. rewrite Hd.
    cbn [Nat.ltb Nat.leb andb]. by rewrite Nat.add_0_r.
  - pose proof (closes_after_run (String x a) c0 r0 Ha Hd Hc) as Hcloses.
    cbn [every] in Ha. apply andb_prop in Ha as [Hx Ha].
    change (String x a +:+ String c0 r0) with (String x (a +:+ String c0 r0)) in *.
    cbn [column_digits]. rewrite Hcloses, andb_false_r.
    rewrite IH by done. f_equal. cbn [String.length]. lia.
Qed.

Lemma column_digits_here column tail p :
  every digit column = true → column ≠ EmptyString →
  tail = ")" ∨ tail = EmptyString →
  column_digits (column +:+ tail) p = Some (p, column).
Proof.
  intros Hcolumn Hne Htail.
  assert (run digit (column +:+ tail) = String.length column) as Hrun.
  { rewrite run_append by done.
    destruct Htail as [-> | ->];
      [change (run digit ")") with O|change (run digit EmptyString) with O]; lia. }
  destruct column as [|c column]; [done|].
  change (String c column +:+ tail) with (String c (column +:+ tail)) in *.
  cbn [column_digits]. rewrite Hrun.
  change (String c (column +:+ tail)) with (String c column +:+ tail).
  rewrite drop_append, take_append.
  cbn [String.length Nat.ltb Nat.leb andb].
  by destruct Htail as [-> | ->].
Qed.

Lemma run_digits_tail column tail :
  every digit column = true → tail = ")" ∨ tail = EmptyString →
  run digit (column +:+ tail) = String.length column.
Proof.
  intros Hcolumn Htail. rewrite run_append by done.
  destruct Htail as [-> | ->];
    [change (run digit ")") with O|change (run digit EmptyString) with O]; lia.
Qed.

Lemma plain_dot body : every plain body = true → every dot body = true.
Proof.
  apply every_impl. intros c. unfold plain.
  by intros [[? _]%andb_prop _]%andb_prop.
Qed.

Lemma plain_no_colon body :
  every plain body = true → every (λ c, negb (Ascii.eqb c ":")) body = true.
Proof.
  apply every_impl. intros c. unfold plain.
  by intros [[_ ?]%andb_prop _]%andb_prop.
Qed.

Lemma plain_no_parenthesis body :
  every plain body = true → every (λ c, negb (Ascii.eqb c ")")) body = true.
Proof.
  apply every_impl. intros c. unfold plain.
  by intros [_ ?]%andb_prop.
Qed.

Lemma digits_no_parenthesis line :
  every digit line = true → every (λ c, negb (Ascii.eqb c ")")) line = true.
Proof.
  apply every_impl. intros c Hc.
  by rewrite (proj2 (digit_is_plain_but_colon c Hc)).
Qed.

(** On a frame line the first expression reads the line number. *)
Lemma location_digits_frame body line column tail :
  every plain body = true →
  every digit line = true → line ≠ EmptyString →
  location_digits (frame_line body line column tail) = Some line.
Proof.
  intros Hbody Hline Hne. unfold frame_line.
  change ("    at " +:+ body +:+ ?r) with ("    at " +:+ (body +:+ r)).
  rewrite (location_digits_skip "    at ") by reflexivity.
  rewrite location_digits_skip by by apply plain_no_colon.
  by apply location_digits_here.
Qed.

(** The second one reads the column, at the index where it starts. *)
Lemma column_digits_frame body line column tail :
  every plain body = true →
  every digit line = true →
  every digit column = true → column ≠ EmptyString →
  tail = ")" ∨ tail = EmptyString →
  column_digits (frame_line body line column tail) 0
  = Some (String.length ("    at " +:+ body +:+ ":" +:+ line +:+ ":"), column).
Proof.
  intros Hbody Hline Hcolumn Hne Htail. unfold frame_line.
  replace ("    at " +:+ body +:+ ":" +:+ line +:+ ":" +:+ column +:+ tail)
    with (("    at " +:+ body +:+ ":" +:+ line) +:+ String ":" (column +:+ tail))
    by (by rewrite !append_assoc).
  rewrite column_digits_skip; [| |done|done].
  - rewrite column_digits_here by done. f_equal. f_equal.
    replace ("    at " +:+ body +:+ ":" +:+ line +:+ ":")
      with (("    at " +:+ body +:+ ":" +:+ line) +:+ ":")
      by (by rewrite !append_assoc).
    generalize ("    at " +:+ body +:+ ":" +:+ line). intros a.
    induction a as [|x a IH]; [done|].
    rewrite append_cons. cbn [String.length]. lia.
  - rewrite !every_append. rewrite (plain_no_parenthesis body) by done.
    by rewrite (digits_no_parenthesis line) by done.
Qed.

(** *** [filePathRegExp] *)

Lemma rmatch_alt_first {A} r1 r2 r st (k : mstate → option A) x :
  rmatch r1 st (λ st', rmatch r st' k) = Some x →
  rmatch (Seq (Alt r1 r2) r) st k = Some x.
Proof. intros Hfirst. cbn [rmatch]. by rewrite Hfirst. Qed.

Lemma rmatch_group_lazy {A} i atom r st (k : mstate → option A) :
  rmatch (Seq (Group i (star_lazy atom)) r) st k
  = repeat_atom false atom 0 None (rest st) (pos st)
      (λ s' p',
         rmatch r (MState s' p'
                     ((i, Js.take (p' - pos st) (rest st)) :: caps st)) k).
Proof. reflexivity. Qed.

Lemma rmatch_lookahead {A} r st (k : mstate → option A) :
  rmatch (Lookahead r) st k
  = match rmatch r st Some with
    | Some st' => k (MState (rest st) (pos st) (caps st'))
    | None => None
    end.
Proof. reflexivity. Qed.

(** The start of a frame, [^ {4}at ]. *)
Lemma frame_start {A} r (k : mstate → option A) :
  rmatch (Seq Bol (Seq (exactly 4 (lit " ")) (literal "at" (Char " "))))
    (MState ("    at " +:+ r) 0 []) k
  = k (MState r 7 []).
Proof. cbv. by destruct (k _). Qed.

(** The location that ends a frame, [:\d+:\d+\)?$], is not ahead of a
    character other than a colon. *)
Lemma location_not_ahead c t p cs :
  Ascii.eqb c ":" = false →
  rmatch (Seq (Char ":") (Seq (plus digit) (Seq (Char ":") (Seq (plus digit)
           (Seq (Optional (Char ")")) Eol)))))
    (MState (String c t) p cs) Some
  = None.
Proof.
  intros Hc. cbn [rmatch rest]. by rewrite (Ascii.eqb_sym ":" c), Hc.
Qed.

(** It is ahead of a line, a column and the end of the frame. *)
Lemma location_ahead line column tail p cs :
  every digit line = true → line ≠ EmptyString →
  every digit column = true → column ≠ EmptyString →
  tail = ")" ∨ tail = EmptyString →
  ∃ st,
    rmatch (Seq (Char ":") (Seq (plus digit) (Seq (Char ":") (Seq (plus digit)
             (Seq (Optional (Char ")")) Eol)))))
      (MState (":" +:+ line +:+ ":" +:+ column +:+ tail) p cs) Some
    = Some st ∧ caps st = cs.
Proof.
  intros Hline Hl Hcolumn Hc Htail.
  assert (run digit (line +:+ ":" +:+ column +:+ tail) = String.length line)
    as Hrun1.
  { rewrite run_append by done. change (run digit (":" +:+ _)) with O. lia. }
  pose proof (run_digits_tail column tail Hcolumn Htail) as Hrun2.
  assert (1 ≤ String.length line)%nat as Hlen1
    by (destruct line; [done|cbn [String.length]; lia]).
  assert (1 ≤ String.length column)%nat as Hlen2
    by (destruct column; [done|cbn [String.length]; lia]).
  change (":" +:+ line +:+ ":" +:+ column +:+ tail)
    with (String ":" (line +:+ ":" +:+ column +:+ tail)).
  unfold plus. cbn [rmatch rest pos caps].
  change (Ascii.eqb ":" ":") with true. cbv iota.
  destruct Htail as [-> | ->].
  - eexists. split.
    + apply repeat_greedy_whole; [lia|]. rewrite Hrun1, drop_append.
      change (":" +:+ column +:+ ")") with (String ":" (column +:+ ")")).
      cbv iota. change (Ascii.eqb ":" ":") with true. cbv iota.
      apply repeat_greedy_whole; [lia|]. rewrite Hrun2, drop_append.
      reflexivity.
    + reflexivity.
  - eexists. split.
    + apply repeat_greedy_whole; [lia|]. rewrite Hrun1, drop_append.
      change (":" +:+ column +:+ EmptyString)
        with (String ":" (column +:+ EmptyString)).
      cbv iota. change (Ascii.eqb ":" ":") with true. cbv iota.
      apply repeat_greedy_whole; [lia|]. rewrite Hrun2, drop_append.
      reflexivity.
    + reflexivity.
Qed.

(** On a frame line the third expression captures all that stands
    between "    at " and the location. *)
Lemma filePathRegExp_frame body line column tail :
  every plain body = true →
  every digit line = true → line ≠ EmptyString →
  every digit column = true → column ≠ EmptyString →
  tail = ")" ∨ tail = EmptyString →
  ∃ m, exec filePathRegExp (frame_line body line column tail) = Some m
       ∧ match_index m = O
       ∧ group m 1 = Some body.
Proof.
  intros Hbody Hline Hl Hcolumn Hc Htail.
  assert (rmatch filePathRegExp (MState (frame_line body line column tail) 0 []) Some
          = Some (MState (":" +:+ line +:+ ":" +:+ column +:+ tail)
                    (7 + String.length body) [(1%nat, body)])) as Hmatch.
  { unfold filePathRegExp, frame_line. apply rmatch_alt_first.
    rewrite frame_start, rmatch_group_lazy. cbn [rest pos caps].
    rewrite repeat_lazy_skip; [|by apply plain_dot|].
    - apply repeat_lazy_stop. rewrite rmatch_lookahead.
      destruct (location_ahead line column tail (7 + String.length body)
                  [(1%nat, Js.take (7 + String.length body - 7)
                             (body +:+ ":" +:+ line +:+ ":" +:+ column +:+ tail))])
        as (st & -> & ->); [done..|].
      cbn [rest pos]. do 3 f_equal.
      replace (7 + String.length body - 7)%nat with (String.length body) by lia.
      by rewrite take_append.
    - intros j Hj. rewrite rmatch_lookahead.
      destruct (drop_append_char plain body
                  (":" +:+ line +:+ ":" +:+ column +:+ tail) j Hbody Hj)
        as (c & t & -> & Hplain).
      rewrite location_not_ahead; [done|].
      unfold plain in Hplain. apply andb_prop in Hplain as [[_ Hcolon]%andb_prop _].
      by apply negb_true_iff in Hcolon. }
  unfold exec. unfold frame_line in *.
  change ("    at " +:+ body +:+ ?r) with (String " " ("   at " +:+ body +:+ r)) in *.
  cbn [exec_from]. rewrite Hmatch. eexists. split; [reflexivity|]. done.
Qed.

(** No start of a path: the text does not begin with "    at ". *)
Lemma frame_start_fails {A} s (k : mstate → option A) :
  String.prefix "    at " s = false →
  rmatch (Seq Bol (Seq (exactly 4 (lit " ")) (literal "at" (Char " "))))
    (MState s 0 []) k
  = None.
Proof.
  intros Hprefix.
  do 7 (destruct s as [|c s]; [reflexivity|];
        destruct c as [[] [] [] [] [] [] [] []]; try reflexivity).
  by destruct s.
Qed.

Lemma filePathRegExp_no_start s p :
  (p = O → String.prefix "    at " s = false) →
  every (λ c, negb (Ascii.eqb c "(")) s = true →
  rmatch filePathRegExp (MState s p []) Some = None.
Proof.
  intros Hprefix Hparen. unfold filePathRegExp.
  change (rmatch (Seq (Alt ?a ?b) ?r) ?st ?k)
    with (match rmatch a st (λ st', rmatch r st' k) with
          | Some x => Some x
          | None => rmatch b st (λ st', rmatch r st' k)
          end).
  assert (∀ A (k : mstate → option A),
            rmatch (Seq Bol (Seq (exactly 4 (lit " ")) (literal "at" (Char " "))))
              (MState s p []) k = None) as ->.
  { intros A k. destruct p as [|p]; [by apply frame_start_fails, Hprefix|done]. }
  cbn [rmatch rest]. destruct s as [|c s]; [done|].
  cbn [every] in Hparen. apply andb_prop in Hparen as [Hc _].
  apply negb_true_iff in Hc. by rewrite (Ascii.eqb_sym "(" c), Hc.
Qed.

Lemma exec_from_filePathRegExp_none s :
  ∀ p,
    (p = O → String.prefix "    at " s = false) →
    every (λ c, negb (Ascii.eqb c "(")) s = true →
    exec_from filePathRegExp s p = None.
Proof.
  induction s as [|c s IH]; intros p Hprefix Hparen; cbn [exec_from];
    rewrite filePathRegExp_no_start by done; [done|].
  cbn [every] in Hparen. apply andb_prop in Hparen as [_ Hparen].
  by apply IH.
Qed.

(** ** Numbers written and read *)

Lemma digits_value_acc d :
  ∀ acc,
    Js.digits_value (Z.pos acc) (NilEmpty.string_of_uint d)
    = Some (Z.pos (Pos.of_uint_acc d acc)).
Proof.
  induction d as [|d IH|d IH|d IH|d IH|d IH|d IH|d IH|d IH|d IH|d IH];
    intros acc; [done|..];
    cbn [NilEmpty.string_of_uint Js.digits_value Pos.of_uint_acc];
    match goal with
    | |- context [Js.is_digit ?c] => change (Js.is_digit c) with true
    end; cbv iota;
    match goal with
    | |- context [Z.of_nat ?n] =>
        let v := eval vm_compute in (Z.of_nat n) in change (Z.of_nat n) with v
    end;
    rewrite <- IH; f_equal; lia.
Qed.

Lemma digits_value_uint d :
  Js.digits_value 0 (NilEmpty.string_of_uint d) = Some (Z.of_uint d).
Proof.
  induction d as [|d IH|d IH|d IH|d IH|d IH|d IH|d IH|d IH|d IH|d IH];
    [done|exact IH|..]; exact (digits_value_acc d _).
Qed.

(** The decimal text of a natural number reads as that number. *)
Lemma NumberToString_digits z :
  0 ≤ z → Js.digits_value 0 (Js.NumberToString (Js.Int z)) = Some z.
Proof.
  intros Hz. destruct z as [|p|p]; [done| |lia].
  pose proof (DecimalZ.of_to (Z.pos p)) as Hp.
  unfold Js.NumberToString. cbn [Z.to_int Z.of_int NilZero.string_of_int] in *.
  destruct (Pos.to_uint p) as [|d|d|d|d|d|d|d|d|d|d] eqn:Hd;
    [done|..]; rewrite <- Hp; apply digits_value_uint.
Qed.

Lemma digits_value_digits s :
  ∀ acc z, Js.digits_value acc s = Some z → every digit s = true.
Proof.
  induction s as [|c s IH]; intros acc z; cbn [Js.digits_value every]; [done|].
  unfold digit at 1. destruct (Js.is_digit c); [|done]. apply IH.
Qed.

Lemma NumberToString_nonempty z :
  0 ≤ z → Js.NumberToString (Js.Int z) ≠ EmptyString.
Proof.
  intros Hz Hempty. pose proof (NumberToString_digits z Hz) as Hdigits.
  rewrite Hempty in Hdigits. cbn [Js.digits_value] in Hdigits.
  assert (z = 0) as -> by congruence. done.
Qed.

Lemma append_nil (a : string) : a +:+ EmptyString = a.
Proof. induction a as [|x a IH]; [done|]. by rewrite append_cons, IH. Qed.

Lemma append_length (a b : string) :
  String.length (a +:+ b) = (String.length a + String.length b)%nat.
Proof.
  induction a as [|x a IH]; [done|]. rewrite append_cons.
  cbn [String.length]. by rewrite IH.
Qed.

(** ** The line number *)

Lemma exec_lineNumRegExp_digits s locMatch :
  exec lineNumRegExp s = Some locMatch →
  ∃ d, group locMatch 1 = Some d ∧ location_digits s = Some d
       ∧ every digit d = true ∧ d ≠ EmptyString.
Proof.
  intros Hexec. pose proof (exec_from_lineNumRegExp s 0) as Hs.
  unfold exec in Hexec. rewrite Hexec in Hs. destruct Hs as [Hgroup [d Hd]].
  exists d. rewrite Hgroup. split_and!; [done|done|by eapply location_digits_every..].
Qed.

Lemma exec_lineNumRegExp_located s d :
  location_digits s = Some d →
  ∃ locMatch, exec lineNumRegExp s = Some locMatch ∧ group locMatch 1 = Some d.
Proof.
  intros Hd. pose proof (exec_from_lineNumRegExp s 0) as Hs. unfold exec.
  destruct (exec_from lineNumRegExp s 0) as [locMatch|]; [|congruence].
  exists locMatch. split; [done|]. destruct Hs as [-> _]. done.
Qed.

Lemma digits_value_bound s :
  ∀ acc, every digit s = true → 0 ≤ acc →
    ∃ z, Js.digits_value acc s = Some z
         ∧ 0 ≤ z < (acc + 1) * 10 ^ Z.of_nat (String.length s).
Proof.
  induction s as [|c s IH]; intros acc Hall Hacc; cbn [Js.digits_value].
  - exists acc. split; [done|]. cbn [String.length]. lia.
  - cbn [every] in Hall. apply andb_prop in Hall as [Hc Hs].
    unfold digit in Hc. rewrite Hc.
    assert (0 ≤ Z.of_nat (Ascii.nat_of_ascii c - 48) ≤ 9) as Hdigit.
    { unfold Js.is_digit in Hc. apply andb_prop in Hc as [_ Hc%Nat.leb_le]. lia. }
    destruct (IH (10 * acc + Z.of_nat (Ascii.nat_of_ascii c - 48)) Hs)
      as (z & Hz & Hz0 & Hz1); [lia|].
    exists z. split; [done|]. split; [done|].
    cbn [String.length]. rewrite Nat2Z.inj_succ, Z.pow_succ_r by lia.
    assert (0 < 10 ^ Z.of_nat (String.length s)) by (apply Z.pow_pos_nonneg; lia).
    nia.
Qed.

(** X17.  Wherever [lineNumRegExp] matches with a run of at most 15
    digits, the line number that [fillStackLines] and [maskStackLines]
    compute from the match, [+locMatch[1]], is a natural number that a
    double holds exactly, never [NaN]. *)
Theorem line_number_is_a_number s locMatch :
  exec lineNumRegExp s = Some locMatch →
  (∀ d, group locMatch 1 = Some d → (String.length d ≤ 15)%nat) →
  ∃ z, Js.ToNumber (group locMatch 1) = Js.Int z
       ∧ 0 ≤ z ≤ Js.MAX_SAFE_INTEGER.
Proof.
  intros Hexec Hshort.
  destruct (exec_lineNumRegExp_digits s locMatch Hexec) as (d & Hgroup & _ & Hd & _).
  specialize (Hshort d Hgroup). rewrite Hgroup.
  destruct (digits_value_bound d 0 Hd) as (z & Hz & Hz0 & Hz1); [done|].
  exists z. unfold Js.ToNumber. rewrite Hz. split; [done|]. split; [done|].
  assert (10 ^ Z.of_nat (String.length d) ≤ 10 ^ 15)
    by (apply Z.pow_le_mono_r; lia).
  assert (10 ^ 15 ≤ Js.MAX_SAFE_INTEGER) by (by vm_compute).
  lia.
Qed.

Lemma line_number_is_a_number_witness :
  ∃ z, Js.ToNumber (group (MatchResult 7 ":12" [(1%nat, "12")]) 1) = Js.Int z
       ∧ 0 ≤ z ≤ Js.MAX_SAFE_INTEGER.
Proof.
  apply (line_number_is_a_number "/x/y.js:12").
  - vm_compute. reflexivity.
  - intros d [= <-]. cbn [String.length]. lia.
Defined.

(** ** [fillStackLines] *)

(** X18.  [fillStackLines] leaves the lines as they are exactly when the
    second line holds no colon with a digit after it. *)
Theorem fill_returns_lines_iff_unlocated stackLines sourceCode compiledCode :
  fillStackLines stackLines sourceCode compiledCode = Ok stackLines
  ↔ location_digits (Js.ToString (Js.get stackLines 1)) = None.
Proof.
  unfold fillStackLines, exec.
  pose proof (exec_from_lineNumRegExp (Js.ToString (Js.get stackLines 1)) 0) as Hs.
  destruct (exec_from lineNumRegExp _ 0) as [locMatch|]; [|done].
  destruct Hs as [_ [d Hd]]. rewrite Hd. split; [|done].
  destruct (exec_from columnNumRegExp _ 0); [|done].
  destruct (exec_from filePathRegExp _ 0); [|done].
  cbn [mbind outcome_bind]. intros [= Hlines].
  apply (f_equal length) in Hlines. cbn [length app] in Hlines. lia.
Qed.

(** X19.  When the second line has a line number and no column, a run
    of digits that a closing parenthesis or the end of the line follows,
    [fillStackLines] raises: it indexes the [null] that [exec] returns. *)
Theorem fill_raises_without_column stackLines sourceCode compiledCode :
  is_Some (location_digits (Js.ToString (Js.get stackLines 1))) →
  column_digits (Js.ToString (Js.get stackLines 1)) 0 = None →
  fillStackLines stackLines sourceCode compiledCode = Throw TypeError.
Proof.
  intros [d Hd] Hcolumn. unfold fillStackLines.
  destruct (exec_lineNumRegExp_located _ d Hd) as (locMatch & -> & _).
  unfold exec. by rewrite exec_from_columnNumRegExp, Hcolumn.
Qed.

Lemma fill_raises_without_column_witness :
  fillStackLines
    [ Some "Error: Invalid config"; Some "server :80 unreachable";
      Some "    at Object.<anonymous> (/x/y.js:1:7)" ]
    "export default 1" "exports.default = 1"
  = Throw TypeError.
Proof.
  apply fill_raises_without_column.
  - vm_compute. eauto.
  - vm_compute. reflexivity.
Defined.

(** X20.  When the second line has a line number, does not begin with
    "    at " and holds no opening parenthesis, [fillStackLines] raises,
    with or without a column: no path can start. *)
Theorem fill_raises_without_path stackLines sourceCode compiledCode :
  is_Some (location_digits (Js.ToString (Js.get stackLines 1))) →
  Js.startsWith (Js.ToString (Js.get stackLines 1)) "    at " = false →
  every (λ c, negb (Ascii.eqb c "(")) (Js.ToString (Js.get stackLines 1)) = true →
  fillStackLines stackLines sourceCode compiledCode = Throw TypeError.
Proof.
  intros [d Hd] Hstart Hparen. unfold fillStackLines.
  destruct (exec_lineNumRegExp_located _ d Hd) as (locMatch & -> & _).
  destruct (exec columnNumRegExp _); [|done]. cbn [mbind outcome_bind].
  unfold exec. by rewrite exec_from_filePathRegExp_none.
Qed.

Lemma fill_raises_without_path_witness :
  fillStackLines
    [ Some "Error: Cannot find module"; Some "required by /x/y.js:3:14" ]
    "export default 1" "exports.default = 1"
  = Throw TypeError.
Proof.
  apply fill_raises_without_path.
  - vm_compute. eauto.
  - vm_compute. reflexivity.
  - vm_compute. reflexivity.
Defined.

(** [fillStackLines] on a frame. *)
Lemma fillStackLines_frame
    stackLines sourceCode compiledCode body line column tail lineNum columnNum :
  Js.get stackLines 1 = Some (frame_line body line column tail) →
  every plain body = true →
  line ≠ EmptyString → Js.digits_value 0 line = Some lineNum →
  column ≠ EmptyString → Js.digits_value 0 column = Some columnNum →
  tail = ")" ∨ tail = EmptyString →
  fillStackLines stackLines sourceCode compiledCode
  = Ok ([ Some (body +:+ ":" +:+ Js.NumberToString (Js.Int lineNum));
          Js.index (Some <$> Js.split compiledCode) (Js.Int (lineNum - 1));
          Some (Js.repeat " " (Z.to_nat columnNum) +:+ "^");
          Some EmptyString ] ++ stackLines).
Proof.
  intros Hframe Hbody Hl Hline Hc Hcolumn Htail.
  pose proof (digits_value_digits _ _ _ Hline) as Hline'.
  pose proof (digits_value_digits _ _ _ Hcolumn) as Hcolumn'.
  unfold fillStackLines. rewrite Hframe. cbn [Js.ToString].
  destruct (exec_lineNumRegExp_located (frame_line body line column tail) line)
    as (locMatch & -> & ->); [by apply location_digits_frame|].
  destruct (filePathRegExp_frame body line column tail)
    as (m & -> & _ & Hpath); [done..|].
  unfold exec. rewrite exec_from_columnNumRegExp.
  rewrite column_digits_frame by done.
  cbn [fmap option_fmap option_map mbind outcome_bind].
  rewrite Hpath. cbn [Js.ToString].
  change (group (MatchResult ?i column [(1%nat, column)]) 1) with (Some column).
  unfold Js.ToNumber. rewrite Hline, Hcolumn. done.
Qed.

(** X21.  On a second line that is a frame, "    at ", a text without
    colon or closing parenthesis, a line number, a column and a closing
    parenthesis or nothing, [fillStackLines] puts four lines in front:
    all of that text, with the function name and the opening parenthesis
    if it has them, then a colon and the line number; the line of that
    number of the compiled code; the indicator of the column; an empty
    line.  The line number is one that a double holds exactly, and the
    column is below the length allowed for a string. *)
Theorem fill_writes_header_of_frame
    stackLines sourceCode compiledCode body line column tail lineNum columnNum :
  Js.get stackLines 1 = Some (frame_line body line column tail) →
  every plain body = true →
  line ≠ EmptyString → Js.digits_value 0 line = Some lineNum →
  lineNum ≤ Js.MAX_SAFE_INTEGER →
  column ≠ EmptyString → Js.digits_value 0 column = Some columnNum →
  columnNum < Js.maxLength →
  tail = ")" ∨ tail = EmptyString →
  fillStackLines stackLines sourceCode compiledCode
  = Ok ([ Some (body +:+ ":" +:+ Js.NumberToString (Js.Int lineNum));
          Js.index (Some <$> Js.split compiledCode) (Js.Int (lineNum - 1));
          Some (Js.repeat " " (Z.to_nat columnNum) +:+ "^");
          Some EmptyString ] ++ stackLines).
Proof.
  intros Hframe Hbody Hl Hline _ Hc Hcolumn _ Htail.
  by apply (fillStackLines_frame _ _ _ body line column tail).
Qed.

Lemma fill_writes_header_of_frame_witness :
  fillStackLines
    [ Some "ReferenceError: bar is not defined";
      Some (frame_line "Object.<anonymous> (/x/y.js" "1" "15" ")") ]
    "let x = foo(bar)" "const x = foo(bar);"
  = Ok ([ Some ("Object.<anonymous> (/x/y.js" +:+ ":" +:+ Js.NumberToString (Js.Int 1));
          Js.index (Some <$> Js.split "const x = foo(bar);") (Js.Int (1 - 1));
          Some (Js.repeat " " (Z.to_nat 15) +:+ "^");
          Some EmptyString ]
          ++ [ Some "ReferenceError: bar is not defined";
               Some (frame_line "Object.<anonymous> (/x/y.js" "1" "15" ")") ]).
Proof.
  apply (fill_writes_header_of_frame _ _ _ "Object.<anonymous> (/x/y.js" "1" "15" ")").
  - reflexivity.
  - vm_compute. reflexivity.
  - done.
  - vm_compute. reflexivity.
  - by vm_compute.
  - done.
  - vm_compute. reflexivity.
  - by vm_compute.
  - by left.
Defined.

(** The header that [fillStackLines] writes has a location. *)
Lemma written_header_located body lineNum :
  every plain body = true → 0 ≤ lineNum →
  ∃ locMatch,
    exec lineNumRegExp (body +:+ ":" +:+ Js.NumberToString (Js.Int lineNum))
    = Some locMatch
    ∧ Js.ToNumber (group locMatch 1) = Js.Int lineNum.
Proof.
  intros Hbody Hpos.
  pose proof (NumberToString_digits lineNum Hpos) as Hdigits.
  destruct (exec_lineNumRegExp_located
              (body +:+ ":" +:+ Js.NumberToString (Js.Int lineNum))
              (Js.NumberToString (Js.Int lineNum)))
    as (locMatch & Hexec & Hgroup).
  { rewrite location_digits_skip by by apply plain_no_colon.
    rewrite <- (append_nil (Js.NumberToString (Js.Int lineNum))) at 1.
    apply location_digits_here; [by eapply digits_value_digits| |done].
    by apply NumberToString_nonempty. }
  exists locMatch. split; [done|]. rewrite Hgroup.
  unfold Js.ToNumber. by rewrite Hdigits.
Qed.

(** X22.  The header that [fillStackLines] writes is one that
    [maskStackLines] locates: from a text without a colon, a colon and the
    decimal text of a line number that a double holds exactly,
    [lineNumRegExp] gives that number back. *)
Theorem written_header_is_read_back body lineNum :
  every plain body = true → 0 ≤ lineNum ≤ Js.MAX_SAFE_INTEGER →
  ∃ locMatch,
    exec lineNumRegExp (body +:+ ":" +:+ Js.NumberToString (Js.Int lineNum))
    = Some locMatch
    ∧ Js.ToNumber (group locMatch 1) = Js.Int lineNum.
Proof. intros Hbody [Hpos _]. by apply written_header_located. Qed.

Lemma written_header_is_read_back_witness :
  ∃ locMatch,
    exec lineNumRegExp
      ("Object.<anonymous> (/x/y.js" +:+ ":" +:+ Js.NumberToString (Js.Int 12))
    = Some locMatch
    ∧ Js.ToNumber (group locMatch 1) = Js.Int 12.
Proof.
  apply (written_header_is_read_back "Object.<anonymous> (/x/y.js" 12).
  - vm_compute. reflexivity.
  - by vm_compute.
Defined.

(** ** The column restated in a frame *)

Lemma replace_column_of_frame body line column tail replacement :
  every plain body = true →
  every digit line = true →
  every digit column = true → column ≠ EmptyString →
  tail = ")" ∨ tail = EmptyString →
  replace columnNumRegExp (frame_line body line column tail) replacement
  = frame_line body line replacement tail.
Proof.
  intros Hbody Hline Hcolumn Hne Htail. unfold replace, exec.
  rewrite exec_from_columnNumRegExp, column_digits_frame by done.
  cbn [fmap option_fmap option_map match_index match_text].
  unfold frame_line.
  replace ("    at " +:+ body +:+ ":" +:+ line +:+ ":" +:+ column +:+ tail)
    with (("    at " +:+ body +:+ ":" +:+ line +:+ ":") +:+ column +:+ tail)
    by (by rewrite !append_assoc).
  rewrite take_append.
  rewrite <- (append_assoc _ column tail), <- append_length, drop_append.
  by rewrite !append_assoc.
Qed.

(** X23.  The rewriting of the column in [maskStackLines],
    [stackLines[5].replace(columnNumRegExp, newColumn)], on a frame: the
    column is replaced by the decimal text of the new one, read back as
    that number, and the text, the line number and the closing
    parenthesis stay. *)
Theorem column_rewritten_in_frame body line column tail newColumn :
  every plain body = true →
  every digit line = true →
  every digit column = true → column ≠ EmptyString →
  tail = ")" ∨ tail = EmptyString →
  0 ≤ newColumn →
  ∃ column',
    replace columnNumRegExp (frame_line body line column tail)
      (Js.NumberToString (Js.Int newColumn))
    = frame_line body line column' tail
    ∧ Js.ToNumber (Some column') = Js.Int newColumn.
Proof.
  intros Hbody Hline Hcolumn Hne Htail Hpos.
  exists (Js.NumberToString (Js.Int newColumn)).
  split; [by apply replace_column_of_frame|].
  unfold Js.ToNumber. by rewrite NumberToString_digits.
Qed.

Lemma column_rewritten_in_frame_witness :
  ∃ column',
    replace columnNumRegExp (frame_line "Object.<anonymous> (/x/y.js" "1" "15" ")")
      (Js.NumberToString (Js.Int 12))
    = frame_line "Object.<anonymous> (/x/y.js" "1" column' ")"
    ∧ Js.ToNumber (Some column') = Js.Int 12.
Proof.
  apply (column_rewritten_in_frame "Object.<anonymous> (/x/y.js" "1" "15" ")" 12).
  - vm_compute. reflexivity.
  - vm_compute. reflexivity.
  - vm_compute. reflexivity.
  - done.
  - by left.
  - lia.
Defined.

(** ** The header of a prompt *)

(** X24.  When [maskStackLines] returns on a located header, the header
    is still the first line unless it starts with "repl:"; then the
    first line is the line of the source. *)
Theorem header_kept_unless_repl
    fuel header rest sourceCode locMatch stackLines' :
  exec lineNumRegExp header = Some locMatch →
  maskStackLines fuel (Some header :: rest) sourceCode = Ok stackLines' →
  head stackLines'
  = Some (if Js.startsWith header "repl:"
          then Js.index (Some <$> Js.split sourceCode)
                 (Js.minus_one (Js.ToNumber (group locMatch 1)))
          else Some header).
Proof.
  intros Hheader. unfold maskStackLines.
  rewrite get_0. cbn [Js.ToString]. rewrite Hheader.
  destruct rest as [|g [|i rest]]; try done.
  rewrite !get_S, !get_0.
  destruct i as [indicator|]; [|done]. cbn [Js.receiver mbind outcome_bind].
  change (Js.set (Some header :: g :: Some indicator :: rest) 1 ?v)
    with (Some header :: v :: Some indicator :: rest).
  destruct (whileClip _ _ _ _ _ _) as [newColumn| |]; try done.
  cbn [mbind outcome_bind].
  destruct (newColumn <? 0).
  { change (delete 2%nat (Some header :: ?s :: Some indicator :: rest))
      with (Some header :: s :: rest).
    cbn [mbind outcome_bind]. rewrite get_0. cbn [Js.receiver mbind outcome_bind].
    by destruct (Js.startsWith header "repl:"); intros [= <-]. }
  destruct (newColumn <? _).
  2:{ cbn [mbind outcome_bind]. rewrite get_0. cbn [Js.receiver mbind outcome_bind].
      by destruct (Js.startsWith header "repl:"); intros [= <-]. }
  change (Js.set (Some header :: ?s :: Some indicator :: rest) 2 ?v)
    with (Some header :: s :: v :: rest).
  rewrite !get_S.
  destruct rest as [|l3 [|l4 [|[restated|] rest']]]; try done.
  rewrite !get_S, get_0. cbn [Js.receiver mbind outcome_bind].
  change (Js.set (Some header :: ?s :: ?v :: l3 :: l4 :: Some restated :: rest') 5 ?x)
    with (Some header :: s :: v :: l3 :: l4 :: x :: rest').
  rewrite get_0. cbn [Js.receiver mbind outcome_bind].
  by destruct (Js.startsWith header "repl:"); intros [= <-].
Qed.

Lemma header_kept_unless_repl_witness :
  head [ Some "foo(bar)"; Some "    ^"; Some EmptyString;
         Some "ReferenceError: bar is not defined"; Some "    at repl:1:5" ]
  = Some (if Js.startsWith "repl:1" "repl:"
          then Js.index (Some <$> Js.split "foo(bar)")
                 (Js.minus_one
                    (Js.ToNumber (group (MatchResult 4 ":1" [(1%nat, "1")]) 1)))
          else Some "repl:1").
Proof.
  apply (header_kept_unless_repl 23 "repl:1"
           [ Some "foo(bar);"; Some "    ^"; Some EmptyString;
             Some "ReferenceError: bar is not defined"; Some "    at repl:1:5" ]
           "foo(bar)").
  - vm_compute. reflexivity.
  - vm_compute. reflexivity.
Defined.

(** ** A smaller column and a short text *)

(** X25.  When a column smaller than the indicator's is recovered and
    the text has fewer than six lines, [maskStackLines] raises: there is
    no line at index 5 to restate the column in. *)
Theorem smaller_column_in_short_text_raises
    fuel header indicator generated rest sourceCode locMatch newColumn :
  exec lineNumRegExp header = Some locMatch →
  whileClip fuel generated
    (Js.index (Some <$> Js.split sourceCode)
       (Js.minus_one (Js.ToNumber (group locMatch 1))))
    (Js.indexOf indicator "^") 6 (-1)
  = Ok newColumn →
  0 ≤ newColumn < Js.indexOf indicator "^" →
  (length rest ≤ 2)%nat →
  maskStackLines fuel (Some header :: generated :: Some indicator :: rest) sourceCode
  = Throw TypeError.
Proof.
  intros Hheader Hrecovery [Hpos Hlt] Hshort.
  rewrite (maskStackLines_located fuel header indicator generated rest sourceCode
             locMatch Hheader newColumn Hrecovery).
  cbv zeta.
  rewrite (proj2 (Z.ltb_ge newColumn 0)) by done.
  rewrite (proj2 (Z.ltb_lt newColumn _)) by done.
  change (Js.set (Some header :: ?s :: Some indicator :: rest) 2 ?v)
    with (Some header :: s :: v :: rest).
  rewrite !get_S. rewrite (get_beyond rest 2) by done. done.
Qed.

Lemma smaller_column_in_short_text_raises_witness :
  maskStackLines 23
    [ Some "/x/y.js:1"; Some "const x = foo(bar);"; Some "              ^";
      Some EmptyString; Some "ReferenceError: bar is not defined" ]
    "let x = foo(bar)"
  = Throw TypeError.
Proof.
  apply (smaller_column_in_short_text_raises 23 "/x/y.js:1" "              ^"
           (Some "const x = foo(bar);")
           [ Some EmptyString; Some "ReferenceError: bar is not defined" ]
           "let x = foo(bar)" (MatchResult 7 ":1" [(1%nat, "1")]) 12).
  - vm_compute. reflexivity.
  - vm_compute. reflexivity.
  - vm_compute. split; [by intros ?|reflexivity].
  - cbn [length]. lia.
Defined.

(** ** [errorMessageRegExp] on the message of a parse failure *)

















(** ** The parser masker on the message of a parse failure *)





(** ** The runtime masker on a trace without header *)

Lemma digits_value_nonneg s z : Js.digits_value 0 s = Some z → 0 ≤ z.
Proof.
  intros Hs.
  destruct (digits_value_every s 0 (digits_value_digits _ _ _ Hs)) as (z' & Hz & Hpos);
    [done|]. congruence.
Qed.

(** X28.  The runtime masker from end to end, on a scrubbed text whose
    first line, the message, has no location and whose second line is a
    frame, with the compiled code at hand and the column recovery
    returning.  [fillStackLines] writes the header, the compiled line and
    the indicator; [maskStackLines] reads the header back, puts the line
    of the source in place of the compiled one, and moves, keeps or
    deletes the indicator; the line at index 5, whose column is restated
    when the indicator moves, is the frame itself.  The header goes when
    it starts with "repl:". *)
Theorem runtime_masker_on_frame
    f fuel stack sourceCode compiledCode message body line column tail frames
    lineNum columnNum newColumn :
  Js.split (scrubStack f stack)
  = message :: frame_line body line column tail :: frames →
  location_digits message = None →
  every plain body = true →
  line ≠ EmptyString → Js.digits_value 0 line = Some lineNum →
  column ≠ EmptyString → Js.digits_value 0 column = Some columnNum →
  tail = ")" ∨ tail = EmptyString →
  whileClip fuel
    (Js.index (Some <$> Js.split compiledCode) (Js.Int (lineNum - 1)))
    (Js.index (Some <$> Js.split sourceCode) (Js.Int (lineNum - 1)))
    columnNum 6 (-1)
  = Ok newColumn →
  maskStack f fuel stack sourceCode (Some compiledCode)
  = let header := body +:+ ":" +:+ Js.NumberToString (Js.Int lineNum) in
    let lines :=
      [ Js.index (Some <$> Js.split sourceCode) (Js.Int (lineNum - 1)) ]
      ++ (if newColumn <? 0 then []
          else if newColumn <? columnNum
               then [ Some (Js.repeat " " (Z.to_nat newColumn) +:+ "^") ]
               else [ Some (Js.repeat " " (Z.to_nat columnNum) +:+ "^") ])
      ++ [ Some EmptyString; Some message;
           Some (if (0 <=? newColumn) && (newColumn <? columnNum)
                 then frame_line body line
                        (Js.NumberToString (Js.Int newColumn)) tail
                 else frame_line body line column tail) ]
      ++ (Some <$> frames) in
    Ok (Js.join (if Js.startsWith header "repl:"
                 then lines else Some header :: lines)).
Proof.
  intros Hsplit Hmessage Hbody Hl Hline Hc Hcolumn Htail Hrecovery.
  pose proof (digits_value_digits _ _ _ Hline) as Hline'.
  pose proof (digits_value_digits _ _ _ Hcolumn) as Hcolumn'.
  pose proof (digits_value_nonneg _ _ Hline) as HlineNum.
  pose proof (digits_value_nonneg _ _ Hcolumn) as HcolumnNum.
  assert (exec lineNumRegExp message = None) as Hunlocated.
  { pose proof (exec_from_lineNumRegExp message 0) as Hs. unfold exec.
    destruct (exec_from lineNumRegExp message 0); [|done].
    destruct Hs as [_ [d Hd]]. congruence. }
  unfold maskStack. rewrite Hsplit. cbn [fmap list_fmap].
  rewrite get_0. cbn [Js.ToString]. unfold test. rewrite Hunlocated.
  rewrite bool_decide_eq_false_2 by (by intros [? ?]). cbn [negb].
  rewrite (fillStackLines_frame _ sourceCode compiledCode body line column tail
             lineNum columnNum) by done.
  cbn [mbind outcome_bind app].
  destruct (written_header_located body lineNum Hbody HlineNum)
    as (locMatch & Hheader & Hnumber).
  assert (Js.indexOf (Js.repeat " " (Z.to_nat columnNum) +:+ "^") "^" = columnNum)
    as Hindicator.
  { unfold Js.indexOf. rewrite scan_up_indicator. lia. }
  rewrite (maskStackLines_located fuel _ _ _ _ sourceCode locMatch Hheader newColumn).
  2:{ rewrite Hnumber, Hindicator. exact Hrecovery. }
  cbv zeta. rewrite Hnumber, Hindicator. cbn [Js.minus_one].
  destruct (Z.ltb_spec newColumn 0) as [Hneg|Hpos].
  - rewrite (proj2 (Z.leb_gt 0 newColumn)) by done. cbn [andb].
    change (delete 2%nat (?h :: ?s :: ?i :: ?r)) with (h :: s :: r).
    cbn [mbind outcome_bind]. rewrite get_0. cbn [Js.receiver mbind outcome_bind].
    by destruct (Js.startsWith _ "repl:").
  - rewrite (proj2 (Z.leb_le 0 newColumn)) by done. cbn [andb].
    destruct (Z.ltb_spec newColumn columnNum) as [Hlt|Hge].
    + change (Js.set (?h :: ?s :: ?i :: ?r) 2 ?v) with (h :: s :: v :: r).
      rewrite !get_S, get_0. cbn [Js.receiver mbind outcome_bind].
      change (Js.set (?h :: ?s :: ?i :: ?l3 :: ?l4 :: ?l5 :: ?r) 5 ?v)
        with (h :: s :: i :: l3 :: l4 :: v :: r).
      rewrite replace_column_of_frame by done.
      rewrite get_0. cbn [Js.receiver mbind outcome_bind].
      by destruct (Js.startsWith _ "repl:").
    + cbn [mbind outcome_bind]. rewrite get_0. cbn [Js.receiver mbind outcome_bind].
      by destruct (Js.startsWith _ "repl:").
Qed.

Lemma runtime_masker_on_frame_witness :
  maskStack "/esm/index.js" 23
    (text [ "ReferenceError: bar is not defined";
            "    at Object.<anonymous> (/x/y.js:1:14)";
            "    at Module._compile (/esm/index.js:99:7)";
            "    at Module._compile (module.js:569:30)" ])
    "let x = foo(bar)" (Some "const x = foo(bar);")
  = Ok (text [ "Object.<anonymous> (/x/y.js:1";
               "let x = foo(bar)";
               "            ^";
               EmptyString;
               "ReferenceError: bar is not defined";
               "    at Object.<anonymous> (/x/y.js:1:12)";
               "    at Module._compile (module.js:569:30)" ]).
Proof.
  apply (runtime_masker_on_frame "/esm/index.js" 23 _ "let x = foo(bar)"
           "const x = foo(bar);" "ReferenceError: bar is not defined"
           "Object.<anonymous> (/x/y.js" "1" "14" ")"
           [ "    at Module._compile (module.js:569:30)" ] 1 14 12);
    try done; try (vm_compute; reflexivity).
  by left.
Defined.

(** ** Masking twice, a column recovered *)

(** *** Lines stay lines *)

Lemma single_line_append a b :
  single_line (a +:+ b) = single_line a && single_line b.
Proof.
  induction a as [|c a IH]; [done|]. rewrite append_cons. cbn [single_line].
  by rewrite IH, andb_assoc.
Qed.

Lemma single_line_take n s : single_line s = true → single_line (Js.take n s) = true.
Proof.
  revert n. induction s as [|c s IH]; intros [|n]; cbn [Js.take single_line];
    try done.
  intros [Hc Hs]%andb_prop. by rewrite Hc, IH.
Qed.

Lemma single_line_drop n s : single_line s = true → single_line (Js.drop n s) = true.
Proof.
  revert n. induction s as [|c s IH]; intros [|n]; cbn [Js.drop]; try done.
  cbn [single_line]. intros [_ Hs]%andb_prop. by apply IH.
Qed.

Lemma single_line_dot s : every dot s = true → single_line s = true.
Proof.
  induction s as [|c s IH]; [done|]. cbn [every single_line].
  intros [Hc Hs]%andb_prop. rewrite IH by done. unfold dot in Hc.
  apply negb_true_iff, orb_false_elim in Hc as [-> _]. done.
Qed.

Lemma single_line_digits s : every digit s = true → single_line s = true.
Proof.
  intros Hs. apply single_line_dot. revert Hs. apply every_impl.
  intros c Hc. unfold dot.
  destruct (Ascii.eqb_spec c Js.LF) as [->|]; [done|].
  destruct (Ascii.eqb_spec c Js.CR) as [->|]; [done|]. done.
Qed.

Lemma single_line_indicator n : single_line (Js.repeat " " n +:+ "^") = true.
Proof. induction n as [|n IH]; [done|]. exact IH. Qed.

Lemma single_line_number x :
  (∀ z, x = Js.Int z → 0 ≤ z) → single_line (Js.NumberToString x) = true.
Proof.
  intros Hx. destruct x as [|z]; [done|].
  apply single_line_digits. apply (digits_value_digits _ 0 z).
  apply NumberToString_digits. by apply Hx.
Qed.

Lemma single_line_replace r s replacement :
  single_line s = true → single_line replacement = true →
  single_line (replace r s replacement) = true.
Proof.
  intros Hs Hr. unfold replace. destruct (exec r s) as [m|]; [|done].
  rewrite !single_line_append, Hr.
  by rewrite single_line_take, single_line_drop.
Qed.

Lemma index_split_line sourceCode x original :
  Js.index (Some <$> Js.split sourceCode) x = Some original →
  single_line original = true.
Proof.
  unfold Js.index, Js.get. destruct x as [|z]; [done|].
  destruct (z <? 0); [done|]. rewrite list_lookup_fmap.
  destruct (Js.split sourceCode !! Z.to_nat z) as [l|] eqn:Hl; [|done].
  cbn. intros [= <-].
  by apply (Forall_lookup_1 _ _ _ _ (split_single_lines sourceCode) Hl).
Qed.

Lemma get_split_line stack i :
  single_line (Js.ToString (Js.get (Some <$> Js.split stack) i)) = true.
Proof.
  unfold Js.get. rewrite list_lookup_fmap.
  destruct (Js.split stack !! i) as [l|] eqn:Hl; [|done]. cbn.
  by apply (Forall_lookup_1 _ _ _ _ (split_single_lines stack) Hl).
Qed.

Lemma split_defined_lines stack :
  Forall (λ x, defined_line x = true) (Some <$> Js.split stack).
Proof.
  apply Forall_fmap. eapply Forall_impl; [apply split_single_lines|]. done.
Qed.

Lemma defined_lines_text lines :
  Forall (λ x, defined_line x = true) lines →
  ∃ texts, lines = Some <$> texts ∧ Forall (λ l, single_line l = true) texts.
Proof.
  induction 1 as [|x lines Hx _ (texts & -> & Htexts)]; [by exists []|].
  destruct x as [l|]; [|done]. exists (l :: texts). split; [done|].
  by constructor.
Qed.

(** *** What the matcher captures *)

(** A quantified atom hands over a part of the text that is left. *)
Lemma repeat_atom_continues {A} greedy atom s (k : string → nat → option A) x :
  ∀ min max p,
    repeat_atom greedy atom min max s p k = Some x →
    ∃ j p', k (Js.drop j s) p' = Some x.
Proof.
  induction s as [|c s IH]; intros min max p.
  - destruct greedy, min, max as [[|m]|]; cbn; try done;
      intros Hk; exists O, p; cbn [Js.drop]; revert Hk;
      by destruct (k EmptyString p).
  - assert (∀ more : option A,
              (more = None
               ∨ ∃ min' max' p', more = repeat_atom greedy atom min' max' s p' k) →
              (if greedy
               then match more with
                    | Some y => Some y
                    | None => match min with O => k (String c s) p | S _ => None end
                    end
               else match match min with O => k (String c s) p | S _ => None end with
                    | Some y => Some y
                    | None => more
                    end) = Some x →
              ∃ j p', k (Js.drop j (String c s)) p' = Some x) as Hcases.
    { intros more Hmore Hx.
      assert (more = Some x → ∃ j p', k (Js.drop j (String c s)) p' = Some x)
        as Hdeeper.
      { intros ->. destruct Hmore as [|(min' & max' & p' & Hmore)]; [done|].
        symmetry in Hmore. destruct (IH _ _ _ Hmore) as (j & p'' & Hj).
        by exists (S j), p''. }
      assert (match min with O => k (String c s) p | S _ => None end = Some x →
              ∃ j p', k (Js.drop j (String c s)) p' = Some x) as Hhere.
      { destruct min; [|done]. intros Hk. by exists O, p. }
      destruct greedy.
      - destruct more as [y|]; [|by apply Hhere].
        apply Hdeeper. congruence.
      - destruct (match min with O => _ | S _ => _ end) as [y|];
          [apply Hhere; congruence|by apply Hdeeper]. }
    cbn [repeat_atom]. destruct max as [[|m]|].
    + apply (Hcases None). by left.
    + apply (Hcases (if atom c
                     then repeat_atom greedy atom (Nat.pred min)
                            (Nat.pred <$> Some (S m)) s (S p) k
                     else None)).
      destruct (atom c); [right; eauto|by left].
    + apply (Hcases (if atom c
                     then repeat_atom greedy atom (Nat.pred min)
                            (Nat.pred <$> None) s (S p) k
                     else None)).
      destruct (atom c); [right; eauto|by left].
Qed.

(** The text left and the captures are parts of lines as long as the
    text matched is a line. *)
Lemma rmatch_lines r :
  ∀ A st (k : mstate → option A) x,
    single_line (rest st) = true →
    Forall (λ c, single_line c.2 = true) (caps st) →
    rmatch r st k = Some x →
    ∃ st', single_line (rest st') = true
           ∧ Forall (λ c, single_line c.2 = true) (caps st')
           ∧ k st' = Some x.
Proof.
  induction r as [c|r1 IH1 r2 IH2|r1 IH1 r2 IH2|greedy min max atom|r IH|i r IH| | |r IH];
    intros A st k x Hrest Hcaps; cbn [rmatch].
  - destruct (rest st) as [|c' s'] eqn:Hs; [done|].
    destruct (Ascii.eqb c c'); [|done]. intros Hk. eexists. split_and!; [| |exact Hk].
    + cbn [rest]. cbn [single_line] in Hrest. by apply andb_prop in Hrest as [_ ?].
    + done.
  - intros H1. destruct (IH1 _ _ _ _ Hrest Hcaps H1) as (st1 & Hrest1 & Hcaps1 & H2).
    by apply (IH2 _ _ _ _ Hrest1 Hcaps1).
  - destruct (rmatch r1 st k) as [y|] eqn:H1.
    + intros [= <-]. by apply (IH1 _ _ _ _ Hrest Hcaps).
    + by apply IH2.
  - intros Hk. destruct (repeat_atom_continues _ _ _ _ _ _ _ _ Hk) as (j & p' & Hj).
    eexists. split_and!; [| |exact Hj]; [by apply single_line_drop|done].
  - destruct (rmatch r st k) as [y|] eqn:H1.
    + intros [= <-]. by apply (IH _ _ _ _ Hrest Hcaps).
    + intros Hk. by exists st.
  - intros H1. destruct (IH _ _ _ _ Hrest Hcaps H1) as (st1 & Hrest1 & Hcaps1 & Hk).
    eexists. split_and!; [| |exact Hk]; [done|].
    constructor; [by apply single_line_take|done].
  - destruct (pos st =? 0)%nat; [|done]. intros Hk. by exists st.
  - destruct (rest st) eqn:Hs; [|done]. intros Hk. exists st.
    split_and!; [by rewrite Hs|done|done].
  - destruct (rmatch r st Some) as [st1|] eqn:H1; [|done].
    destruct (IH _ _ _ _ Hrest Hcaps H1) as (st2 & _ & Hcaps2 & [= ->]).
    intros Hk. eexists. split_and!; [| |exact Hk]; done.
Qed.

Lemma exec_from_lines r s :
  ∀ p m,
    single_line s = true → exec_from r s p = Some m →
    Forall (λ c, single_line c.2 = true) (match_caps m).
Proof.
  assert (∀ s p st,
            single_line s = true →
            rmatch r (MState s p []) Some = Some st →
            Forall (λ c, single_line c.2 = true) (caps st)) as Hhere.
  { intros s' p st Hs Hmatch.
    destruct (rmatch_lines r _ (MState s' p []) Some st Hs (Forall_nil_2 _) Hmatch)
      as (st' & _ & Hcaps & Hst). by injection Hst as ->. }
  induction s as [|c s IH]; intros p m Hs; cbn [exec_from].
  - destruct (rmatch r _ Some) as [st|] eqn:Hmatch; [|done].
    intros [= <-]. cbn [match_caps]. by eapply Hhere.
  - destruct (rmatch r _ Some) as [st|] eqn:Hmatch.
    + intros [= <-]. cbn [match_caps]. by eapply Hhere.
    + cbn [single_line] in Hs. apply andb_prop in Hs as [_ Hs]. by apply IH.
Qed.

(** A capture of a match on a line is a line, and so is "undefined". *)
Lemma group_line r s m i :
  single_line s = true → exec r s = Some m →
  single_line (Js.ToString (group m i)) = true.
Proof.
  intros Hs Hexec. pose proof (exec_from_lines r s 0 m Hs Hexec) as Hcaps.
  unfold group. destruct (List.find _ (match_caps m)) as [c|] eqn:Hfind; [|done].
  cbn. apply find_some in Hfind as [Hin _].
  rewrite Forall_forall in Hcaps. apply Hcaps. by apply list_elem_of_In.
Qed.

(** *** Recovery on the line of the source itself *)

Lemma prefix_empty s : String.prefix EmptyString s = true.
Proof. by destruct s. Qed.

Lemma prefix_cons x a y s :
  String.prefix (String x a) (String y s)
  = if Ascii.eqb x y then String.prefix a s else false.
Proof.
  cbn [String.prefix]. destruct (ascii_dec x y) as [->|Hne].
  - by rewrite Ascii.eqb_refl.
  - by rewrite (proj2 (Ascii.eqb_neq x y)).
Qed.

Lemma prefix_append a r : String.prefix a (a +:+ r) = true.
Proof.
  induction a as [|x a IH]; [apply prefix_empty|].
  rewrite append_cons, prefix_cons. by rewrite Ascii.eqb_refl.
Qed.

Lemma prefix_inv a :
  ∀ s, String.prefix a s = true → ∃ r, s = a +:+ r.
Proof.
  induction a as [|x a IH]; intros s Hs; [by exists s|].
  destruct s as [|y s]; [done|]. rewrite prefix_cons in Hs.
  destruct (Ascii.eqb_spec x y) as [->|]; [|done].
  destruct (IH s Hs) as [r ->]. by exists r.
Qed.

Lemma prefix_trans a b s :
  String.prefix a b = true → String.prefix b s = true → String.prefix a s = true.
Proof.
  intros [r1 ->]%prefix_inv [r2 ->]%prefix_inv.
  rewrite append_assoc. apply prefix_append.
Qed.

Lemma prefix_take_longer a :
  ∀ s n,
    String.prefix a s = true → (String.length a ≤ n)%nat →
    String.prefix a (Js.take n s) = true.
Proof.
  induction a as [|x a IH]; intros s n Hs Hn; [apply prefix_empty|].
  destruct s as [|y s]; [done|]. cbn [String.length] in Hn.
  destruct n as [|n]; [lia|]. cbn [Js.take]. rewrite prefix_cons in *.
  destruct (Ascii.eqb x y); [|done]. apply IH; [done|lia].
Qed.

Lemma substr_inside s column n :
  0 ≤ column ≤ Js.len s → 0 ≤ n →
  Js.substr s column n = Js.take (Z.to_nat n) (Js.drop (Z.to_nat column) s).
Proof.
  intros Hcolumn Hn. unfold Js.substr.
  rewrite (proj2 (Z.ltb_ge column 0)) by lia.
  replace (Z.min column (Js.len s)) with column by lia.
  destruct (decide (n ≤ Js.len s - column)) as [Hle|Hgt].
  - f_equal. lia.
  - rewrite !take_all; [done| |]; rewrite drop_length; unfold Js.len in *; lia.
Qed.

Lemma substr_length s column n :
  0 ≤ n → (String.length (Js.substr s column n) ≤ Z.to_nat n)%nat.
Proof.
  intros Hn. unfold Js.substr. rewrite take_length. lia.
Qed.

(** A column that recovery returns is a fixed point: recovery from the
    line of the source itself, at that column, gives the column back. *)
Lemma recovery_again fuel generated column original newColumn :
  recoverColumn fuel generated column original = Ok newColumn →
  0 ≤ newColumn →
  0 < newColumn ≤ column
  ∧ Leftmost.columnRecovery original newColumn original = Some newColumn.
Proof.
  intros Hrec Hpos.
  destruct (recoverColumn_returns _ _ _ _ _ Hrec) as [H0 Hr].
  unfold recovered in Hr. rewrite (proj2 (Z.ltb_ge newColumn 0)) in Hr by done.
  symmetry in Hr. rewrite Hr in H0.
  destruct (by_length_found _ _ _ _ _ Hr) as (n & Hn & Hleft).
  destruct (leftmost_occurrence_found _ _ _ _ Hleft) as (Hk & Hocc & Hmin).
  assert (newColumn ≠ 0) as Hne by (by intros ->).
  assert (1 ≤ n ≤ 5) as Hlength.
  { repeat (apply elem_of_cons in Hn as [->|Hn]; [lia|]).
    by apply elem_of_nil in Hn. }
  split; [lia|].
  set (c := Js.substr generated column n) in *.
  assert (Js.occurs_at original c 0 = false) as Hfirst by (apply Hmin; lia).
  assert (c ≠ EmptyString) as Hc.
  { intros Hempty. rewrite Hempty, occurs_at_empty in Hfirst. done. }
  assert (newColumn < Js.len original) as Hinside.
  { destruct (decide (newColumn < Js.len original)) as [|Hout]; [done|].
    unfold Js.occurs_at in Hocc. rewrite drop_all in Hocc
      by (unfold Js.len in Hout; lia).
    by apply prefix_of_empty in Hocc. }
  assert (String.prefix c (Js.substr original newColumn 5) = true) as Hlonger.
  { rewrite substr_inside by lia. apply prefix_take_longer; [exact Hocc|].
    pose proof (substr_length generated column n) as Hlen. fold c in Hlen. lia. }
  unfold Leftmost.columnRecovery. cbn [Leftmost.by_length].
  assert (Leftmost.leftmost_occurrence original (Js.substr original newColumn 5)
            newColumn = Some newColumn) as ->; [|done].
  unfold Leftmost.leftmost_occurrence.
  assert (Js.occurs_at original (Js.substr original newColumn 5)
            (Z.to_nat newColumn) = true) as Hthere.
  { rewrite substr_inside by lia. apply prefix_take. }
  destruct (indexOf_cases original (Js.substr original newColumn 5))
    as [[_ Hno]|(k & -> & Hoccurs & Hleast)].
  { by rewrite Hno in Hthere. }
  assert (Z.of_nat k = newColumn) as ->.
  { destruct (decide (k < Z.to_nat newColumn)%nat) as [Hless|Hmore].
    - pose proof (prefix_trans _ _ _ Hlonger Hoccurs) as Hshort.
      unfold Js.occurs_at in Hmin. by rewrite (Hmin k Hless) in Hshort.
    - destruct (decide (Z.to_nat newColumn < k)%nat) as [Hless|?]; [|lia].
      by rewrite (Hleast _ Hless) in Hthere. }
  rewrite (proj2 (Z.leb_le 0 newColumn)) by lia.
  by rewrite (proj2 (Z.leb_le newColumn (Z.max newColumn 0))) by lia.
Qed.

Lemma whileClip_inputs fuel generated original column newColumn :
  whileClip fuel generated original column 6 (-1) = Ok newColumn →
  ∃ g o, generated = Some g ∧ original = Some o.
Proof.
  destruct fuel as [|fuel]; [done|]. cbn [whileClip].
  change (6 >? 1) with true. change (-1 <? 0) with true. cbn [andb].
  destruct generated as [g|]; [|done]. destruct original as [o|]; [|done].
  intros _. by exists g, o.
Qed.

(** *** The second pass *)

(** After a pass of [maskStackLines] that recovered a column and kept the
    header, a second pass changes nothing: the code line is the line of
    the source, and from it the column of the indicator is recovered
    again. *)
Lemma maskStackLines_again
    fuel fuel' header generated indicator rest sourceCode locMatch newColumn
    stackLines' :
  exec lineNumRegExp header = Some locMatch →
  Js.startsWith header "repl:" = false →
  whileClip fuel generated
    (Js.index (Some <$> Js.split sourceCode)
       (Js.minus_one (Js.ToNumber (group locMatch 1))))
    (Js.indexOf indicator "^") 6 (-1)
  = Ok newColumn →
  0 ≤ newColumn →
  maskStackLines fuel (Some header :: generated :: Some indicator :: rest) sourceCode
  = Ok stackLines' →
  (Z.to_nat newColumn + 9 ≤ fuel')%nat →
  maskStackLines fuel' stackLines' sourceCode = Ok stackLines'
  ∧ head stackLines' = Some (Some header)
  ∧ (single_line header = true → single_line indicator = true →
     Forall (λ x, defined_line x = true) rest →
     Forall (λ x, defined_line x = true) stackLines').
Proof.
  intros Hheader Hrepl Hrecovery Hpos Hmask Hfuel.
  destruct (whileClip_inputs _ _ _ _ _ Hrecovery) as (g & original & -> & Horiginal).
  rewrite Horiginal in Hrecovery.
  destruct (recovery_again fuel g _ original newColumn Hrecovery Hpos)
    as [Hcolumn Hfixed].
  assert (∀ indicator',
            Js.indexOf indicator' "^" = newColumn →
            whileClip fuel' (Some original)
              (Js.index (Some <$> Js.split sourceCode)
                 (Js.minus_one (Js.ToNumber (group locMatch 1))))
              (Js.indexOf indicator' "^") 6 (-1)
            = Ok newColumn) as Hagain.
  { intros indicator' ->. rewrite Horiginal.
    pose proof (recoverColumn_stops original newColumn original fuel') as Hstops.
    unfold recoverColumn in Hstops. rewrite Hstops, Hfixed; [done| |done].
    rewrite Hfixed. intros [= ?]. lia. }
  pose proof (index_split_line _ _ _ Horiginal) as Hline.
  rewrite <- Horiginal in Hrecovery.
  rewrite (maskStackLines_located fuel header indicator (Some g) rest sourceCode
             locMatch Hheader newColumn Hrecovery) in Hmask.
  cbv zeta in Hmask. rewrite Horiginal in Hmask.
  rewrite (proj2 (Z.ltb_ge newColumn 0)) in Hmask by done.
  destruct (Z.ltb_spec newColumn (Js.indexOf indicator "^")) as [Hlt|Hge].
  - change (Js.set (?h :: ?s :: ?i :: ?r) 2 ?v) with (h :: s :: v :: r) in Hmask.
    rewrite !get_S in Hmask.
    destruct rest as [|l3 [|l4 [|[restated|] rest']]]; try done.
    rewrite !get_S, get_0 in Hmask. cbn [Js.receiver mbind outcome_bind] in Hmask.
    change (Js.set (?h :: ?s :: ?i :: ?l3 :: ?l4 :: ?l5 :: ?r) 5 ?v)
      with (h :: s :: i :: l3 :: l4 :: v :: r) in Hmask.
    rewrite get_0 in Hmask. cbn [Js.receiver mbind outcome_bind] in Hmask.
    rewrite Hrepl in Hmask. injection Hmask as <-.
    assert (Js.indexOf (Js.repeat " " (Z.to_nat newColumn) +:+ "^") "^" = newColumn)
      as Hindicator.
    { unfold Js.indexOf. rewrite scan_up_indicator. lia. }
    split_and!; [|done|].
    + rewrite (maskStackLines_kept fuel' header _ (Some original) _ sourceCode
                 locMatch Hheader newColumn (Hagain _ Hindicator)); [|done|lia].
      cbv zeta. by rewrite Horiginal, Hrepl.
    + intros Hh Hi Hrest.
      apply Forall_cons in Hrest as [Hl3 Hrest].
      apply Forall_cons in Hrest as [Hl4 Hrest].
      apply Forall_cons in Hrest as [Hrestated Hrest].
      repeat (constructor; [try done|]); [apply single_line_indicator| |done].
      cbn [defined_line]. apply single_line_replace; [done|].
      apply (single_line_number (Js.Int newColumn)). intros z [= <-]. done.
  - assert (Js.indexOf indicator "^" = newColumn) as Hindicator by lia.
    cbn [mbind outcome_bind] in Hmask. rewrite get_0 in Hmask.
    cbn [Js.receiver mbind outcome_bind] in Hmask.
    rewrite Hrepl in Hmask. injection Hmask as <-.
    split_and!; [|done|].
    + rewrite (maskStackLines_kept fuel' header _ (Some original) _ sourceCode
                 locMatch Hheader newColumn (Hagain _ Hindicator)); [|done|lia].
      cbv zeta. by rewrite Horiginal, Hrepl.
    + intros Hh Hi Hrest. by repeat (constructor; [try done|]).
Qed.

(** The lines that [maskStack] hands over are lines, the second, which
    [maskStackLines] replaces, apart. *)
Lemma filledStackLines_lines f stack sourceCode compiledCode h g lines :
  filledStackLines f stack sourceCode compiledCode = Ok (h :: g :: lines) →
  defined_line h = true ∧ Forall (λ x, defined_line x = true) lines.
Proof.
  unfold filledStackLines.
  pose proof (split_defined_lines (scrubStack f stack)) as Hlines.
  assert (∀ h' g' lines',
            Some <$> Js.split (scrubStack f stack) = h' :: g' :: lines' →
            defined_line h' = true ∧ Forall (λ x, defined_line x = true) lines')
    as Hscrubbed.
  { intros h' g' lines' Heq. rewrite Heq in Hlines.
    apply Forall_cons in Hlines as [Hh Hlines].
    by apply Forall_cons in Hlines as [_ Hlines]. }
  destruct compiledCode as [compiled|]; [|intros [= Heq]; by eapply Hscrubbed].
  destruct (negb _); [|intros [= Heq]; by eapply Hscrubbed].
  unfold fillStackLines.
  destruct (exec lineNumRegExp _) as [locMatch|] eqn:HlocMatch;
    [|intros [= Heq]; by eapply Hscrubbed].
  destruct (exec columnNumRegExp _) as [columnMatch|]; [|done].
  destruct (exec filePathRegExp _) as [filePathMatch|] eqn:HfilePath; [|done].
  cbn [mbind outcome_bind app]. intros [= <- <- <-]. split.
  - cbn [defined_line]. rewrite !single_line_append.
    rewrite (group_line _ _ _ 1 (get_split_line _ 1) HfilePath).
    rewrite single_line_number; [done|].
    destruct (exec_lineNumRegExp_digits _ _ HlocMatch) as (d & -> & _ & Hd & _).
    destruct (digits_value_every d 0 Hd) as (z & Hz & Hz0); [done|].
    unfold Js.ToNumber. rewrite Hz. by intros ? [= <-].
  - constructor; [apply single_line_indicator|]. by constructor.
Qed.

Lemma maskStack_stages f fuel stack sourceCode compiledCode :
  maskStack f fuel stack sourceCode compiledCode
  = (stackLines ← filledStackLines f stack sourceCode compiledCode;
     stackLines ← maskStackLines fuel stackLines sourceCode;
     Ok (Js.join stackLines)).
Proof. reflexivity. Qed.

(** A text none of whose lines holds the loader's file name is scrubbed
    to itself. *)
Lemma scrubStack_clean f stack :
  Forall (λ l, Js.includes l f = false) (Js.split stack) →
  scrubStack f stack = stack.
Proof.
  intros Hnone. unfold scrubStack. rewrite filter_all_kept; [apply text_split|].
  eapply Forall_impl; [exact Hnone|]. intros l Hl. simpl. by rewrite Hl.
Qed.

(** The runtime masker on its own output, a column having been
    recovered. *)
Lemma maskStack_again
    f fuel fuel' stack sourceCode compiledCode header generated indicator rest
    locMatch newColumn masked :
  filledStackLines f stack sourceCode compiledCode
  = Ok (Some header :: generated :: Some indicator :: rest) →
  exec lineNumRegExp header = Some locMatch →
  Js.startsWith header "repl:" = false →
  whileClip fuel generated
    (Js.index (Some <$> Js.split sourceCode)
       (Js.minus_one (Js.ToNumber (group locMatch 1))))
    (Js.indexOf indicator "^") 6 (-1)
  = Ok newColumn →
  0 ≤ newColumn →
  maskStack f fuel stack sourceCode compiledCode = Ok masked →
  Forall (λ l, Js.includes l f = false) (Js.split masked) →
  (Z.to_nat newColumn + 9 ≤ fuel')%nat →
  maskStack f fuel' masked sourceCode compiledCode = Ok masked.
Proof.
  intros Hfilled Hheader Hrepl Hrecovery Hpos Hmask Hclean Hfuel.
  rewrite maskStack_stages, Hfilled in Hmask. cbn [mbind outcome_bind] in Hmask.
  destruct (maskStackLines fuel _ sourceCode) as [stackLines'| |] eqn:Hlines;
    [|done..].
  cbn [mbind outcome_bind] in Hmask. injection Hmask as <-.
  destruct (filledStackLines_lines _ _ _ _ _ _ _ Hfilled) as [Hh Hrest].
  apply Forall_cons in Hrest as [Hi Hrest].
  destruct (maskStackLines_again fuel fuel' _ _ _ _ _ _ _ _
              Hheader Hrepl Hrecovery Hpos Hlines Hfuel)
    as (Hagain & Hhead & Hdefined).
  destruct (defined_lines_text stackLines' (Hdefined Hh Hi Hrest))
    as (texts & -> & Htexts).
  destruct texts as [|first texts]; [done|]. cbn [fmap list_fmap head] in Hhead.
  injection Hhead as ->.
  change (Js.join (Some <$> header :: texts)) with (text (header :: texts)) in *.
  unfold maskStack. rewrite (scrubStack_clean f _ Hclean).
  rewrite split_text by done.
  change (Some <$> header :: texts) with (Some header :: (Some <$> texts)) at 1.
  rewrite get_0. cbn [Js.ToString]. unfold test. rewrite Hheader.
  rewrite bool_decide_eq_true_2 by eauto. cbn [negb].
  assert ((match compiledCode with
           | Some _ => Ok (Some <$> header :: texts)
           | None => Ok (Some <$> header :: texts)
           end : outcome (list (option string)))
          = Ok (Some <$> header :: texts)) as -> by (by destruct compiledCode).
  cbn [mbind outcome_bind]. rewrite Hagain. done.
Qed.

(** C4, as amended.  The runtime masker is idempotent in two cases.
    On a text that has no location to remap, the first line of the
    scrubbed text holding no ":<digits>" and the compiled code being
    absent or the second line holding none either, the masked text is the
    scrubbed text, and masking it again returns it unchanged.  And on a
    text for which the first pass recovers a column: the lines handed to
    [maskStackLines], the scrubbed ones or those with the header block of
    [fillStackLines], begin with a located header that does not start
    with "repl:", the column recovery returns a column, and the pass
    returns a text none of whose lines holds the loader's file name; then
    the second pass, which finds the header, the line of the source and
    the indicator at the recovered column, recovers that column again and
    returns the text unchanged. *)
Theorem maskStack_idempotent f fuel stack sourceCode compiledCode :
  (exec lineNumRegExp (first_line (scrubStack f stack)) = None →
   compiledCode = None
   ∨ exec lineNumRegExp (second_line (scrubStack f stack)) = None →
   ∃ masked,
     maskStack f fuel stack sourceCode compiledCode = Ok masked
     ∧ ∀ fuel', maskStack f fuel' masked sourceCode compiledCode = Ok masked)
  ∧ (∀ header generated indicator rest locMatch newColumn masked,
       filledStackLines f stack sourceCode compiledCode
       = Ok (Some header :: generated :: Some indicator :: rest) →
       exec lineNumRegExp header = Some locMatch →
       Js.startsWith header "repl:" = false →
       whileClip fuel generated
         (Js.index (Some <$> Js.split sourceCode)
            (Js.minus_one (Js.ToNumber (group locMatch 1))))
         (Js.indexOf indicator "^") 6 (-1)
       = Ok newColumn →
       0 ≤ newColumn →
       maskStack f fuel stack sourceCode compiledCode = Ok masked →
       Forall (λ l, Js.includes l f = false) (Js.split masked) →
       ∀ fuel', (Z.to_nat newColumn + 9 ≤ fuel')%nat →
         maskStack f fuel' masked sourceCode compiledCode = Ok masked).
Proof.
  split.
  - intros Hfirst Hsecond. exists (scrubStack f stack).
    split; [by apply maskStack_unlocated|].
    intros fuel'. rewrite maskStack_unlocated; rewrite scrubStack_idempotent; done.
  - intros header generated indicator rest locMatch newColumn masked
      Hfilled Hheader Hrepl Hrecovery Hpos Hmask Hclean fuel' Hfuel.
    by apply (maskStack_again f fuel fuel' stack sourceCode compiledCode
                header generated indicator rest locMatch newColumn masked).
Qed.

Lemma maskStack_idempotent_witness :
  (∃ masked,
     maskStack "/esm/index.js" 0
       (text [ "TypeError: x is not a function";
               "    at load (/esm/index.js:10:3)";
               "    at Object.<anonymous> (/x/y.js:1:7)" ])
       "x()" None = Ok masked
     ∧ ∀ fuel', maskStack "/esm/index.js" fuel' masked "x()" None = Ok masked)
  ∧ (∀ fuel', (Z.to_nat 12 + 9 ≤ fuel')%nat →
       maskStack "/esm/index.js" fuel'
         (text [ "Object.<anonymous> (/x/y.js:1";
                 "let x = foo(bar)";
                 "            ^";
                 EmptyString;
                 "ReferenceError: bar is not defined";
                 "    at Object.<anonymous> (/x/y.js:1:12)";
                 "    at Module._compile (module.js:569:30)" ])
         "let x = foo(bar)" (Some "const x = foo(bar);")
       = Ok (text [ "Object.<anonymous> (/x/y.js:1";
                    "let x = foo(bar)";
                    "            ^";
                    EmptyString;
                    "ReferenceError: bar is not defined";
                    "    at Object.<anonymous> (/x/y.js:1:12)";
                    "    at Module._compile (module.js:569:30)" ])).
Proof.
  split.
  - apply (proj1 (maskStack_idempotent "/esm/index.js" 0
                    (text [ "TypeError: x is not a function";
                            "    at load (/esm/index.js:10:3)";
                            "    at Object.<anonymous> (/x/y.js:1:7)" ])
                    "x()" None)).
    + vm_compute. reflexivity.
    + left. reflexivity.
  - apply (proj2 (maskStack_idempotent "/esm/index.js" 23
                    (text [ "ReferenceError: bar is not defined";
                            "    at Object.<anonymous> (/x/y.js:1:14)";
                            "    at Module._compile (/esm/index.js:99:7)";
                            "    at Module._compile (module.js:569:30)" ])
                    "let x = foo(bar)" (Some "const x = foo(bar);"))
             "Object.<anonymous> (/x/y.js:1" (Some "const x = foo(bar);")
             "              ^"
             [ Some EmptyString; Some "ReferenceError: bar is not defined";
               Some "    at Object.<anonymous> (/x/y.js:1:14)";
               Some "    at Module._compile (module.js:569:30)" ]
             (MatchResult 27 ":1" [(1%nat, "1")]) 12).
    + vm_compute. reflexivity.
    + vm_compute. reflexivity.
    + vm_compute. reflexivity.
    + vm_compute. reflexivity.
    + lia.
    + vm_compute. reflexivity.
    + vm_compute. repeat constructor.
Defined.
